(** * Render-state and resource caching engine: a shallow embedding

    The development follows the TypeScript sources of the renderer:

    - [MultiDrawBuffer] and [TexturePool]
        (rendering/renderers/shared/geometry/MultiDrawBuffer.ts),
    - [BindGroup] (rendering/renderers/gpu/texture/GpuTextureSystem.ts),
    - [PipelineSystem] (rendering/renderers/gpu/pipeline/PipelineSystem.ts),
    - [GpuEncoderSystem] (the encoder system of the gpu renderer).

    JavaScript objects that are shared and mutated (bind groups, pooled
    textures, the nested pipeline tables) live in explicit stores and are
    referred to by identifiers, so that aliasing is visible.  Numbers are
    integers ([Z]); the 32-bit conversions that [<<], [|], [&] and typed
    arrays perform are written out.  Loops that the source does not bound
    take fuel and return [None] when it runs out. *)

From Stdlib Require Import ZArith QArith Qround Lia Lqa.
From stdpp Require Import base tactics option list gmap strings pretty.

#[local] Open Scope Z_scope.

(** ** JavaScript 32-bit integer operators *)

Module Js.

(** ToInt32: wrap into [-2^31, 2^31). *)
Definition toInt32 (z : Z) : Z := (z + 2 ^ 31) mod 2 ^ 32 - 2 ^ 31.

(** ToUint32: wrap into [0, 2^32). *)
Definition toUint32 (z : Z) : Z := z mod 2 ^ 32.

(** [a << b]: both operands are converted, the count is taken modulo 32. *)
Definition shl (a b : Z) : Z := toInt32 (Z.shiftl (toInt32 a) (toUint32 b mod 32)).

(** [a | b]. *)
Definition bor (a b : Z) : Z := Z.lor (toInt32 a) (toInt32 b).

(** [a & b]. *)
Definition band (a b : Z) : Z := Z.land (toInt32 a) (toInt32 b).

Arguments toInt32 : simpl never.
Arguments toUint32 : simpl never.
Arguments shl : simpl never.
Arguments bor : simpl never.
Arguments band : simpl never.

(** A reference held in a table slot or a field: [undefined], [null] or an
    object, named by its identifier.  [===] on references is [decide (_ = _)]. *)
Inductive ref : Type :=
| undefined
| null
| obj (id : nat).

#[global] Instance ref_eq_dec : EqDecision ref.
Proof. solve_decision. Defined.

(** Truthiness of a reference ([if (x)], [!x]). *)
Definition truthy (r : ref) : bool :=
  match r with obj _ => true | _ => false end.

End Js.

(** ** MultiDrawBuffer.ts: the dynamic draw-range buffer *)

Module MultiDrawBuffer.

Record DrawInstanceParameters : Type := {
  vertexPerInstance : Z;
  indexPerInstance : Z;
  instanced : bool
}.

(** The four typed arrays are lists of their elements ([offsets], [counts]
    and [instanceCounts] are [Int32Array]s, [baseInstances] a [Uint32Array]). *)
Record t : Type := {
  offsets : list Z;
  counts : list Z;
  baseInstances : list Z;
  instanceCounts : list Z;
  size : Z;
  count : Z;
  params : option DrawInstanceParameters
}.

(** [new Int32Array(sz)]: zero-filled; a negative length is a RangeError. *)
Definition newArray (sz : Z) : option (list Z) :=
  if sz <? 0 then None else Some (replicate (Z.to_nat sz) 0).

(** [target.set(source, 0)]: a source longer than the target is a RangeError. *)
Definition arraySet (target source : list Z) : option (list Z) :=
  if (length source <=? length target)%nat
  then Some (source ++ drop (length source) target)
  else None.

(** [arr[i] = v] on an [Int32Array]: the value is converted, and a write
    outside the array is ignored. *)
Definition writeInt32 (i : Z) (v : Z) (arr : list Z) : list Z :=
  if i <? 0 then arr else <[Z.to_nat i := Js.toInt32 v]> arr.

(** [arr[j]] read as a number operand: outside the array the read is
    [undefined], the product is NaN and the store converts NaN to 0, which is
    also what a product with 0 stores. *)
Definition readAt (arr : list Z) (j : nat) : Z := default 0 (arr !! j).

(** The state of the object when the constructor calls [resize]: [size] is
    [undefined] ([this.size || 0] is 0) and the arrays are unassigned, so
    nothing is copied; the empty list stands for the unassigned array. *)
Definition blank (p : option DrawInstanceParameters) : t :=
  {| offsets := []; counts := []; baseInstances := []; instanceCounts := [];
     size := 0; count := 0; params := p |}.

(** The loop [for (i = oldSize; i < sz; i++) counts[i] = v]. *)
Definition fillCounts (oldSize sz v : Z) (cnt : list Z) : list Z :=
  foldl (fun c i => writeInt32 i v c) cnt (seqZ oldSize (sz - oldSize)).

(** [resize(sz, copyOldInfo = true)]. *)
Definition resize (sz : Z) (copyOldInfo : bool) (b : t) : option t :=
  let oldSize := size b in
  newCnt ← newArray sz;
  newOff ← newArray sz;
  newInst ← newArray sz;
  newBase ← newArray sz;
  cnt ← (if copyOldInfo then arraySet newCnt (counts b) else Some newCnt);
  off ← (if copyOldInfo then arraySet newOff (offsets b) else Some newOff);
  inst ← (if copyOldInfo then arraySet newInst (instanceCounts b) else Some newInst);
  base ← (if copyOldInfo then arraySet newBase (baseInstances b) else Some newBase);
  Some {| offsets := off;
          counts := match params b with
                    | Some p => fillCounts oldSize sz (vertexPerInstance p) cnt
                    | None => cnt
                    end;
          baseInstances := base;
          instanceCounts := inst;
          size := sz;
          count := count b;
          params := params b |}.

(** [constructor(capacity = 64, params?)]. *)
Definition create (capacity : Z) (p : option DrawInstanceParameters) : option t :=
  resize capacity true (blank p).

(** The loop [while (sz > new_size) new_size *= 2] of [ensureSize]. *)
Fixpoint growSize (fuel : nat) (sz new_size : Z) : option Z :=
  match fuel with
  | O => None
  | S fuel' =>
      if sz >? new_size then growSize fuel' sz (new_size * 2) else Some new_size
  end.

(** [ensureSize(sz)]. *)
Definition ensureSize (fuel : nat) (sz : Z) (b : t) : option t :=
  if sz <=? size b then Some b
  else
    new_size ← growSize fuel sz (size b);
    resize new_size true b.

(** One iteration of either loop of [convertInstancesToVertices]:
    [offsets[j] = baseInstances[j] * mo; counts[j] = instanceCounts[j] * mc].
    The products are exact; those of the program are products of doubles,
    which are exact as long as they stay within [2^53] in magnitude
    ([exactProducts] below). *)
Definition convertStep (mo mc : Z) (b : t) (j : nat) : t :=
  {| offsets := writeInt32 (Z.of_nat j) (readAt (baseInstances b) j * mo) (offsets b);
     counts := writeInt32 (Z.of_nat j) (readAt (instanceCounts b) j * mc) (counts b);
     baseInstances := baseInstances b;
     instanceCounts := instanceCounts b;
     size := size b;
     count := count b;
     params := params b |}.

(** [convertInstancesToVertices(params?)]; [params || this.params] being
    [undefined] makes [params.instanced] a TypeError ([None]). *)
Definition convertInstancesToVertices
    (arg : option DrawInstanceParameters) (b : t) : option t :=
  p ← (match arg with Some p => Some p | None => params b end);
  if instanced p then Some b
  else if 0 <? indexPerInstance p
  then Some (foldl (convertStep (indexPerInstance p * 4) (indexPerInstance p))
                   b (seq 0 (Z.to_nat (count b))))
  else Some (foldl (convertStep (vertexPerInstance p) (vertexPerInstance p))
                   b (seq 0 (Z.to_nat (count b)))).

(** The four arrays have the length that [size] records. *)
Definition wellSized (b : MultiDrawBuffer.t) : Prop :=
  0 <= size b
  /\ length (offsets b) = Z.to_nat (size b)
  /\ length (counts b) = Z.to_nat (size b)
  /\ length (baseInstances b) = Z.to_nat (size b)
  /\ length (instanceCounts b) = Z.to_nat (size b).

(** The parameters that [convertInstancesToVertices] works with:
    [params || this.params]. *)
Definition effectiveParams (arg : option DrawInstanceParameters)
    (b : MultiDrawBuffer.t) : option DrawInstanceParameters :=
  match arg with Some p => Some p | None => params b end.

(** The products that [convertInstancesToVertices] forms for the first
    [count] ranges stay within [2^53] in magnitude, where the multiplication
    of doubles is exact: the base instance and the instance count of a range
    times the indices per instance, or times the vertices per instance when
    there are no indices.  The further factor 4 of an indexed offset is a
    power of two and loses nothing. *)
Definition exactProducts (p : DrawInstanceParameters) (b : MultiDrawBuffer.t) : Prop :=
  forall j : nat,
    (j < Z.to_nat (count b))%nat ->
    Z.abs (readAt (baseInstances b) j
           * (if 0 <? indexPerInstance p then indexPerInstance p
              else vertexPerInstance p)) <= 2 ^ 53
    /\ Z.abs (readAt (instanceCounts b) j
              * (if 0 <? indexPerInstance p then indexPerInstance p
                 else vertexPerInstance p)) <= 2 ^ 53.

End MultiDrawBuffer.

(** ** MultiDrawBuffer.ts, second part: the texture pool *)

Module TexturePool.

(** [Texture] and [TextureSource] are declared outside the sources at hand.
    A pooled texture is named by its [uid]; the store keeps, per uid, the
    fields that the pool assigns.  Sizes given by callers and the resolution
    are rationals; [Math.ceil] and [/] are exact (the rounding of IEEE
    doubles is not represented). *)
Record Texture : Type := {
  pixelWidth : Z;
  pixelHeight : Z;
  antialias : bool;
  hdrFormat : bool;            (* [options.format = 'rgba16float'] *)
  _resolution : Q;
  width : Q;
  height : Q;
  frameWidth : Q;
  frameHeight : Q;
  destroyed : bool
}.

(** The fields of [TexturePoolClass] that [getOptimalTexture] and
    [returnTexture] read or write.  [_screenWidth], [_screenHeight],
    [screenAlign] and [screenPadding] only serve [setScreenSize], and the
    counter behind the labels of created textures is not read by the pool. *)
Record t : Type := {
  _texturePool : gmap Z (list nat);
  _poolKeyHash : gmap nat Z;
  _pixelsWidth : Z;
  _pixelsHeight : Z;
  screenThreshold : Z;
  screenSizeFactor : Q;
  enableFullScreen : bool
}.

(** The pool together with the texture objects it shares with its callers
    and the generator of texture uids. *)
Record World : Type := {
  pool : t;
  textures : gmap nat Texture;
  nextUid : nat
}.

(** [new TexturePoolClass()]. *)
Definition create : t :=
  {| _texturePool := ∅; _poolKeyHash := ∅;
     _pixelsWidth := 0; _pixelsHeight := 0;
     screenThreshold := 512;
     screenSizeFactor := 7 # 5;
     enableFullScreen := false |}.

Definition emptyWorld : World :=
  {| pool := create; textures := ∅; nextUid := 0 |}.

(** Modelled from the spec: [nextPow2] of maths/index.js is not part of the
    sources at hand; a pow2 bucket has its dimensions rounded up to the
    nearest power of two. *)
Definition nextPow2 (v : Z) : Z := 2 ^ Z.log2_up v.

(** [Math.ceil(x / factor)]. *)
Definition ceilDiv (x : Z) (factor : Q) : Z := Qceiling (inject_Z x / factor).

(** [while (width <= Math.ceil(screen / factor)) screen = Math.ceil(screen / factor)]. *)
Fixpoint shrinkScreen (fuel : nat) (factor : Q) (width screen : Z) : option Z :=
  match fuel with
  | O => None
  | S fuel' =>
      if width <=? ceilDiv screen factor
      then shrinkScreen fuel' factor width (ceilDiv screen factor)
      else Some screen
  end.

(** The regime test of [getOptimalTexture]: true when the request is
    bucketed by powers of two. *)
Definition usePow2 (p : t) (ignoreScreen : bool) (width height : Z) : bool :=
  ignoreScreen
  || (width <=? screenThreshold p) || (height <=? screenThreshold p)
  || (width >? _pixelsWidth p) || (height >? _pixelsHeight p).

(** The [if]/[else] of [getOptimalTexture]: the [sign] and the allocated
    [width] and [height]. *)
Definition optimalSize (fuel : nat) (p : t) (ignoreScreen : bool)
    (width height : Z) : option (Z * Z * Z) :=
  if usePow2 p ignoreScreen width height
  then Some (1, nextPow2 width, nextPow2 height)
  else
    screenWidth ← shrinkScreen fuel (screenSizeFactor p) width (_pixelsWidth p);
    screenHeight ← shrinkScreen fuel (screenSizeFactor p) height (_pixelsHeight p);
    Some (-1, screenWidth, screenHeight).

(** [sign * ((width << 16) + (height << 2) + (antialias ? 1 : 0) + (hdr ? 2 : 0))]. *)
Definition bucketKey (sign width height : Z) (aa hdr : bool) : Z :=
  sign * (Js.shl width 16 + Js.shl height 2
          + (if aa then 1 else 0) + (if hdr then 2 else 0)).

(** [createTexture(pixelWidth, pixelHeight, antialias, hdr)]: a new texture
    object under a fresh uid. *)
Definition createTexture (pw ph : Z) (aa hdr : bool) (w : World) : nat * World :=
  let uid := nextUid w in
  (uid,
   {| pool := pool w;
      textures := <[uid := {| pixelWidth := pw; pixelHeight := ph;
                              antialias := aa; hdrFormat := hdr;
                              _resolution := 1;
                              width := inject_Z pw; height := inject_Z ph;
                              frameWidth := inject_Z pw; frameHeight := inject_Z ph;
                              destroyed := false |}]> (textures w);
      nextUid := S uid |}).

(** [this._texturePool[key].pop()], after the bucket was created if missing:
    the texture taken (if any) and the bucket table afterwards. *)
Definition popBucket (key : Z) (tp : gmap Z (list nat)) : option nat * gmap Z (list nat) :=
  let arr := default [] (tp !! key) in
  (last arr, <[key := removelast arr]> tp).

(** The assignments to [texture.source] and [texture.frame]. *)
Definition fitTexture (fw fh resolution : Q) (pw ph : Z) (t0 : Texture) : Texture :=
  {| pixelWidth := pw; pixelHeight := ph;
     antialias := antialias t0; hdrFormat := hdrFormat t0;
     _resolution := resolution;
     width := inject_Z pw / resolution; height := inject_Z ph / resolution;
     frameWidth := fw; frameHeight := fh;
     destroyed := destroyed t0 |}.

(** [Math.ceil((frame * resolution) - 1e-6)]. *)
Definition scaledSize (frame resolution : Q) : Z :=
  Qceiling (frame * resolution - (1 # 1000000)).

(** [getOptimalTexture(frameWidth, frameHeight, resolution, antialias, hdr,
    ignoreScreen)]: the uid of the texture handed out and the new world. *)
Definition getOptimalTexture (fuel : nat) (fw fh resolution : Q)
    (aa hdr ignoreScreen : bool) (w : World) : option (nat * World) :=
  let width0 := scaledSize fw resolution in
  let height0 := scaledSize fh resolution in
  '(sign, width, height) ← optimalSize fuel (pool w) ignoreScreen width0 height0;
  let key := bucketKey sign width height aa hdr in
  let '(popped, tp) := popBucket key (_texturePool (pool w)) in
  let '(uid, w1) :=
    match popped with
    | Some uid => (uid, w)
    | None => createTexture width height aa hdr w
    end in
  Some (uid,
        {| pool := {| _texturePool := tp;
                      _poolKeyHash := <[uid := key]> (_poolKeyHash (pool w));
                      _pixelsWidth := _pixelsWidth (pool w);
                      _pixelsHeight := _pixelsHeight (pool w);
                      screenThreshold := screenThreshold (pool w);
                      screenSizeFactor := screenSizeFactor (pool w);
                      enableFullScreen := enableFullScreen (pool w) |};
           textures := alter (fitTexture fw fh resolution width height) uid (textures w1);
           nextUid := nextUid w1 |}).

Arguments bucketKey : simpl never.
Arguments scaledSize : simpl never.
Arguments fitTexture : simpl never.
Arguments nextPow2 : simpl never.
Arguments ceilDiv : simpl never.

(** [renderTexture.destroy(true)]. *)
Definition destroyTexture (t0 : Texture) : Texture :=
  {| pixelWidth := pixelWidth t0; pixelHeight := pixelHeight t0;
     antialias := antialias t0; hdrFormat := hdrFormat t0;
     _resolution := _resolution t0; width := width t0; height := height t0;
     frameWidth := frameWidth t0; frameHeight := frameHeight t0;
     destroyed := true |}.

(** [returnTexture(renderTexture)]. *)
Definition returnTexture (uid : nat) (w : World) : World :=
  match _poolKeyHash (pool w) !! uid ≫= fun key =>
        (fun arr => (key, arr)) <$> _texturePool (pool w) !! key with
  | Some (key, arr) =>
      {| pool := {| _texturePool := <[key := arr ++ [uid]]> (_texturePool (pool w));
                    _poolKeyHash := _poolKeyHash (pool w);
                    _pixelsWidth := _pixelsWidth (pool w);
                    _pixelsHeight := _pixelsHeight (pool w);
                    screenThreshold := screenThreshold (pool w);
                    screenSizeFactor := screenSizeFactor (pool w);
                    enableFullScreen := enableFullScreen (pool w) |};
         textures := textures w;
         nextUid := nextUid w |}
  | None =>
      {| pool := pool w;
         textures := alter destroyTexture uid (textures w);
         nextUid := nextUid w |}
  end.

(** The world [w] with the tracked surface size set to [pw] by [ph]: what
    [setScreenSize] computes with alignment 1 and no padding, on a pool that
    holds no screen-relative bucket yet. *)
Definition withSurface (pw ph : Z) (w : World) : World :=
  {| pool := {| _texturePool := _texturePool (pool w);
                _poolKeyHash := _poolKeyHash (pool w);
                _pixelsWidth := pw; _pixelsHeight := ph;
                screenThreshold := screenThreshold (pool w);
                screenSizeFactor := screenSizeFactor (pool w);
                enableFullScreen := enableFullScreen (pool w) |};
     textures := textures w; nextUid := nextUid w |}.

(** The world after [getOptimalTexture] served [uid] from the bucket [key],
    leaving [arr'] in it. *)
Definition served (w : World) (key : Z) (uid : nat) (arr' : list nat)
    (txs : gmap nat Texture) (n : nat) : World :=
  {| pool := {| _texturePool := <[key := arr']> (_texturePool (pool w));
                _poolKeyHash := <[uid := key]> (_poolKeyHash (pool w));
                _pixelsWidth := _pixelsWidth (pool w);
                _pixelsHeight := _pixelsHeight (pool w);
                screenThreshold := screenThreshold (pool w);
                screenSizeFactor := screenSizeFactor (pool w);
                enableFullScreen := enableFullScreen (pool w) |};
     textures := txs; nextUid := n |}.

(** Every texture stored in a bucket is a texture of the world that was not
    destroyed. *)
Definition pooledLive (w : World) : Prop :=
  forall key arr u,
    _texturePool (pool w) !! key = Some arr -> u ∈ arr ->
    exists t0, textures w !! u = Some t0 /\ destroyed t0 = false.

(** *** Surface changes and clearing *)

(** The fields of [TexturePoolClass] that only [setScreenSize] reads or
    writes.  The size given by the caller is a rational; [screenAlign] and
    [screenPadding] are whole numbers of pixels. *)
Record Screen : Type := {
  _screenWidth : Q;
  _screenHeight : Q;
  screenAlign : Z;
  screenPadding : Z
}.

(** Field initialisers of the class. *)
Definition newScreen : Screen :=
  {| _screenWidth := 0; _screenHeight := 0; screenAlign := 1; screenPadding := 0 |}.

(** [Math.ceil((x + screenPadding) / screenAlign) * screenAlign]. *)
Definition alignedSize (x : Q) (padding align : Z) : Z :=
  Qceiling ((x + inject_Z padding) / inject_Z align) * align.

(** [textures[j].destroy(true)] for every texture of a bucket. *)
Definition destroyAll (uids : list nat) (txs : gmap nat Texture) : gmap nat Texture :=
  foldl (fun m u => alter destroyTexture u m) txs uids.

(** The textures held in the buckets of a table, bucket after bucket. *)
Definition bucketTextures (tp : gmap Z (list nat)) : list nat :=
  mjoin (map_to_list tp).*2.

(** The buckets with a negative key ([Number(i) < 0]), the screen-relative
    ones, and the others. *)
Definition screenBuckets (tp : gmap Z (list nat)) : gmap Z (list nat) :=
  filter (fun kv => kv.1 < 0) tp.

Definition otherBuckets (tp : gmap Z (list nat)) : gmap Z (list nat) :=
  filter (fun kv => ~ kv.1 < 0) tp.

(** [setScreenSize(size)].  With [screenAlign] 0 the sizes computed are NaN,
    which the integer fields do not represent: [None]. *)
Definition setScreenSize (width height : Q) (sc : Screen) (w : World)
    : option (Screen * World) :=
  if Qeq_bool width (_screenWidth sc) && Qeq_bool height (_screenHeight sc)
  then Some (sc, w)
  else if decide (screenAlign sc = 0) then None
  else
    let drop := bool_decide (0 < _pixelsWidth (pool w)) in
    Some ({| _screenWidth := width; _screenHeight := height;
             screenAlign := screenAlign sc; screenPadding := screenPadding sc |},
          {| pool := {| _texturePool :=
                          if drop then otherBuckets (_texturePool (pool w))
                          else _texturePool (pool w);
                        _poolKeyHash := _poolKeyHash (pool w);
                        _pixelsWidth :=
                          alignedSize width (screenPadding sc) (screenAlign sc);
                        _pixelsHeight :=
                          alignedSize height (screenPadding sc) (screenAlign sc);
                        screenThreshold := screenThreshold (pool w);
                        screenSizeFactor := screenSizeFactor (pool w);
                        enableFullScreen := enableFullScreen (pool w) |};
             textures :=
               if drop
               then destroyAll (bucketTextures (screenBuckets (_texturePool (pool w))))
                               (textures w)
               else textures w;
             nextUid := nextUid w |}).

(** [clear(destroyTextures?)]; [None] is an omitted argument. *)
Definition clear (destroyTextures : option bool) (w : World) : World :=
  {| pool := {| _texturePool := ∅;
                _poolKeyHash := _poolKeyHash (pool w);
                _pixelsWidth := _pixelsWidth (pool w);
                _pixelsHeight := _pixelsHeight (pool w);
                screenThreshold := screenThreshold (pool w);
                screenSizeFactor := screenSizeFactor (pool w);
                enableFullScreen := enableFullScreen (pool w) |};
     textures :=
       if bool_decide (destroyTextures = Some false) then textures w
       else destroyAll (bucketTextures (_texturePool (pool w))) (textures w);
     nextUid := nextUid w |}.

End TexturePool.

(** ** Shader programs and geometries, as the caching engine reads them *)

Module GpuProgram.

Inductive BufferBindingType : Type := uniform | storage | read_only_storage.

#[global] Instance BufferBindingType_eq_dec : EqDecision BufferBindingType.
Proof. solve_decision. Defined.

(** One entry of a bind-group layout ([bgle]): the slot it reads, whether it
    has a [storageTexture] member, and its [buffer] member with its type. *)
Record LayoutEntry : Type := {
  binding : Z;
  storageTexture : bool;
  buffer : option BufferBindingType
}.

(** The layout keys are assigned by an id generator ([createIdFromString])
    that lies outside the sources at hand and are memoized on the object;
    they are taken as already assigned. *)
Record t : Type := {
  _layoutKey : Z;
  _attributeLocationsKey : Z;
  attributeData : list (string * Z);        (* attribute name, location *)
  gpuLayout : list (list LayoutEntry)       (* indexed by group *)
}.

End GpuProgram.

Module Geometry.

(** As for programs, [_layoutKey] is the key that [ensureGeometryLayoutKey]
    leaves on the geometry; the generator behind it lies outside the sources
    at hand. *)
Inductive Topology : Type :=
| point_list | line_list | line_strip | triangle_list | triangle_strip.

#[global] Instance Topology_eq_dec : EqDecision Topology.
Proof. solve_decision. Defined.

Record Buffer : Type := {
  uid : nat;
  BYTES_PER_ELEMENT : Z        (* of [buffer.data] *)
}.

Record Attribute : Type := {
  buffer_index : Z;
  offset : Z;
  stride : Z;
  instance : bool
}.

Record t : Type := {
  _layoutKey : Z;
  topology : Topology;
  buffers : list Buffer;
  indexBuffer : option Buffer;
  attributes : list (string * Attribute);
  instanceCount : Z;
  instanced : bool;
  drawSize : Z                 (* [getDrawSize()] *)
}.

End Geometry.

(** ** GpuTextureSystem.ts, second part: bind groups *)

Module BindGroup.

(** A [BindResource], as far as a bind group reads it.  Modelled from the
    spec: the event emitter that resources extend is not part of the sources
    at hand; [listeners] are the bind groups subscribed to ['change'], [on]
    adds one and [off] removes it. *)
Record Resource : Type := {
  _resourceId : Z;
  destroyed : bool;
  listeners : list nat
}.

Record GroupProgPair : Type := {
  dirtyId : Z;
  key : string
}.

Record t : Type := {
  resources : gmap Z Js.ref;
  _keys : gmap Z GroupProgPair;
  _updateID : Z;
  _lastLayout : Z
}.

(** Field initialisers of the class. *)
Definition create : t :=
  {| resources := ∅; _keys := ∅; _updateID := -1; _lastLayout := -1 |}.

(** [new GroupProgPair()]. *)
Definition newPair : GroupProgPair := {| dirtyId := -1; key := EmptyString |}.

(** The outcome of a call that may throw: the state is kept in both cases. *)
Inductive outcome (S A : Type) : Type :=
| Ok (a : A) (s : S)
| Throw (s : S).
Arguments Ok {S A} a s.
Arguments Throw {S A} s.

(** [parts.join(sep)]. *)
Fixpoint join (sep : string) (parts : list string) : string :=
  match parts with
  | [] => EmptyString
  | [p] => p
  | p :: rest => p +:+ sep +:+ join sep rest
  end.

(** [bgle.storageTexture || (bgle.buffer && bgle.buffer.type !== 'uniform')]. *)
Definition isStorage (e : GpuProgram.LayoutEntry) : bool :=
  GpuProgram.storageTexture e
  || match GpuProgram.buffer e with
     | Some ty => bool_decide (ty ≠ GpuProgram.uniform)
     | None => false
     end.

(** [this.resources[binding]._resourceId.toString()]; reading the field of
    [undefined] or [null] is a TypeError ([None]). *)
Definition resourceIdString (rs : gmap nat Resource) (bg : t) (binding : Z) : option string :=
  match default Js.undefined (resources bg !! binding) with
  | Js.obj r => (fun res => pretty (_resourceId res)) <$> rs !! r
  | _ => None
  end.

(** The [for] loop of [getGpuKey] over the layout entries: it pushes onto the
    module-level array [keyParts] and stops where a read throws. *)
Fixpoint pushParts (rs : gmap nat Resource) (bg : t)
    (layout : list GpuProgram.LayoutEntry) (hasStorage : bool)
    (keyParts : list string) : outcome (list string) bool :=
  match layout with
  | [] => Ok hasStorage keyParts
  | bgle :: rest =>
      match resourceIdString rs bg (GpuProgram.binding bgle) with
      | Some s => pushParts rs bg rest (hasStorage || isStorage bgle) (keyParts ++ [s])
      | None => Throw keyParts
      end
  end.

(** The record of the program in [_keys], made if absent. *)
Definition pairOf (prog : GpuProgram.t) (bg : t) : GroupProgPair :=
  default newPair (_keys bg !! GpuProgram._layoutKey prog).

Definition setPair (prog : GpuProgram.t) (rec : GroupProgPair) (bg : t) : t :=
  {| resources := resources bg;
     _keys := <[GpuProgram._layoutKey prog := rec]> (_keys bg);
     _updateID := _updateID bg;
     _lastLayout := _lastLayout bg |}.

(** The part of [getGpuKey] after the memo test: the key is computed from
    the resources bound now and stored in the record of the program. *)
Definition recomputeKey (prog : GpuProgram.t) (group : nat) (rs : gmap nat Resource)
    (keyParts : list string) (bg : t) : outcome (list string * t) string :=
  match GpuProgram.gpuLayout prog !! group with
  | None => Throw (keyParts, bg)
  | Some layout =>
      match pushParts rs bg layout false keyParts with
      | Throw parts => Throw (parts, bg)
      | Ok hasStorage parts =>
          let parts' :=
            if hasStorage
            then parts ++ ["~" +:+ pretty (GpuProgram._layoutKey prog)]
            else parts in
          let k := join "|" parts' in
          Ok k ([], setPair prog {| dirtyId := _updateID bg; key := k |} bg)
      end
  end.

(** [getGpuKey(prog, group)].  The state is the module-level [keyParts] and
    the bind group. *)
Definition getGpuKey (prog : GpuProgram.t) (group : nat) (rs : gmap nat Resource)
    (keyParts : list string) (bg : t) : outcome (list string * t) string :=
  let rec := pairOf prog bg in
  let bg1 := setPair prog rec bg in
  if bool_decide (dirtyId rec = _updateID bg) then Ok (key rec) (keyParts, bg1)
  else recomputeKey prog group rs keyParts bg1.

(** [resource.off('change', ...)] and [resource.on('change', ...)] for the
    group [self]. *)
Definition off (self : nat) (r : Resource) : Resource :=
  {| _resourceId := _resourceId r; destroyed := destroyed r;
     listeners := filter (fun g => g ≠ self) (listeners r) |}.

Definition on (self : nat) (r : Resource) : Resource :=
  {| _resourceId := _resourceId r; destroyed := destroyed r;
     listeners := listeners r ++ [self] |}.

(** [setResource(resource, index)] on the group [self]. *)
Definition setResource (self : nat) (resource : nat) (index : Z)
    (rs : gmap nat Resource) (bg : t) : gmap nat Resource * t :=
  let currentResource := default Js.undefined (resources bg !! index) in
  if decide (Js.obj resource = currentResource) then (rs, bg)
  else
    let rs1 :=
      match currentResource with
      | Js.obj old => alter (off self) old rs
      | _ => rs
      end in
    (alter (on self) resource rs1,
     {| resources := <[index := Js.obj resource]> (resources bg);
        _keys := _keys bg;
        _updateID := _updateID bg + 1;
        _lastLayout := -1 |}).

(** [onResourceChange(resource)]. *)
Definition onResourceChange (resource : nat) (rs : gmap nat Resource) (bg : t) : t :=
  {| resources :=
       if default false (destroyed <$> rs !! resource)
       then (fun r => if decide (r = Js.obj resource) then Js.null else r) <$> resources bg
       else resources bg;
     _keys := _keys bg;
     _updateID := _updateID bg + 1;
     _lastLayout := _lastLayout bg |}.

(** No record of [_keys] is ahead of the revision counter, which starts at
    -1 and is only incremented. *)
Definition keysFresh (bg : t) : Prop :=
  -1 <= _updateID bg
  /\ forall k rec, _keys bg !! k = Some rec -> dirtyId rec <= _updateID bg.

(** *** Construction *)

(** The loop of the constructor from the index [index] on:
    [this.setResource(resources[i], index++)] for every entry of the
    argument, whose property names are not read. *)
Fixpoint constructFrom (self : nat) (index : Z) (entries : list (string * nat))
    (rs : gmap nat Resource) (bg : t) : gmap nat Resource * t :=
  match entries with
  | [] => (rs, bg)
  | (_, resource) :: rest =>
      let '(rs1, bg1) := setResource self resource index rs bg in
      constructFrom self (index + 1) rest rs1 bg1
  end.

(** [new BindGroup(resources)]. *)
Definition construct (self : nat) (entries : list (string * nat))
    (rs : gmap nat Resource) : gmap nat Resource * t :=
  constructFrom self 0 entries rs create.

(** The identity strings that the loop of [getGpuKey] pushes for a layout
    whose slots all hold a resource. *)
Definition layoutParts (rs : gmap nat Resource) (bg : t)
    (layout : list GpuProgram.LayoutEntry) : option (list string) :=
  mapM (fun bgle => resourceIdString rs bg (GpuProgram.binding bgle)) layout.

End BindGroup.

(** ** PipelineSystem.ts: the pipeline cache *)

Module PipelineSystem.

(** [State], as far as the draw key reads it. *)
Record State : Type := {
  customId : Z;
  data : Z;
  _blendModeId : Z
}.

Definition topologyStringToId (t : Geometry.Topology) : Z :=
  match t with
  | Geometry.point_list => 0
  | Geometry.line_list => 1
  | Geometry.line_strip => 2
  | Geometry.triangle_list => 3
  | Geometry.triangle_strip => 4
  end.

Definition getProgKey (geometryLayout shaderKey topology : Z) : Z :=
  Js.bor (Js.bor (Js.shl geometryLayout 13) (Js.shl shaderKey 3)) topology.

Definition getGraphicsStateKey (customId depthCompareKey state blendMode : Z) : Z :=
  Js.bor (Js.bor (Js.bor (Js.shl customId 15) (Js.shl depthCompareKey 12))
                 (Js.shl state 5))
         blendMode.

Definition getGlobalStateKey
    (stencilStateId multiSampleCount colorMask renderTarget hdr : Z) : Z :=
  let stencilStateId := if Js.band renderTarget 1 =? 0 then 0 else stencilStateId in
  Js.bor (Js.bor (Js.bor (Js.bor (Js.shl colorMask 8) (Js.shl stencilStateId 5))
                         (Js.shl renderTarget 3))
                 (Js.shl hdr 1))
         multiSampleCount.

Arguments getProgKey : simpl never.
Arguments getGraphicsStateKey : simpl never.
Arguments getGlobalStateKey : simpl never.

Record VertexBufferLayout : Type := {
  arrayStride : Z;
  stepInstance : bool;                 (* [stepMode === 'instance'] *)
  vattributes : list (Z * Z)           (* shaderLocation, offset *)
}.

Inductive DepthFormat : Type := depth32float | depth24plus_stencil8.

(** The part of the pipeline descriptor that [_createPipeline] computes from
    the geometry, the program and the fields of the system.  Blend targets,
    cull mode, shader modules and the stencil table come from collaborators
    outside the sources at hand and are left out. *)
Record Descriptor : Type := {
  d_buffers : list VertexBufferLayout;
  d_topology : Geometry.Topology;
  d_multisample : Z;
  d_depthStencil : option DepthFormat
}.

(** The fields of the system.  [Object.create(null)] tables are objects of
    two stores: [pipeHashes] holds the [PipeHash] objects (draw key to
    pipeline), [pipeTables] the tables from program key to [PipeHash].
    [_pipeCache], [_pipeRT] and the entries of [_pipeStateCaches] are
    references to them.  [device] lists the [createRenderPipeline] calls made
    so far; the pipeline returned by a call is named by its position. *)
Record t : Type := {
  _bufferLayoutsCache : gmap Z (list VertexBufferLayout);
  _bindingNamesCache : gmap Z (list nat);
  pipeHashes : gmap nat (gmap Z nat);
  pipeTables : gmap nat (gmap Z nat);
  nextObject : nat;
  _pipeCache : nat;
  _prevProgKey : Z;
  _prevPipeKey : Z;
  _pipeRT : nat;
  _pipeStateCaches : gmap Z nat;
  _depthCompareKey : Z;
  _stencilMode : option Z;
  _colorMask : Z;
  _multisampleCount : Z;
  _depthStencilAttachment : Z;
  _hdr : option Z;
  device : list Descriptor
}.

(** Field initialisers: two fresh tables, no partition yet.  Until
    [contextChange] supplies the device, [_createPipeline] cannot build
    ([this._gpu] is [undefined]); the properties below are stated for the
    states from [contextChange] on. *)
Definition create : t :=
  {| _bufferLayoutsCache := ∅; _bindingNamesCache := ∅;
     pipeHashes := {[ 0%nat := ∅ ]}; pipeTables := {[ 1%nat := ∅ ]};
     nextObject := 2;
     _pipeCache := 0; _prevProgKey := -1; _prevPipeKey := -1; _pipeRT := 1;
     _pipeStateCaches := ∅;
     _depthCompareKey := 0; _stencilMode := None; _colorMask := 15;
     _multisampleCount := 1; _depthStencilAttachment := 0; _hdr := None;
     device := [] |}.

(** A number operand that may be [undefined]: bit operators read 0. *)
Definition num (o : option Z) : Z := default 0 o.

(** The global fields, as one update. *)
Definition withGlobals (stencil : option Z) (mask msaa dsa : Z) (hdr : option Z)
    (s : t) : t :=
  {| _bufferLayoutsCache := _bufferLayoutsCache s;
     _bindingNamesCache := _bindingNamesCache s;
     pipeHashes := pipeHashes s; pipeTables := pipeTables s;
     nextObject := nextObject s;
     _pipeCache := _pipeCache s; _prevProgKey := _prevProgKey s;
     _prevPipeKey := _prevPipeKey s; _pipeRT := _pipeRT s;
     _pipeStateCaches := _pipeStateCaches s;
     _depthCompareKey := _depthCompareKey s;
     _stencilMode := stencil; _colorMask := mask; _multisampleCount := msaa;
     _depthStencilAttachment := dsa; _hdr := hdr;
     device := device s |}.

(** The key that [_updatePipeHash] computes from the global fields. *)
Definition globalKey (s : t) : Z :=
  getGlobalStateKey (num (_stencilMode s)) (_multisampleCount s)
    (_colorMask s) (_depthStencilAttachment s) (num (_hdr s)).

(** [_updatePipeHash()]. *)
Definition _updatePipeHash (s : t) : t :=
  let key := globalKey s in
  if decide (_prevPipeKey s = key) then s
  else
    let '(rt, tables, caches, next) :=
      match _pipeStateCaches s !! key with
      | Some rt => (rt, pipeTables s, _pipeStateCaches s, nextObject s)
      | None =>
          (nextObject s, <[nextObject s := ∅]> (pipeTables s),
           <[key := nextObject s]> (_pipeStateCaches s), S (nextObject s))
      end in
    {| _bufferLayoutsCache := _bufferLayoutsCache s;
       _bindingNamesCache := _bindingNamesCache s;
       pipeHashes := pipeHashes s; pipeTables := tables;
       nextObject := next;
       _pipeCache := _pipeCache s; _prevProgKey := -1;
       _prevPipeKey := key; _pipeRT := rt;
       _pipeStateCaches := caches;
       _depthCompareKey := _depthCompareKey s;
       _stencilMode := _stencilMode s; _colorMask := _colorMask s;
       _multisampleCount := _multisampleCount s;
       _depthStencilAttachment := _depthStencilAttachment s; _hdr := _hdr s;
       device := device s |}.

Definition setMultisampleCount (multisampleCount : Z) (s : t) : t :=
  if decide (_multisampleCount s = multisampleCount) then s
  else _updatePipeHash
         (withGlobals (_stencilMode s) (_colorMask s) multisampleCount
                      (_depthStencilAttachment s) (_hdr s) s).

(** A render target, as [setRenderTarget] reads it: [msaaSamples], whether
    the descriptor has a [depthStencilAttachment] and whether that has a
    [stencilLoadOp], and [hdr]. *)
Record GpuRenderTarget : Type := {
  msaaSamples : Z;
  depthStencilAttachment : option bool;
  hdr : Z
}.

Definition setRenderTarget (renderTarget : GpuRenderTarget) (s : t) : t :=
  _updatePipeHash
    (withGlobals (_stencilMode s) (_colorMask s) (msaaSamples renderTarget)
       (match depthStencilAttachment renderTarget with
        | Some stencilLoadOp => Js.bor 1 (if stencilLoadOp then 2 else 0)
        | None => 0
        end)
       (Some (hdr renderTarget)) s).

Definition setColorMask (colorMask : Z) (s : t) : t :=
  if decide (_colorMask s = colorMask) then s
  else _updatePipeHash
         (withGlobals (_stencilMode s) colorMask (_multisampleCount s)
                      (_depthStencilAttachment s) (_hdr s) s).

Definition setDepthCompareKey (depthCompareKey : Z) (s : t) : t :=
  {| _bufferLayoutsCache := _bufferLayoutsCache s;
     _bindingNamesCache := _bindingNamesCache s;
     pipeHashes := pipeHashes s; pipeTables := pipeTables s;
     nextObject := nextObject s;
     _pipeCache := _pipeCache s; _prevProgKey := _prevProgKey s;
     _prevPipeKey := _prevPipeKey s; _pipeRT := _pipeRT s;
     _pipeStateCaches := _pipeStateCaches s;
     _depthCompareKey := depthCompareKey;
     _stencilMode := _stencilMode s; _colorMask := _colorMask s;
     _multisampleCount := _multisampleCount s;
     _depthStencilAttachment := _depthStencilAttachment s; _hdr := _hdr s;
     device := device s |}.

Definition setStencilMode (stencilMode : Z) (s : t) : t :=
  if decide (_stencilMode s = Some stencilMode) then s
  else _updatePipeHash
         (withGlobals (Some stencilMode) (_colorMask s) (_multisampleCount s)
                      (_depthStencilAttachment s) (_hdr s) s).

(** [contextChange(gpu)]; [DISABLED] is the value of
    [STENCIL_MODES.DISABLED], an enumeration declared outside the sources at
    hand. *)
Definition contextChange (DISABLED : Z) (s : t) : t :=
  _updatePipeHash (setStencilMode DISABLED s).

(** [program.attributeData[name]] and the like: the entry of a name. *)
Fixpoint assoc {A : Type} (name : string) (l : list (string * A)) : option A :=
  match l with
  | [] => None
  | (n, a) :: rest => if decide (n = name) then Some a else assoc name rest
  end.

(** The inner loop of [_createVertexBufferLayouts] over the attributes of
    the geometry, for the buffer [i]. *)
Fixpoint bufferEntry (i : nat) (program : GpuProgram.t)
    (attrs : list (string * Geometry.Attribute))
    (entry : VertexBufferLayout) : VertexBufferLayout :=
  match attrs with
  | [] => entry
  | (j, attribute) :: rest =>
      if decide (Geometry.buffer_index attribute = Z.of_nat i)
      then
        match assoc j (GpuProgram.attributeData program) with
        | Some location =>
            bufferEntry i program rest
              {| arrayStride := Geometry.stride attribute;
                 stepInstance := Geometry.instance attribute;
                 vattributes := vattributes entry
                                ++ [(location, Geometry.offset attribute)] |}
        | None => bufferEntry i program rest entry
        end
      else bufferEntry i program rest entry
  end.

(** The outer loop: the layouts and the indices of the buffers that have
    one. *)
Definition vertexBufferLayouts (geometry : Geometry.t) (program : GpuProgram.t)
    : list VertexBufferLayout * list nat :=
  foldl (fun '(layouts, indices) i =>
           let entry := bufferEntry i program (Geometry.attributes geometry)
                          {| arrayStride := 0; stepInstance := false;
                             vattributes := [] |} in
           match vattributes entry with
           | [] => (layouts, indices)
           | _ :: _ => (layouts ++ [entry], indices ++ [i])
           end)
        ([], []) (seq 0 (length (Geometry.buffers geometry))).

Definition layoutsKey (geometry : Geometry.t) (program : GpuProgram.t) : Z :=
  Js.bor (Js.shl (Geometry._layoutKey geometry) 16)
         (GpuProgram._attributeLocationsKey program).

Definition withLayoutCaches (lc : gmap Z (list VertexBufferLayout))
    (nc : gmap Z (list nat)) (s : t) : t :=
  {| _bufferLayoutsCache := lc; _bindingNamesCache := nc;
     pipeHashes := pipeHashes s; pipeTables := pipeTables s;
     nextObject := nextObject s;
     _pipeCache := _pipeCache s; _prevProgKey := _prevProgKey s;
     _prevPipeKey := _prevPipeKey s; _pipeRT := _pipeRT s;
     _pipeStateCaches := _pipeStateCaches s;
     _depthCompareKey := _depthCompareKey s;
     _stencilMode := _stencilMode s; _colorMask := _colorMask s;
     _multisampleCount := _multisampleCount s;
     _depthStencilAttachment := _depthStencilAttachment s; _hdr := _hdr s;
     device := device s |}.

(** [_createVertexBufferLayouts(geometry, program)]. *)
Definition _createVertexBufferLayouts (geometry : Geometry.t)
    (program : GpuProgram.t) (s : t) : list VertexBufferLayout * t :=
  let key := layoutsKey geometry program in
  match _bufferLayoutsCache s !! key with
  | Some layouts => (layouts, s)
  | None =>
      let '(layouts, indices) := vertexBufferLayouts geometry program in
      (layouts,
       withLayoutCaches (<[key := layouts]> (_bufferLayoutsCache s))
                        (<[key := indices]> (_bindingNamesCache s)) s)
  end.

(** [getBufferNamesToBind(geometry, program)]; [None] is [undefined]. *)
Definition getBufferNamesToBind (geometry : Geometry.t) (program : GpuProgram.t)
    (s : t) : option (list nat) * t :=
  let key := layoutsKey geometry program in
  match _bindingNamesCache s !! key with
  | Some names => (Some names, s)
  | None =>
      let s1 := (_createVertexBufferLayouts geometry program s).2 in
      (_bindingNamesCache s1 !! key, s1)
  end.

(** The tables and the creation log, as one update. *)
Definition withTables (hashes tables : gmap nat (gmap Z nat)) (next cache : nat)
    (prevProgKey : Z) (dev : list Descriptor) (s : t) : t :=
  {| _bufferLayoutsCache := _bufferLayoutsCache s;
     _bindingNamesCache := _bindingNamesCache s;
     pipeHashes := hashes; pipeTables := tables;
     nextObject := next;
     _pipeCache := cache; _prevProgKey := prevProgKey;
     _prevPipeKey := _prevPipeKey s; _pipeRT := _pipeRT s;
     _pipeStateCaches := _pipeStateCaches s;
     _depthCompareKey := _depthCompareKey s;
     _stencilMode := _stencilMode s; _colorMask := _colorMask s;
     _multisampleCount := _multisampleCount s;
     _depthStencilAttachment := _depthStencilAttachment s; _hdr := _hdr s;
     device := dev |}.

(** [_createPipeline(geometry, program, state, topology)]: the descriptor is
    handed to [device.createRenderPipeline], which returns a new pipeline. *)
Definition _createPipeline (geometry : Geometry.t) (program : GpuProgram.t)
    (topology : Geometry.Topology) (s : t) : nat * t :=
  let '(buffers, s1) := _createVertexBufferLayouts geometry program s in
  let descriptor :=
    {| d_buffers := buffers;
       d_topology := topology;
       d_multisample := _multisampleCount s1;
       d_depthStencil :=
         if decide (_depthStencilAttachment s1 = 0) then None
         else if decide (_depthStencilAttachment s1 = 1) then Some depth32float
         else Some depth24plus_stencil8 |} in
  (length (device s1),
   withTables (pipeHashes s1) (pipeTables s1) (nextObject s1) (_pipeCache s1)
              (_prevProgKey s1) (device s1 ++ [descriptor]) s1).

(** The table a reference points at. *)
Definition deref (heap : gmap nat (gmap Z nat)) (l : nat) : gmap Z nat :=
  default ∅ (heap !! l).

(** The first half of [getPipeline]: select the sub-cache of the program
    key, unless the key is the previous one. *)
Definition selectPipeCache (progKey : Z) (s : t) : t :=
  if decide (_prevProgKey s = progKey) then s
  else
    match deref (pipeTables s) (_pipeRT s) !! progKey with
    | Some cache =>
        withTables (pipeHashes s) (pipeTables s) (nextObject s) cache progKey
                   (device s) s
    | None =>
        withTables (<[nextObject s := ∅]> (pipeHashes s))
                   (<[_pipeRT s := <[progKey := nextObject s]>
                                     (deref (pipeTables s) (_pipeRT s))]>
                      (pipeTables s))
                   (S (nextObject s)) (nextObject s) progKey (device s) s
    end.

(** The draw key of [getPipeline]. *)
Definition drawKey (state : State) (s : t) : Z :=
  let depthCompareKey :=
    if decide (Js.band (_depthStencilAttachment s) 1 = 0) then 0
    else _depthCompareKey s in
  getGraphicsStateKey (customId state) depthCompareKey (data state)
                      (_blendModeId state).

(** [getPipeline(geometry, program, state, topology?)]. *)
Definition getPipeline (geometry : Geometry.t) (program : GpuProgram.t)
    (state : State) (topology : option Geometry.Topology) (s : t) : nat * t :=
  let topology := default (Geometry.topology geometry) topology in
  let progKey := getProgKey (Geometry._layoutKey geometry)
                   (GpuProgram._layoutKey program) (topologyStringToId topology) in
  let s1 := selectPipeCache progKey s in
  let key := drawKey state s1 in
  match deref (pipeHashes s1) (_pipeCache s1) !! key with
  | Some pipeline => (pipeline, s1)
  | None =>
      let '(pipeline, s2) := _createPipeline geometry program topology s1 in
      (pipeline,
       withTables (<[_pipeCache s2 := <[key := pipeline]>
                                        (deref (pipeHashes s2) (_pipeCache s2))]>
                     (pipeHashes s2))
                  (pipeTables s2) (nextObject s2) (_pipeCache s2)
                  (_prevProgKey s2) (device s2) s2)
  end.

(** The program key of a call of [getPipeline]. *)
Definition progKeyOf (geometry : Geometry.t) (program : GpuProgram.t)
    (topology : option Geometry.Topology) : Z :=
  getProgKey (Geometry._layoutKey geometry) (GpuProgram._layoutKey program)
    (topologyStringToId (default (Geometry.topology geometry) topology)).

(** The public operations of the system, and runs of them. *)
Inductive op : Type :=
| SetMultisampleCount (multisampleCount : Z)
| SetRenderTarget (renderTarget : GpuRenderTarget)
| SetColorMask (colorMask : Z)
| SetDepthCompareKey (depthCompareKey : Z)
| SetStencilMode (stencilMode : Z)
| GetPipeline (geometry : Geometry.t) (program : GpuProgram.t) (state : State)
              (topology : option Geometry.Topology)
| GetBufferNamesToBind (geometry : Geometry.t) (program : GpuProgram.t).

Definition step (s : t) (o : op) : t :=
  match o with
  | SetMultisampleCount n => setMultisampleCount n s
  | SetRenderTarget rt => setRenderTarget rt s
  | SetColorMask m => setColorMask m s
  | SetDepthCompareKey k => setDepthCompareKey k s
  | SetStencilMode m => setStencilMode m s
  | GetPipeline g prog st topo => (getPipeline g prog st topo s).2
  | GetBufferNamesToBind g prog => (getBufferNamesToBind g prog s).2
  end.

Definition run (ops : list op) (s : t) : t := foldl step s ops.

(** The pipeline [p] is stored for the draw key [k] in the sub-cache of the
    program key [pk] of the partition of the global key [g]. *)
Definition cached (s : t) (g pk k : Z) (p : nat) : Prop :=
  exists rt c,
    _pipeStateCaches s !! g = Some rt
    /\ deref (pipeTables s) rt !! pk = Some c
    /\ deref (pipeHashes s) c !! k = Some p.

(** [_pipeRT] is the partition of the previous global key. *)
Definition selected (s : t) : Prop :=
  _pipeStateCaches s !! _prevPipeKey s = Some (_pipeRT s).

(** [_pipeCache] is the sub-cache of the previous program key unless that
    was reset, no table lives at an unused address, and the tables refer to
    used addresses only. *)
Definition tablesOk (s : t) : Prop :=
  (_prevProgKey s <> -1 ->
     deref (pipeTables s) (_pipeRT s) !! _prevProgKey s = Some (_pipeCache s))
  /\ (forall l, (nextObject s <= l)%nat ->
        pipeHashes s !! l = None /\ pipeTables s !! l = None)
  /\ (forall g rt, _pipeStateCaches s !! g = Some rt -> (rt < nextObject s)%nat)
  /\ (forall rt pk c, deref (pipeTables s) rt !! pk = Some c ->
        (c < nextObject s)%nat).

(** What holds between calls, from [contextChange] on: the previous global
    key is the key of the global fields, and the tables are as above. *)
Definition inv (s : t) : Prop :=
  _prevPipeKey s = globalKey s /\ selected s /\ tablesOk s.

(** Two states have the same tables and references to them. *)
Definition sameTables (s s' : t) : Prop :=
  pipeHashes s' = pipeHashes s
  /\ pipeTables s' = pipeTables s
  /\ nextObject s' = nextObject s
  /\ _pipeCache s' = _pipeCache s
  /\ _prevProgKey s' = _prevProgKey s
  /\ _prevPipeKey s' = _prevPipeKey s
  /\ _pipeRT s' = _pipeRT s
  /\ _pipeStateCaches s' = _pipeStateCaches s.

(** Two states agree on the global render-target state and on the depth
    compare key. *)
Definition sameGlobalState (s s' : t) : Prop :=
  _stencilMode s' = _stencilMode s
  /\ _colorMask s' = _colorMask s
  /\ _multisampleCount s' = _multisampleCount s
  /\ _depthStencilAttachment s' = _depthStencilAttachment s
  /\ _hdr s' = _hdr s
  /\ _depthCompareKey s' = _depthCompareKey s.

(** *** What the caches hold *)

(** The attributes that buffer [i] feeds and the program declares, in the
    order of the geometry: shader location and offset. *)
Definition boundAttributes (i : nat) (program : GpuProgram.t)
    (attrs : list (string * Geometry.Attribute)) : list (Z * Z) :=
  omap (fun '(j, attribute) =>
          if decide (Geometry.buffer_index attribute = Z.of_nat i)
          then (fun location => (location, Geometry.offset attribute))
                 <$> assoc j (GpuProgram.attributeData program)
          else None)
       attrs.

(** Every pipeline stored in the sub-cache of a program key was created
    with the topology that the three low bits of the key name, and no
    sub-cache serves two program keys. *)
Definition topologyOk (s : t) : Prop :=
  (forall rt pk c k p,
     deref (pipeTables s) rt !! pk = Some c ->
     deref (pipeHashes s) c !! k = Some p ->
     exists d, device s !! p = Some d
               /\ topologyStringToId (d_topology d) = Z.land pk 7)
  /\ (forall rt pk rt' pk' c,
        deref (pipeTables s) rt !! pk = Some c ->
        deref (pipeTables s) rt' !! pk' = Some c -> pk = pk').

(** Every key of the layout cache is a key of the binding-names cache. *)
Definition cachesAligned (s : t) : Prop :=
  forall key, is_Some (_bufferLayoutsCache s !! key) ->
              is_Some (_bindingNamesCache s !! key).

End PipelineSystem.

(** ** The command encoder *)

Module GpuEncoderSystem.

Inductive IndexFormat : Type := uint16 | uint32.

(** The calls recorded on a pass encoder.  [updateBuffer] and [getBindGroup]
    belong to systems outside the sources at hand: the GPU buffer of a call
    is named by the buffer it was asked for, the GPU bind group by the group
    and the layout key of the program it was resolved for. *)
Inductive Command : Type :=
| setPipelineCmd (pipeline : nat)
| setVertexBufferCmd (slot : Z) (buffer : Js.ref)
| setIndexBufferCmd (buffer : nat) (format : IndexFormat)
| setBindGroupCmd (index : Z) (group : nat) (layoutKey : Z)
| drawCmd (vertexCount instanceCount firstVertex firstInstance : Z)
| drawIndexedCmd (indexCount instanceCount firstIndex baseVertex firstInstance : Z).

(** Whether a call binds or sets state (every call but the two draws). *)
Definition isBinding (c : Command) : bool :=
  match c with
  | drawCmd _ _ _ _ | drawIndexedCmd _ _ _ _ _ => false
  | _ => true
  end.

(** The fields of the encoder.  A pass encoder is the list of the calls
    recorded on it so far; [ended] keeps the passes that were ended. *)
Record t : Type := {
  renderPassEncoder : option (list Command);
  computePassEncoder : option (list Command);
  ended : list (list Command);
  _boundBindGroup : gmap Z Js.ref;
  _boundVertexBuffer : gmap Z Js.ref;
  _boundIndexBuffer : Js.ref;
  _boundPipeline : Js.ref;
  _boundCompute : Z
}.

Definition create : t :=
  {| renderPassEncoder := None; computePassEncoder := None; ended := [];
     _boundBindGroup := ∅; _boundVertexBuffer := ∅;
     _boundIndexBuffer := Js.undefined; _boundPipeline := Js.undefined;
     _boundCompute := -1 |}.

(** The renderer: the pipeline system, the bind groups that shaders share,
    and the encoder. *)
Record Renderer : Type := {
  pipeline : PipelineSystem.t;
  bindGroups : gmap nat BindGroup.t;
  encoder : t
}.

Record Shader : Type := {
  gpuProgram : GpuProgram.t;
  groups : list (Z * nat)          (* [shader.groups], in iteration order *)
}.

(** The options of [draw]; an absent number is 0, which [||] treats alike. *)
Record DrawOptions : Type := {
  geometry : Geometry.t;
  shader : Shader;
  state : PipelineSystem.State;
  topology : option Geometry.Topology;
  size : Z;
  start : Z;
  instanceCount : Z;
  baseInstance : Z;
  skipSync : bool
}.

(** [endCurrentPass()]. *)
Definition endCurrentPass (e : t) : t :=
  {| renderPassEncoder := None; computePassEncoder := None;
     ended := ended e ++ option_list (renderPassEncoder e)
                      ++ option_list (computePassEncoder e);
     _boundBindGroup := _boundBindGroup e;
     _boundVertexBuffer := _boundVertexBuffer e;
     _boundIndexBuffer := _boundIndexBuffer e;
     _boundPipeline := _boundPipeline e;
     _boundCompute := _boundCompute e |}.

(** [_clearCache()]. *)
Definition _clearCache (e : t) : t :=
  {| renderPassEncoder := renderPassEncoder e;
     computePassEncoder := computePassEncoder e;
     ended := ended e;
     _boundBindGroup :=
       foldl (fun m i => <[i := Js.null]> m) (_boundBindGroup e) (seqZ 0 16);
     _boundVertexBuffer :=
       foldl (fun m i => <[i := Js.null]> m) (_boundVertexBuffer e) (seqZ 0 16);
     _boundIndexBuffer := Js.null;
     _boundPipeline := Js.null;
     _boundCompute := -1 |}.

(** [beginRenderPass(gpuRenderTarget)]. *)
Definition beginRenderPass (e : t) : t :=
  let e1 := _clearCache (endCurrentPass e) in
  {| renderPassEncoder := Some [];
     computePassEncoder := computePassEncoder e1;
     ended := ended e1;
     _boundBindGroup := _boundBindGroup e1;
     _boundVertexBuffer := _boundVertexBuffer e1;
     _boundIndexBuffer := _boundIndexBuffer e1;
     _boundPipeline := _boundPipeline e1;
     _boundCompute := _boundCompute e1 |}.

(** A call on [this.renderPassEncoder]; without an open render pass it is a
    TypeError ([None]). *)
Definition onRenderPass (c : Command) (e : t) : option t :=
  calls ← renderPassEncoder e;
  Some {| renderPassEncoder := Some (calls ++ [c]);
          computePassEncoder := computePassEncoder e;
          ended := ended e;
          _boundBindGroup := _boundBindGroup e;
          _boundVertexBuffer := _boundVertexBuffer e;
          _boundIndexBuffer := _boundIndexBuffer e;
          _boundPipeline := _boundPipeline e;
          _boundCompute := _boundCompute e |}.

(** A call on [(this.renderPassEncoder || this.computePassEncoder)]. *)
Definition onEitherPass (c : Command) (e : t) : option t :=
  match renderPassEncoder e with
  | Some _ => onRenderPass c e
  | None =>
      calls ← computePassEncoder e;
      Some {| renderPassEncoder := None;
              computePassEncoder := Some (calls ++ [c]);
              ended := ended e;
              _boundBindGroup := _boundBindGroup e;
              _boundVertexBuffer := _boundVertexBuffer e;
              _boundIndexBuffer := _boundIndexBuffer e;
              _boundPipeline := _boundPipeline e;
              _boundCompute := _boundCompute e |}
  end.

(** The bound-state tables, as one update. *)
Definition withBound (groups0 buffers0 : gmap Z Js.ref) (index0 pipeline0 : Js.ref)
    (e : t) : t :=
  {| renderPassEncoder := renderPassEncoder e;
     computePassEncoder := computePassEncoder e;
     ended := ended e;
     _boundBindGroup := groups0;
     _boundVertexBuffer := buffers0;
     _boundIndexBuffer := index0;
     _boundPipeline := pipeline0;
     _boundCompute := _boundCompute e |}.

(** [setPipeline(pipeline)]. *)
Definition setPipeline (p : nat) (e : t) : option t :=
  if decide (_boundPipeline e = Js.obj p) then Some e
  else onRenderPass (setPipelineCmd p)
         (withBound (_boundBindGroup e) (_boundVertexBuffer e)
                    (_boundIndexBuffer e) (Js.obj p) e).

(** [_setVertexBuffer(index, buffer)]. *)
Definition _setVertexBuffer (index : Z) (buffer : Js.ref) (e : t) : option t :=
  if decide (default Js.undefined (_boundVertexBuffer e !! index) = buffer) then Some e
  else onRenderPass (setVertexBufferCmd index buffer)
         (withBound (_boundBindGroup e) (<[index := buffer]> (_boundVertexBuffer e))
                    (_boundIndexBuffer e) (_boundPipeline e) e).

(** [_setIndexBuffer(buffer)]. *)
Definition _setIndexBuffer (buffer : Geometry.Buffer) (e : t) : option t :=
  if decide (_boundIndexBuffer e = Js.obj (Geometry.uid buffer)) then Some e
  else onRenderPass
         (setIndexBufferCmd (Geometry.uid buffer)
            (if decide (Geometry.BYTES_PER_ELEMENT buffer = 2) then uint16 else uint32))
         (withBound (_boundBindGroup e) (_boundVertexBuffer e)
                    (Js.obj (Geometry.uid buffer)) (_boundPipeline e) e).

Definition withEncoder (e : t) (r : Renderer) : Renderer :=
  {| pipeline := pipeline r; bindGroups := bindGroups r; encoder := e |}.

(** [bindGroup._lastLayout = key] on the shared bind group. *)
Definition setLastLayout (k : Z) (bg : BindGroup.t) : BindGroup.t :=
  {| BindGroup.resources := BindGroup.resources bg;
     BindGroup._keys := BindGroup._keys bg;
     BindGroup._updateID := BindGroup._updateID bg;
     BindGroup._lastLayout := k |}.

(** [setBindGroup(index, bindGroup, program)].  [_touch] only stamps the
    resources for the garbage collector and is left out. *)
Definition setBindGroup (index : Z) (bindGroup : nat) (program : GpuProgram.t)
    (r : Renderer) : option Renderer :=
  bg ← bindGroups r !! bindGroup;
  if bool_decide (default Js.undefined (_boundBindGroup (encoder r) !! index)
                  = Js.obj bindGroup)
     && bool_decide (BindGroup._lastLayout bg = GpuProgram._layoutKey program)
  then Some r
  else
    let e1 := withBound (<[index := Js.obj bindGroup]> (_boundBindGroup (encoder r)))
                (_boundVertexBuffer (encoder r)) (_boundIndexBuffer (encoder r))
                (_boundPipeline (encoder r)) (encoder r) in
    e2 ← onEitherPass (setBindGroupCmd index bindGroup (GpuProgram._layoutKey program)) e1;
    Some {| pipeline := pipeline r;
            bindGroups := <[bindGroup := setLastLayout (GpuProgram._layoutKey program) bg]>
                            (bindGroups r);
            encoder := e2 |}.

(** [geometry.buffers[k]]. *)
Definition bufferRef (g : Geometry.t) (k : nat) : Js.ref :=
  match Geometry.buffers g !! k with
  | Some b => Js.obj (Geometry.uid b)
  | None => Js.undefined
  end.

(** The loop [for (const i in buffersToBind)] of [setGeometry], from slot
    [i], over the buffers [geometry.buffers[buffersToBind[i]]]. *)
Fixpoint bindVertexBuffers (i : Z) (bufs : list Js.ref) (e : t) : option t :=
  match bufs with
  | [] => Some e
  | buffer :: rest =>
      e1 ← _setVertexBuffer i buffer e;
      bindVertexBuffers (i + 1) rest e1
  end.

(** The buffers that [setGeometry] binds, slot by slot. *)
Definition buffersOf (g : Geometry.t) (buffersToBind : option (list nat)) : list Js.ref :=
  bufferRef g <$> default [] buffersToBind.

(** [setGeometry(geometry, program)]. *)
Definition setGeometry (g : Geometry.t) (program : GpuProgram.t)
    (r : Renderer) : option Renderer :=
  let '(buffersToBind, ps) :=
    PipelineSystem.getBufferNamesToBind g program (pipeline r) in
  e1 ← bindVertexBuffers 0 (buffersOf g buffersToBind) (encoder r);
  e2 ← match Geometry.indexBuffer g with
       | Some b => _setIndexBuffer b e1
       | None => Some e1
       end;
  Some {| pipeline := ps; bindGroups := bindGroups r; encoder := e2 |}.

(** [_setShaderBindGroups(shader, skipSync)].  [_syncBindGroup] uploads
    uniform groups through a system outside the sources at hand and changes
    nothing that the encoder reads; it is left out. *)
Fixpoint _setShaderBindGroups (program : GpuProgram.t) (gs : list (Z * nat))
    (r : Renderer) : option Renderer :=
  match gs with
  | [] => Some r
  | (i, bindGroup) :: rest =>
      r1 ← setBindGroup i bindGroup program r;
      _setShaderBindGroups program rest r1
  end.

(** [a || b] on numbers. *)
Definition orElse (a b : Z) : Z := if decide (a = 0) then b else a.

(** The draw call that ends [draw]. *)
Definition drawCall (o : DrawOptions) : Command :=
  let g := geometry o in
  let sz := orElse (size o) (Geometry.drawSize g) in
  match Geometry.indexBuffer g with
  | Some _ => drawIndexedCmd sz (orElse (instanceCount o) (Geometry.instanceCount g))
                (start o) 0 (baseInstance o)
  | None => drawCmd sz (orElse (instanceCount o) (Geometry.instanceCount g))
              (start o) (baseInstance o)
  end.

(** [setPipelineFromGeometryProgramAndState(geometry, program, state, topology)]. *)
Definition setPipelineFromGeometryProgramAndState (g : Geometry.t)
    (program : GpuProgram.t) (st : PipelineSystem.State)
    (topo : option Geometry.Topology) (r : Renderer) : option Renderer :=
  let '(p, ps) := PipelineSystem.getPipeline g program st topo (pipeline r) in
  e1 ← setPipeline p (encoder r);
  Some {| pipeline := ps; bindGroups := bindGroups r; encoder := e1 |}.

(** [draw(options)]. *)
Definition draw (o : DrawOptions) (r : Renderer) : option Renderer :=
  r1 ← setPipelineFromGeometryProgramAndState (geometry o) (gpuProgram (shader o))
         (state o) (topology o) r;
  r2 ← setGeometry (geometry o) (gpuProgram (shader o)) r1;
  r3 ← _setShaderBindGroups (gpuProgram (shader o)) (groups (shader o)) r2;
  e ← onRenderPass (drawCall o) (encoder r3);
  Some (withEncoder e r3).

(** The pass that [setBindGroup] records on. *)
Definition currentPass (e : t) : option (list Command) :=
  match renderPassEncoder e with
  | Some calls => Some calls
  | None => computePassEncoder e
  end.

(** What a draw resolves before it binds: the pipeline object, and the
    vertex buffers slot by slot. *)
Definition drawPipeline (o : DrawOptions) (r : Renderer) : nat :=
  (PipelineSystem.getPipeline (geometry o) (gpuProgram (shader o)) (state o)
     (topology o) (pipeline r)).1.

Definition drawVertexBuffers (o : DrawOptions) (r : Renderer) : list Js.ref :=
  buffersOf (geometry o)
    (PipelineSystem.getBufferNamesToBind (geometry o) (gpuProgram (shader o))
       (PipelineSystem.getPipeline (geometry o) (gpuProgram (shader o)) (state o)
          (topology o) (pipeline r)).2).1.

(** The slot [i] of a bound-state table. *)
Definition slot (m : gmap Z Js.ref) (i : Z) : Js.ref := default Js.undefined (m !! i).

(** Two encoder states have the same bound pipeline, vertex buffers and
    index buffer. *)
Definition sameGeometryBound (e e' : GpuEncoderSystem.t) : Prop :=
  _boundPipeline e' = _boundPipeline e
  /\ _boundVertexBuffer e' = _boundVertexBuffer e
  /\ _boundIndexBuffer e' = _boundIndexBuffer e.

(** The group [g] is bound at [i], and was last bound under the layout [k]. *)
Definition groupBound (k : Z) (r : Renderer) (i : Z) (g : nat) : Prop :=
  slot (_boundBindGroup (encoder r)) i = Js.obj g
  /\ exists bg, bindGroups r !! g = Some bg /\ BindGroup._lastLayout bg = k.

(** *** Resetting, and the calls of a draw *)


(** [finishRenderPass()]. *)
Definition finishRenderPass (e : t) : t :=
  match renderPassEncoder e with
  | Some calls =>
      {| renderPassEncoder := None;
         computePassEncoder := computePassEncoder e;
         ended := ended e ++ [calls];
         _boundBindGroup := _boundBindGroup e;
         _boundVertexBuffer := _boundVertexBuffer e;
         _boundIndexBuffer := _boundIndexBuffer e;
         _boundPipeline := _boundPipeline e;
         _boundCompute := _boundCompute e |}
  | None => e
  end.

(** The renderer after the shared bind group [g] was updated to [bg]. *)
Definition withBindGroup (g : nat) (bg : BindGroup.t) (r : Renderer) : Renderer :=
  {| pipeline := pipeline r; bindGroups := <[g := bg]> (bindGroups r);
     encoder := encoder r |}.




End GpuEncoderSystem.

(** ** Sample inputs *)

Module Sample.

(** A buffer as the constructor makes it, with fixed per-instance counts. *)
Definition instanceParams : MultiDrawBuffer.DrawInstanceParameters :=
  {| MultiDrawBuffer.vertexPerInstance := 6;
     MultiDrawBuffer.indexPerInstance := 0;
     MultiDrawBuffer.instanced := false |}.

Definition ranges : MultiDrawBuffer.t :=
  {| MultiDrawBuffer.offsets := replicate 64 0;
     MultiDrawBuffer.counts := replicate 64 6;
     MultiDrawBuffer.baseInstances := replicate 64 0;
     MultiDrawBuffer.instanceCounts := replicate 64 0;
     MultiDrawBuffer.size := 64; MultiDrawBuffer.count := 0;
     MultiDrawBuffer.params := Some instanceParams |}.


Definition vertices : Geometry.Buffer :=
  {| Geometry.uid := 7; Geometry.BYTES_PER_ELEMENT := 4 |}.

Definition indices : Geometry.Buffer :=
  {| Geometry.uid := 8; Geometry.BYTES_PER_ELEMENT := 2 |}.

(** An indexed quad with one interleaved vertex buffer. *)
Definition geometry : Geometry.t :=
  {| Geometry._layoutKey := 1;
     Geometry.topology := Geometry.triangle_list;
     Geometry.buffers := [vertices];
     Geometry.indexBuffer := Some indices;
     Geometry.attributes :=
       [("aPosition", {| Geometry.buffer_index := 0; Geometry.offset := 0;
                         Geometry.stride := 16; Geometry.instance := false |});
        ("aUV", {| Geometry.buffer_index := 0; Geometry.offset := 8;
                   Geometry.stride := 16; Geometry.instance := false |})];
     Geometry.instanceCount := 1;
     Geometry.instanced := false;
     Geometry.drawSize := 6 |}.

Definition layout : list (list GpuProgram.LayoutEntry) :=
  [[{| GpuProgram.binding := 0; GpuProgram.storageTexture := false;
       GpuProgram.buffer := Some GpuProgram.uniform |}];
   [{| GpuProgram.binding := 0; GpuProgram.storageTexture := false;
       GpuProgram.buffer := None |};
    {| GpuProgram.binding := 1; GpuProgram.storageTexture := false;
       GpuProgram.buffer := None |}]].

Definition program : GpuProgram.t :=
  {| GpuProgram._layoutKey := 3;
     GpuProgram._attributeLocationsKey := 1;
     GpuProgram.attributeData := [("aPosition", 0); ("aUV", 1)];
     GpuProgram.gpuLayout := layout |}.


Definition state : PipelineSystem.State :=
  {| PipelineSystem.customId := 0; PipelineSystem.data := 0;
     PipelineSystem._blendModeId := 1 |}.

(** The pipeline system after [contextChange]. *)
Definition pipelines : PipelineSystem.t :=
  PipelineSystem.contextChange 0 PipelineSystem.create.

(** Two resources with identity tokens 5 and 6. *)
Definition resources : gmap nat BindGroup.Resource :=
  <[1%nat := {| BindGroup._resourceId := 5; BindGroup.destroyed := false;
                BindGroup.listeners := [] |}]>
    (<[2%nat := {| BindGroup._resourceId := 6; BindGroup.destroyed := false;
                   BindGroup.listeners := [] |}]> ∅).

(** A group holding resource 1, and a group holding resources 1 and 2. *)
Definition uniforms : BindGroup.t :=
  (BindGroup.setResource 0 1 0 resources BindGroup.create).2.

Definition textures : BindGroup.t :=
  (BindGroup.setResource 1 2 1 resources
     (BindGroup.setResource 1 1 0 resources BindGroup.create).2).2.

Definition shader : GpuEncoderSystem.Shader :=
  {| GpuEncoderSystem.gpuProgram := program;
     GpuEncoderSystem.groups := [(0, 0%nat); (1, 1%nat)] |}.

Definition options : GpuEncoderSystem.DrawOptions :=
  {| GpuEncoderSystem.geometry := geometry;
     GpuEncoderSystem.shader := shader;
     GpuEncoderSystem.state := state;
     GpuEncoderSystem.topology := None;
     GpuEncoderSystem.size := 0;
     GpuEncoderSystem.start := 0;
     GpuEncoderSystem.instanceCount := 0;
     GpuEncoderSystem.baseInstance := 0;
     GpuEncoderSystem.skipSync := false |}.

(** A renderer with a render pass just begun. *)
Definition renderer : GpuEncoderSystem.Renderer :=
  {| GpuEncoderSystem.pipeline := pipelines;
     GpuEncoderSystem.bindGroups := <[0%nat := uniforms]> (<[1%nat := textures]> ∅);
     GpuEncoderSystem.encoder :=
       GpuEncoderSystem.beginRenderPass GpuEncoderSystem.create |}.

(** A buffer of capacity 4 with two ranges written into it, and parameters
    of an indexed draw with six indices per instance. *)
Definition filledRanges : MultiDrawBuffer.t :=
  {| MultiDrawBuffer.offsets := [0; 0; 0; 0];
     MultiDrawBuffer.counts := [6; 6; 6; 6];
     MultiDrawBuffer.baseInstances := [0; 10; 0; 0];
     MultiDrawBuffer.instanceCounts := [10; 5; 0; 0];
     MultiDrawBuffer.size := 4; MultiDrawBuffer.count := 2;
     MultiDrawBuffer.params := Some instanceParams |}.

Definition indexedParams : MultiDrawBuffer.DrawInstanceParameters :=
  {| MultiDrawBuffer.vertexPerInstance := 4;
     MultiDrawBuffer.indexPerInstance := 6;
     MultiDrawBuffer.instanced := false |}.

(** The screen fields and the world after [setScreenSize] with a surface of
    1920 by 1080 on a new pool. *)
Definition screen1080 : TexturePool.Screen :=
  {| TexturePool._screenWidth := inject_Z 1920;
     TexturePool._screenHeight := inject_Z 1080;
     TexturePool.screenAlign := 1; TexturePool.screenPadding := 0 |}.

Definition world1080 : TexturePool.World :=
  TexturePool.withSurface 1920 1080 TexturePool.emptyWorld.

(** A pool whose threshold was lowered to 1, with a surface of 100 by 100. *)
Definition lowThresholdWorld : TexturePool.World :=
  {| TexturePool.pool :=
       {| TexturePool._texturePool := ∅; TexturePool._poolKeyHash := ∅;
          TexturePool._pixelsWidth := 100; TexturePool._pixelsHeight := 100;
          TexturePool.screenThreshold := 1;
          TexturePool.screenSizeFactor := 7 # 5;
          TexturePool.enableFullScreen := false |};
     TexturePool.textures := ∅; TexturePool.nextUid := 0 |}.

(** A render target with four samples and no depth attachment, of HDR tier
    [tier]. *)
Definition msaaTarget (tier : Z) : PipelineSystem.GpuRenderTarget :=
  {| PipelineSystem.msaaSamples := 4;
     PipelineSystem.depthStencilAttachment := None;
     PipelineSystem.hdr := tier |}.

(** The sample resources after resource 2 was destroyed. *)
Definition resourcesAfterDestroy : gmap nat BindGroup.Resource :=
  <[2%nat := {| BindGroup._resourceId := 6; BindGroup.destroyed := true;
                BindGroup.listeners := [] |}]> resources.

End Sample.

(** * Properties *)

(** ** 32-bit conversions *)

Section JsFacts.

Lemma toInt32_small (z : Z) : - 2 ^ 31 <= z < 2 ^ 31 -> Js.toInt32 z = z.
Proof.
  intros Hz. unfold Js.toInt32.
  rewrite Z.mod_small by lia. lia.
Qed.

Lemma toInt32_range (z : Z) : - 2 ^ 31 <= Js.toInt32 z < 2 ^ 31.
Proof.
  unfold Js.toInt32.
  pose proof (Z.mod_pos_bound (z + 2 ^ 31) (2 ^ 32) ltac:(lia)). lia.
Qed.

Lemma toInt32_idemp (z : Z) : Js.toInt32 (Js.toInt32 z) = Js.toInt32 z.
Proof. apply toInt32_small, toInt32_range. Qed.

End JsFacts.

(** ** The draw-range buffer *)

Section MultiDrawBufferFacts.

Import MultiDrawBuffer.

Lemma t_ext (a b : MultiDrawBuffer.t) :
  offsets a = offsets b -> counts a = counts b ->
  baseInstances a = baseInstances b -> instanceCounts a = instanceCounts b ->
  size a = size b -> count a = count b -> params a = params b -> a = b.
Proof. destruct a, b; simpl; congruence. Qed.

Lemma writeInt32_nat (j : nat) (v : Z) (arr : list Z) :
  writeInt32 (Z.of_nat j) v arr = <[j := Js.toInt32 v]> arr.
Proof.
  unfold writeInt32. destruct (Z.ltb_spec (Z.of_nat j) 0); [lia|].
  by rewrite Nat2Z.id.
Qed.

Lemma newArray_nonneg (sz : Z) :
  0 <= sz -> newArray sz = Some (replicate (Z.to_nat sz) 0).
Proof. intros H. unfold newArray. destruct (Z.ltb_spec sz 0); [lia|done]. Qed.

Lemma arraySet_replicate (n : nat) (old : list Z) :
  (length old <= n)%nat ->
  arraySet (replicate n 0) old = Some (old ++ replicate (n - length old) 0).
Proof.
  intros H. unfold arraySet. rewrite length_replicate.
  destruct (Nat.leb_spec (length old) n); [|lia].
  by rewrite drop_replicate.
Qed.

(** The fill loop turns the zeros after the old entries into the count. *)
Lemma fillCounts_app (n : nat) (v : Z) (old : list Z) :
  foldl (fun c i => writeInt32 i v c) (old ++ replicate n 0)
        (seqZ (Z.of_nat (length old)) (Z.of_nat n))
  = old ++ replicate n (Js.toInt32 v).
Proof.
  revert old. induction n as [|n IH]; intros old.
  - done.
  - rewrite seqZ_cons by lia. simpl foldl.
    rewrite writeInt32_nat.
    replace (<[length old := Js.toInt32 v]> (old ++ replicate (S n) 0))
      with ((old ++ [Js.toInt32 v]) ++ replicate n 0).
    2:{ rewrite insert_app_r_alt by lia. rewrite Nat.sub_diag. simpl.
        by rewrite <- app_assoc. }
    replace (Z.succ (Z.of_nat (length old)))
      with (Z.of_nat (length (old ++ [Js.toInt32 v])))
      by (rewrite length_app; simpl; lia).
    replace (Z.pred (Z.of_nat (S n))) with (Z.of_nat n) by lia.
    rewrite IH. by rewrite <- app_assoc.
Qed.

(** What [resize] to a larger size yields: the old entries, then zeros, or
    the default count in [counts] when the buffer has parameters. *)
Lemma resize_grow (b : MultiDrawBuffer.t) (sz : Z) :
  wellSized b -> size b <= sz ->
  resize sz true b =
    Some {| offsets := offsets b ++ replicate (Z.to_nat (sz - size b)) 0;
            counts := counts b ++ replicate (Z.to_nat (sz - size b))
                        (match params b with
                         | Some p => Js.toInt32 (vertexPerInstance p)
                         | None => 0
                         end);
            baseInstances := baseInstances b ++ replicate (Z.to_nat (sz - size b)) 0;
            instanceCounts := instanceCounts b ++ replicate (Z.to_nat (sz - size b)) 0;
            size := sz; count := count b; params := params b |}.
Proof.
  intros (H0 & Ho & Hc & Hb & Hi) Hle. unfold resize.
  rewrite newArray_nonneg by lia. simpl.
  rewrite !arraySet_replicate by lia. simpl.
  rewrite Ho, Hc, Hb, Hi.
  replace (Z.to_nat sz - Z.to_nat (size b))%nat with (Z.to_nat (sz - size b)) by lia.
  f_equal. apply t_ext; simpl; try done.
  destruct (params b) as [p|]; [|done].
  unfold fillCounts.
  pose proof (fillCounts_app (Z.to_nat (sz - size b)) (vertexPerInstance p)
                (counts b)) as Hfill.
  rewrite Hc in Hfill.
  by rewrite !Z2Nat.id in Hfill by lia.
Qed.

Lemma growSize_more (fuel : nat) (sz n r : Z) :
  growSize fuel sz n = Some r -> growSize (S fuel) sz n = Some r.
Proof.
  revert n. induction fuel as [|fuel IH]; intros n; [done|].
  intros H. simpl in H. change (growSize (S (S fuel)) sz n) with
    (if sz >? n then growSize (S fuel) sz (n * 2) else Some n).
  destruct (sz >? n); [by apply IH|done].
Qed.

(** The constructor yields a well-sized buffer of the capacity asked for. *)
Lemma create_wellSized (capacity : Z) (p : option DrawInstanceParameters) :
  0 <= capacity ->
  exists b, create capacity p = Some b /\ wellSized b /\ size b = capacity
            /\ params b = p /\ count b = 0.
Proof.
  intros H. unfold create.
  rewrite resize_grow; [|by repeat split|simpl; lia].
  eexists. split; [done|]. simpl.
  repeat split; simpl; try done; try lia; rewrite length_replicate; lia.
Qed.

(** The range loops rewrite the first [n] entries of [offsets] and [counts]
    from [baseInstances] and [instanceCounts], which they leave alone. *)
Lemma foldl_convertStep (mo mc : Z) (n : nat) (b : MultiDrawBuffer.t) :
  let b' := foldl (convertStep mo mc) b (seq 0 n) in
  baseInstances b' = baseInstances b
  /\ instanceCounts b' = instanceCounts b
  /\ size b' = size b /\ count b' = count b /\ params b' = params b
  /\ (forall i, offsets b' !! i =
                if decide (i < n)%nat
                then (fun _ => Js.toInt32 (readAt (baseInstances b) i * mo))
                       <$> offsets b !! i
                else offsets b !! i)
  /\ (forall i, counts b' !! i =
                if decide (i < n)%nat
                then (fun _ => Js.toInt32 (readAt (instanceCounts b) i * mc))
                       <$> counts b !! i
                else counts b !! i).
Proof.
  induction n as [|n IH].
  - simpl. repeat split; intros i; by destruct (decide (i < 0)%nat); [lia|].
  - rewrite seq_S, foldl_app. simpl in IH |- *.
    destruct IH as (Hb & Hi & Hs & Hc & Hp & Ho & Hcn).
    set (b' := foldl (convertStep mo mc) b (seq 0 n)) in *.
    rewrite !writeInt32_nat, Hb, Hi.
    repeat split; try done; intros i.
    + destruct (decide (i = n)) as [->|Hne].
      * destruct (decide (n < S n)%nat); [|lia].
        specialize (Ho n). destruct (decide (n < n)%nat); [lia|].
        destruct (offsets b !! n) as [x|] eqn:E.
        -- rewrite list_lookup_insert_eq; [done|]. by eapply lookup_lt_Some.
        -- rewrite list_insert_ge; [done|]. by apply lookup_ge_None.
      * rewrite list_lookup_insert_ne by done. rewrite Ho.
        destruct (decide (i < n)%nat), (decide (i < S n)%nat); try done; lia.
    + destruct (decide (i = n)) as [->|Hne].
      * destruct (decide (n < S n)%nat); [|lia].
        specialize (Hcn n). destruct (decide (n < n)%nat); [lia|].
        destruct (counts b !! n) as [x|] eqn:E.
        -- rewrite list_lookup_insert_eq; [done|]. by eapply lookup_lt_Some.
        -- rewrite list_insert_ge; [done|]. by apply lookup_ge_None.
      * rewrite list_lookup_insert_ne by done. rewrite Hcn.
        destruct (decide (i < n)%nat), (decide (i < S n)%nat); try done; lia.
Qed.

(** Running a range loop on its own result changes nothing. *)
Lemma foldl_convertStep_twice (mo mc : Z) (b : MultiDrawBuffer.t) :
  let b1 := foldl (convertStep mo mc) b (seq 0 (Z.to_nat (count b))) in
  foldl (convertStep mo mc) b1 (seq 0 (Z.to_nat (count b1))) = b1.
Proof.
  intros b1.
  destruct (foldl_convertStep mo mc (Z.to_nat (count b)) b)
    as (Hb & Hi & Hs & Hc & Hp & Ho & Hcn).
  fold b1 in Hb, Hi, Hs, Hc, Hp, Ho, Hcn.
  destruct (foldl_convertStep mo mc (Z.to_nat (count b1)) b1)
    as (Hb' & Hi' & Hs' & Hc' & Hp' & Ho' & Hcn').
  apply t_ext; try done.
  - apply list_eq. intros i. rewrite Ho', Hc, Hb, Ho.
    destruct (decide (i < Z.to_nat (count b))%nat); [|done].
    by destruct (offsets b !! i).
  - apply list_eq. intros i. rewrite Hcn', Hc, Hi, Hcn.
    destruct (decide (i < Z.to_nat (count b))%nat); [|done].
    by destruct (counts b !! i).
Qed.

Ltac mdb_proj :=
  cbn [offsets counts baseInstances instanceCounts size count params].

(** C7.  On a buffer of capacity 64, [ensureSize 5] changes nothing and
    [ensureSize 130] then yields capacity 256, which is at least 130: the loop
    of [ensureSize] doubles 64 to 128 and 128 to 256 and stops there.  The
    entries of all four arrays below the old size are the old ones, and when
    the buffer has fixed per-instance counts every new slot of [counts] holds
    the default vertex count (as the 32-bit integer an [Int32Array] stores,
    which is the count itself when it is one). *)
Theorem ensureSize_growth_from_64 (fuel : nat) (b : MultiDrawBuffer.t) :
  wellSized b -> size b = 64 ->
  ensureSize fuel 5 b = Some b
  /\ (growSize (3 + fuel) 130 64 = growSize (2 + fuel) 130 (64 * 2)
      /\ growSize (2 + fuel) 130 128 = growSize (1 + fuel) 130 (128 * 2)
      /\ growSize (1 + fuel) 130 256 = Some 256)
  /\ exists b',
       ensureSize (3 + fuel) 130 b = Some b'
       /\ size b' = 256 /\ 130 <= size b' /\ wellSized b'
       /\ count b' = count b /\ params b' = params b
       /\ (forall i, (i < 64)%nat ->
             offsets b' !! i = offsets b !! i
             /\ counts b' !! i = counts b !! i
             /\ baseInstances b' !! i = baseInstances b !! i
             /\ instanceCounts b' !! i = instanceCounts b !! i)
       /\ (forall p i, params b = Some p -> (64 <= i < 256)%nat ->
             counts b' !! i = Some (Js.toInt32 (vertexPerInstance p))
             /\ (- 2 ^ 31 <= vertexPerInstance p < 2 ^ 31 ->
                 counts b' !! i = Some (vertexPerInstance p))).
Proof.
  intros Hwf Hsz.
  assert (Hgrow : growSize (3 + fuel) 130 64 = Some 256) by done.
  split; [|split; [done|]].
  - unfold ensureSize. rewrite Hsz. done.
  - pose proof (resize_grow b 256 Hwf ltac:(lia)) as Hres.
    destruct Hwf as (H0 & Ho & Hc & Hb & Hi).
    eexists. split.
    { unfold ensureSize. rewrite Hsz.
      change (130 <=? 64) with false. cbv iota.
      rewrite Hgrow. exact Hres. }
    rewrite Hsz in *.
    change (Z.to_nat (256 - 64)) with 192%nat.
    change (Z.to_nat 64) with 64%nat in *.
    unfold wellSized. mdb_proj.
    split; [done|]. split; [lia|].
    split.
    { rewrite !length_app, !length_replicate, Ho, Hc, Hb, Hi.
      repeat split; lia. }
    split; [done|]. split; [done|]. split.
    + intros i Hlt.
      repeat split; apply lookup_app_l; lia.
    + intros p i Hp [Hge Hlt]. rewrite Hp.
      assert (Hlk : (counts b ++ replicate 192 (Js.toInt32 (vertexPerInstance p))) !! i
                    = Some (Js.toInt32 (vertexPerInstance p))).
      { rewrite lookup_app_r by lia.
        apply lookup_replicate. split; [done|]. lia. }
      split; [done|].
      intros Hrange. by rewrite Hlk, toInt32_small.
Qed.

(** C8.  [convertInstancesToVertices] is idempotent: a second call with the
    same parameters returns the state that the first call produced, and with
    hardware-instanced parameters the first call already returns the buffer
    as it was.  The call fails only when neither the argument nor the buffer
    supplies parameters. *)
Theorem convertInstancesToVertices_idempotent
    (arg : option DrawInstanceParameters) (b : MultiDrawBuffer.t) :
  match convertInstancesToVertices arg b with
  | Some b1 =>
      convertInstancesToVertices arg b1 = Some b1
      /\ (forall p, effectiveParams arg b = Some p -> instanced p = true -> b1 = b)
  | None => effectiveParams arg b = None
  end.
Proof.
  unfold convertInstancesToVertices, effectiveParams.
  destruct (match arg with Some p => Some p | None => params b end)
    as [p|] eqn:Hp; simpl; [|done].
  destruct (instanced p) eqn:Hinst.
  - split; [|done]. rewrite Hp. simpl. by rewrite Hinst.
  - assert (Hsame : forall mo mc,
               match arg with
               | Some p0 => Some p0
               | None => params (foldl (convertStep mo mc) b
                                   (seq 0 (Z.to_nat (count b))))
               end = Some p).
    { intros mo mc. destruct arg; [done|].
      by destruct (foldl_convertStep mo mc (Z.to_nat (count b)) b)
        as (_ & _ & _ & _ & -> & _). }
    destruct (0 <? indexPerInstance p) eqn:Hidx.
    + split; [|intros ? [= <-]; congruence].
      rewrite Hsame. simpl. rewrite Hinst, Hidx.
      f_equal. apply foldl_convertStep_twice.
    + split; [|intros ? [= <-]; congruence].
      rewrite Hsame. simpl. rewrite Hinst, Hidx.
      f_equal. apply foldl_convertStep_twice.
Qed.

Lemma ensureSize_growth_from_64_witness :
  create 64 (Some Sample.instanceParams) = Some Sample.ranges
  /\ exists b',
       ensureSize 3 130 Sample.ranges = Some b'
       /\ size b' = 256
       /\ counts b' !! 200%nat = Some 6.
Proof.
  split; [reflexivity|].
  destruct (ensureSize_growth_from_64 0 Sample.ranges) as (_ & _ & b' & H1 & H2 & _ & _ & _ & _ & _ & H3).
  - repeat split; simpl; lia.
  - reflexivity.
  - exists b'. split; [exact H1|]. split; [exact H2|].
    apply (H3 Sample.instanceParams 200%nat); [reflexivity|lia|simpl; lia].
Defined.

End MultiDrawBufferFacts.

(** ** The texture pool *)

Section TexturePoolFacts.

Import TexturePool.

Lemma shl_small (a n : Z) :
  0 <= a -> 0 <= n < 32 -> a * 2 ^ n < 2 ^ 31 -> Js.shl a n = a * 2 ^ n.
Proof.
  intros Ha Hn Hlt. unfold Js.shl, Js.toUint32.
  assert (2 ^ 0 <= 2 ^ n) by (apply Z.pow_le_mono_r; lia).
  rewrite (Z.mod_small n) by lia.
  rewrite (Z.mod_small n) by lia.
  rewrite (toInt32_small a) by nia.
  rewrite Z.shiftl_mul_pow2 by lia.
  apply toInt32_small. nia.
Qed.

(** Above [c0], dividing by a factor [f] with [f <= c0 * (f - 1)] and
    rounding up gives a smaller number. *)
Lemma ceilDiv_decreases (x c0 : Z) (f : Q) :
  (1 < f)%Q -> (f <= inject_Z c0 * (f - 1))%Q ->
  c0 <= ceilDiv x f -> ceilDiv x f < x.
Proof.
  intros Hf Hc0 Hc. unfold ceilDiv in *.
  set (c := Qceiling (inject_Z x / f)) in *.
  pose proof (Qceiling_lt (inject_Z x / f)) as Hlt. fold c in Hlt.
  assert (Hpos : (0 < f)%Q) by lra.
  assert (H1 : (inject_Z (c - 1) * f < inject_Z x)%Q).
  { destruct (Qlt_le_dec (inject_Z (c - 1) * f) (inject_Z x)) as [|Hle]; [done|].
    apply Qle_shift_div_r in Hle; [|done].
    exfalso. apply (Qlt_not_le _ _ Hlt Hle). }
  assert (H2 : (inject_Z c0 <= inject_Z c)%Q) by (by rewrite <- Zle_Qle).
  assert (H3 : (inject_Z c <= inject_Z (c - 1) * f)%Q).
  { unfold Z.sub. rewrite inject_Z_plus.
    change (inject_Z (- (1))) with (-1 # 1)%Q.
    assert (inject_Z c0 * (f - 1) <= inject_Z c * (f - 1))%Q.
    { apply Qmult_le_compat_r; lra. }
    nra. }
  rewrite Zlt_Qlt. lra.
Qed.

(** Such a [c0] is at least 2. *)
Lemma factor_bound_pos (c0 : Z) (f : Q) :
  (1 < f)%Q -> (f <= inject_Z c0 * (f - 1))%Q -> 1 < c0.
Proof.
  intros Hf Hc0.
  destruct (Z.lt_ge_cases 1 c0) as [|Hle]; [done|exfalso].
  assert (inject_Z c0 <= 1)%Q.
  { change 1%Q with (inject_Z 1). by rewrite <- Zle_Qle. }
  assert (inject_Z c0 * (f - 1) <= 1 * (f - 1))%Q.
  { apply Qmult_le_compat_r; lra. }
  lra.
Qed.

Lemma shrinkScreen_more (fuel fuel' : nat) (f : Q) (w sw r : Z) :
  (fuel <= fuel')%nat ->
  shrinkScreen fuel f w sw = Some r -> shrinkScreen fuel' f w sw = Some r.
Proof.
  revert fuel' sw. induction fuel as [|fuel IH]; intros fuel' sw Hle; [done|].
  destruct fuel' as [|fuel']; [lia|]. simpl.
  destruct (w <=? ceilDiv sw f); [|done].
  apply IH. lia.
Qed.

(** The shrink loop ends, on the smallest size of the shrink sequence that
    is still no smaller than the request. *)
Lemma shrinkScreen_terminates (f : Q) (c0 w : Z) (n : nat) (sw : Z) :
  (1 < f)%Q -> (f <= inject_Z c0 * (f - 1))%Q -> c0 <= w ->
  (Z.to_nat sw <= n)%nat -> w <= sw ->
  exists r, shrinkScreen (S n) f w sw = Some r
            /\ w <= r <= sw /\ ceilDiv r f < w.
Proof.
  intros Hf Hc0 Hw. pose proof (factor_bound_pos c0 f Hf Hc0) as Hpos.
  revert sw. induction n as [|n IH]; intros sw Hn Hle; [lia|].
  change (shrinkScreen (S (S n)) f w sw)
    with (if w <=? ceilDiv sw f
          then shrinkScreen (S n) f w (ceilDiv sw f) else Some sw).
  destruct (Z.leb_spec w (ceilDiv sw f)) as [Hc|Hc].
  - pose proof (ceilDiv_decreases sw c0 f Hf Hc0 ltac:(lia)).
    destruct (IH (ceilDiv sw f)) as (r & Hr & Hb & Hx); [lia|done|].
    exists r. repeat split; try done; lia.
  - exists sw. repeat split; try done; lia.
Qed.

(** Once the size is chosen, [getOptimalTexture] returns: it pops the last
    texture of the bucket, or creates one under the next uid when the bucket
    is empty or missing. *)
Lemma getOptimalTexture_served (fuel : nat) (fw fh res : Q) (aa hdr ign : bool)
    (w : World) (sign width height : Z) :
  optimalSize fuel (pool w) ign (scaledSize fw res) (scaledSize fh res)
    = Some (sign, width, height) ->
  exists uid txs n,
    getOptimalTexture fuel fw fh res aa hdr ign w
      = Some (uid, served w (bucketKey sign width height aa hdr) uid
                     (removelast (default [] (_texturePool (pool w)
                                    !! bucketKey sign width height aa hdr)))
                     txs n)
    /\ match last (default [] (_texturePool (pool w)
                                !! bucketKey sign width height aa hdr)) with
       | Some u => uid = u /\ n = nextUid w /\ dom txs = dom (textures w)
       | None => uid = nextUid w /\ n = S (nextUid w)
       end.
Proof.
  intros Hopt. unfold getOptimalTexture. rewrite Hopt.
  cbn [mbind option_bind]. unfold popBucket.
  destruct (last _) as [u|].
  - do 3 eexists. split; [reflexivity|].
    split; [done|]. split; [done|]. apply dom_alter_L.
  - do 3 eexists. split; [reflexivity|]. done.
Qed.






Example screen_bucket_of_1000 :
  optimalSize 3 (pool (withSurface 1920 1080 emptyWorld)) false 1000 1000
  = Some (-1, 1372, 1080).
Proof. by vm_compute. Qed.

Lemma nextPow2_ge (v : Z) : v <= nextPow2 v.
Proof.
  unfold nextPow2. destruct (Z.le_gt_cases v 1) as [Hle|Hgt].
  - rewrite Z.log2_up_eqn0 by done. change (2 ^ 0) with 1. lia.
  - apply Z.log2_up_spec. lia.
Qed.

Lemma usePow2_false (p : TexturePool.t) (ign : bool) (width height : Z) :
  usePow2 p ign width height = false ->
  ign = false
  /\ screenThreshold p < width <= _pixelsWidth p
  /\ screenThreshold p < height <= _pixelsHeight p.
Proof.
  unfold usePow2. destruct ign; [done|]. simpl.
  destruct (Z.leb_spec width (screenThreshold p)); [done|].
  destruct (Z.leb_spec height (screenThreshold p)); [done|].
  destruct (Z.gtb_spec width (_pixelsWidth p)); [done|].
  destruct (Z.gtb_spec height (_pixelsHeight p)); [done|].
  intros _. repeat split; lia.
Qed.

(** The size is chosen, given enough fuel, and covers the request: always
    by powers of two, and relative to the surface when the shrink factor is
    above 1 and the threshold large enough for it. *)
Lemma optimalSize_returns (p : TexturePool.t) (ign : bool) (width height : Z) :
  (usePow2 p ign width height = false ->
   (1 < screenSizeFactor p)%Q
   /\ (screenSizeFactor p
         <= inject_Z (screenThreshold p + 1) * (screenSizeFactor p - 1))%Q) ->
  exists fuel sign sw sh,
    optimalSize fuel p ign width height = Some (sign, sw, sh)
    /\ width <= sw /\ height <= sh.
Proof.
  intros Hfac. unfold optimalSize.
  destruct (usePow2 p ign width height) eqn:Hreg.
  - exists O, 1, (nextPow2 width), (nextPow2 height).
    split; [done|]. split; apply nextPow2_ge.
  - destruct (Hfac eq_refl) as (Hf & Hc0).
    destruct (usePow2_false _ _ _ _ Hreg) as (_ & Hw & Hh).
    set (n := (Z.to_nat (_pixelsWidth p) `max` Z.to_nat (_pixelsHeight p))%nat).
    destruct (shrinkScreen_terminates (screenSizeFactor p) (screenThreshold p + 1)
                width n (_pixelsWidth p))
      as (sw & Hsw & Hbw & _); [done|done|lia|lia|lia|].
    destruct (shrinkScreen_terminates (screenSizeFactor p) (screenThreshold p + 1)
                height n (_pixelsHeight p))
      as (sh & Hsh & Hbh & _); [done|done|lia|lia|lia|].
    exists (S n), (-1), sw, sh. rewrite Hsw. cbn [mbind option_bind].
    rewrite Hsh. cbn [mbind option_bind]. split; [done|]. lia.
Qed.

Lemma fitTexture_idemp (fw fh res : Q) (pw ph : Z) (t0 : Texture) :
  fitTexture fw fh res pw ph (fitTexture fw fh res pw ph t0)
  = fitTexture fw fh res pw ph t0.
Proof. reflexivity. Qed.

Lemma last_elem_of {A : Type} (l : list A) (x : A) : last l = Some x -> x ∈ l.
Proof.
  intros H. apply last_Some in H as (l' & ->).
  apply elem_of_app. right. by left.
Qed.

Lemma removelast_subseteq {A : Type} (l : list A) (x : A) :
  x ∈ removelast l -> x ∈ l.
Proof.
  destruct (last l) as [y|] eqn:E.
  - apply last_Some in E as (l' & ->). rewrite removelast_last.
    intros H. apply elem_of_app. by left.
  - apply last_None in E as ->. done.
Qed.

(** Once the size is chosen, the texture handed out is one that was not
    destroyed, fitted to the request: the last one of the bucket, or a new
    one. *)
Lemma getOptimalTexture_live (fuel : nat) (fw fh res : Q) (aa hdr ign : bool)
    (w : World) (sign sw sh : Z) :
  pooledLive w ->
  optimalSize fuel (pool w) ign (scaledSize fw res) (scaledSize fh res)
    = Some (sign, sw, sh) ->
  exists uid t0 n,
    getOptimalTexture fuel fw fh res aa hdr ign w
      = Some (uid, served w (bucketKey sign sw sh aa hdr) uid
                     (removelast (default [] (_texturePool (pool w)
                                    !! bucketKey sign sw sh aa hdr)))
                     (<[uid := fitTexture fw fh res sw sh t0]> (textures w)) n)
    /\ destroyed t0 = false
    /\ match last (default [] (_texturePool (pool w)
                                !! bucketKey sign sw sh aa hdr)) with
       | Some u => uid = u /\ n = nextUid w /\ textures w !! u = Some t0
       | None => uid = nextUid w /\ n = S (nextUid w)
       end.
Proof.
  intros Hlive Hopt. unfold getOptimalTexture. rewrite Hopt.
  cbn [mbind option_bind]. unfold popBucket.
  set (key := bucketKey sign sw sh aa hdr).
  destruct (last (default [] (_texturePool (pool w) !! key))) as [u|] eqn:Hlast.
  - assert (Hin : u ∈ default [] (_texturePool (pool w) !! key))
      by (by apply last_elem_of).
    destruct (_texturePool (pool w) !! key) as [arr|] eqn:Hb;
      [|by apply elem_of_nil in Hin].
    destruct (Hlive key arr u Hb Hin) as (t0 & Ht0 & Hd).
    exists u, t0, (nextUid w). split; [|done].
    unfold served. do 3 f_equal.
    apply map_eq. intros i. destruct (decide (i = u)) as [->|Hne].
    + by rewrite lookup_alter_eq, lookup_insert_eq, Ht0.
    + by rewrite lookup_alter_ne, lookup_insert_ne.
  - eexists (nextUid w), _, (S (nextUid w)). split; [|split; [|done]].
    + unfold createTexture, served. cbn [textures nextUid pool]. do 3 f_equal.
      apply map_eq. intros i. destruct (decide (i = nextUid w)) as [->|Hne].
      * rewrite lookup_alter_eq, !lookup_insert_eq. done.
      * by rewrite lookup_alter_ne, !lookup_insert_ne.
    + done.
Qed.

(** C9.  Acquire, release, acquire.  On a pool whose stored textures are
    all live, a request returns, given enough fuel (in the screen-relative
    regime: when the shrink factor is above 1 and the threshold large enough
    for it), with a texture [uid] of the world that is not destroyed and
    covers the request.  Releasing it puts [uid] at the end of the bucket of
    its recorded key and destroys nothing, and the same request (same size,
    resolution and flags, same surface size) is then served with [uid]
    again, taken back out of that bucket: the world after the second acquire
    is the world after the first, so no texture was created. *)
Theorem acquire_release_acquire (fw fh res : Q) (aa hdr ign : bool) (w : World) :
  pooledLive w ->
  (usePow2 (pool w) ign (scaledSize fw res) (scaledSize fh res) = false ->
   (1 < screenSizeFactor (pool w))%Q
   /\ (screenSizeFactor (pool w)
         <= inject_Z (screenThreshold (pool w) + 1)
            * (screenSizeFactor (pool w) - 1))%Q) ->
  exists fuel uid w1 key arr t1,
    getOptimalTexture fuel fw fh res aa hdr ign w = Some (uid, w1)
    /\ textures w1 !! uid = Some t1
    /\ destroyed t1 = false
    /\ scaledSize fw res <= pixelWidth t1
    /\ scaledSize fh res <= pixelHeight t1
    /\ pooledLive w1
    /\ _poolKeyHash (pool w1) !! uid = Some key
    /\ _texturePool (pool w1) !! key = Some arr
    /\ _texturePool (pool (returnTexture uid w1)) !! key = Some (arr ++ [uid])
    /\ textures (returnTexture uid w1) = textures w1
    /\ nextUid (returnTexture uid w1) = nextUid w1
    /\ pooledLive (returnTexture uid w1)
    /\ getOptimalTexture fuel fw fh res aa hdr ign (returnTexture uid w1)
       = Some (uid, w1).
Proof.
  intros Hlive Hfac.
  destruct (optimalSize_returns (pool w) ign (scaledSize fw res) (scaledSize fh res)
              Hfac) as (fuel & sign & sw & sh & Hopt & Hw & Hh).
  destruct (getOptimalTexture_live fuel fw fh res aa hdr ign w sign sw sh Hlive Hopt)
    as (uid & t0 & n & Hget & Hd & Hcase).
  set (key := bucketKey sign sw sh aa hdr) in *.
  set (arr0 := default [] (_texturePool (pool w) !! key)) in *.
  set (t1 := fitTexture fw fh res sw sh t0) in *.
  set (w1 := served w key uid (removelast arr0) (<[uid := t1]> (textures w)) n) in *.
  assert (Hlive1 : pooledLive w1).
  { intros k arr u Hb Hin. unfold w1, served in *. cbn [pool _texturePool textures] in *.
    destruct (decide (u = uid)) as [->|Hne].
    { exists t1. by rewrite lookup_insert_eq. }
    rewrite lookup_insert_ne by done.
    destruct (decide (k = key)) as [->|Hk].
    - rewrite lookup_insert_eq in Hb. injection Hb as <-.
      apply removelast_subseteq in Hin. unfold arr0 in Hin.
      destruct (_texturePool (pool w) !! key) as [arr|] eqn:Hb;
        [|by apply elem_of_nil in Hin].
      by eapply Hlive.
    - rewrite lookup_insert_ne in Hb by done. by eapply Hlive. }
  assert (Hret : returnTexture uid w1
                 = served w key uid (removelast arr0 ++ [uid])
                     (<[uid := t1]> (textures w)) n).
  { unfold returnTexture, w1, served. cbn [pool _poolKeyHash _texturePool].
    rewrite lookup_insert_eq. cbn [mbind option_bind].
    rewrite lookup_insert_eq. cbn [fmap option_fmap option_map].
    by rewrite insert_insert_eq. }
  exists fuel, uid, w1, key, (removelast arr0), t1.
  split; [exact Hget|].
  split; [unfold w1, served; cbn [textures]; apply lookup_insert_eq|].
  split; [exact Hd|].
  split; [exact Hw|]. split; [exact Hh|].
  split; [exact Hlive1|].
  split; [unfold w1, served; cbn [pool _poolKeyHash]; apply lookup_insert_eq|].
  split; [unfold w1, served; cbn [pool _texturePool]; apply lookup_insert_eq|].
  rewrite Hret.
  split; [unfold served; cbn [pool _texturePool]; apply lookup_insert_eq|].
  split; [done|]. split; [done|].
  split.
  { intros k arr u Hb Hin. unfold served in *. cbn [pool _texturePool textures] in *.
    destruct (decide (u = uid)) as [->|Hne].
    { exists t1. by rewrite lookup_insert_eq. }
    rewrite lookup_insert_ne by done.
    destruct (decide (k = key)) as [->|Hk].
    - rewrite lookup_insert_eq in Hb. injection Hb as <-.
      apply elem_of_app in Hin as [Hin|Hin].
      2:{ apply list_elem_of_singleton in Hin. done. }
      apply removelast_subseteq in Hin. unfold arr0 in Hin.
      destruct (_texturePool (pool w) !! key) as [arr|] eqn:Hb;
        [|by apply elem_of_nil in Hin].
      by eapply Hlive.
    - rewrite lookup_insert_ne in Hb by done. by eapply Hlive. }
  unfold getOptimalTexture.
  change (optimalSize fuel
            (pool (served w key uid (removelast arr0 ++ [uid])
                     (<[uid := t1]> (textures w)) n))
            ign (scaledSize fw res) (scaledSize fh res))
    with (optimalSize fuel (pool w) ign (scaledSize fw res) (scaledSize fh res)).
  rewrite Hopt. cbn [mbind option_bind]. fold key.
  unfold popBucket, served. cbn [pool _texturePool _poolKeyHash textures nextUid
    _pixelsWidth _pixelsHeight screenThreshold screenSizeFactor enableFullScreen].
  rewrite lookup_insert_eq.
  change (default [] (Some (removelast arr0 ++ [uid]))) with (removelast arr0 ++ [uid]).
  rewrite last_snoc, removelast_last.
  unfold w1, served. do 2 f_equal. f_equal.
  - f_equal.
    + by rewrite !insert_insert_eq.
    + by rewrite insert_insert_eq.
  - apply map_eq. intros i. destruct (decide (i = uid)) as [->|Hne].
    + rewrite lookup_alter_eq. cbn [textures]. rewrite lookup_insert_eq.
      cbn [fmap option_fmap option_map]. unfold t1. by rewrite fitTexture_idemp.
    + by rewrite lookup_alter_ne.
Qed.

(** The round trip in both regimes: 300 by 300 on the pool as constructed
    (powers of two), and 1000 by 1000 on a surface of 1920 by 1080
    (screen-relative). *)
Lemma acquire_release_acquire_witness :
  (exists fuel uid w1 t1,
     getOptimalTexture fuel (inject_Z 300) (inject_Z 300) 1 true false false
       emptyWorld = Some (uid, w1)
     /\ textures w1 !! uid = Some t1 /\ destroyed t1 = false
     /\ getOptimalTexture fuel (inject_Z 300) (inject_Z 300) 1 true false false
          (returnTexture uid w1) = Some (uid, w1))
  /\ usePow2 (pool (withSurface 1920 1080 emptyWorld)) false
       (scaledSize (inject_Z 1000) 1) (scaledSize (inject_Z 1000) 1) = false
  /\ (exists fuel uid w1 t1,
        getOptimalTexture fuel (inject_Z 1000) (inject_Z 1000) 1 false false false
          (withSurface 1920 1080 emptyWorld) = Some (uid, w1)
        /\ textures w1 !! uid = Some t1 /\ destroyed t1 = false
        /\ getOptimalTexture fuel (inject_Z 1000) (inject_Z 1000) 1 false false
             false (returnTexture uid w1) = Some (uid, w1)).
Proof.
  split; [|split; [by vm_compute|]].
  - destruct (acquire_release_acquire (inject_Z 300) (inject_Z 300) 1
                true false false emptyWorld)
      as (fuel & uid & w1 & key & arr & t1 & H1 & H2 & H3 & _ & _ & _ & _ & _
          & _ & _ & _ & _ & H4).
    + intros key arr u Hb. exfalso. revert Hb. cbn. by rewrite lookup_empty.
    + intros Hreg. exfalso. revert Hreg. by vm_compute.
    + exists fuel, uid, w1, t1. split; [exact H1|]. split; [exact H2|].
      split; [exact H3|exact H4].
  - destruct (acquire_release_acquire (inject_Z 1000) (inject_Z 1000) 1
                false false false (withSurface 1920 1080 emptyWorld))
      as (fuel & uid & w1 & key & arr & t1 & H1 & H2 & H3 & _ & _ & _ & _ & _
          & _ & _ & _ & _ & H4).
    + intros key arr u Hb. exfalso. revert Hb. cbn. by rewrite lookup_empty.
    + intros _. split; [reflexivity|]. vm_compute. discriminate.
    + exists fuel, uid, w1, t1. split; [exact H1|]. split; [exact H2|].
      split; [exact H3|exact H4].
Defined.

End TexturePoolFacts.

(** ** The pipeline cache *)

Section PipelineSystemFacts.

Import PipelineSystem.

Lemma testbit_toInt32 (z i : Z) :
  0 <= i < 32 -> Z.testbit (Js.toInt32 z) i = Z.testbit z i.
Proof.
  intros Hi.
  rewrite <- (Z.mod_pow2_bits_low (Js.toInt32 z) 32 i) by lia.
  rewrite <- (Z.mod_pow2_bits_low z 32 i) by lia.
  f_equal. unfold Js.toInt32.
  rewrite Zminus_mod_idemp_l.
  replace (z + 2 ^ 31 - 2 ^ 31) with z by lia. done.
Qed.

Lemma shl_testbit_low (a n i : Z) :
  0 <= n < 32 -> 0 <= i < n -> Z.testbit (Js.shl a n) i = false.
Proof.
  intros Hn Hi. unfold Js.shl, Js.toUint32.
  rewrite !(Z.mod_small n) by lia.
  rewrite testbit_toInt32 by lia.
  apply Z.shiftl_spec_low. lia.
Qed.

Lemma getProgKey_eq (g sh topo : Z) :
  getProgKey g sh topo
  = Z.lor (Js.toInt32 (Z.lor (Js.toInt32 (Js.shl g 13)) (Js.toInt32 (Js.shl sh 3))))
          (Js.toInt32 topo).
Proof. reflexivity. Qed.

(** A program key is never the value -1 that resets the previous key: one of
    its three low bits, those of the topology, is clear. *)
Lemma getProgKey_not_reset (g sh : Z) (topo : Geometry.Topology) :
  getProgKey g sh (topologyStringToId topo) <> -1.
Proof.
  intros H.
  assert (Hbit : exists i, 0 <= i < 3
            /\ Z.testbit (Js.toInt32 (topologyStringToId topo)) i = false).
  { destruct topo; [exists 0|exists 1|exists 0|exists 2|exists 0]; by vm_compute. }
  destruct Hbit as (i & Hi & Hfalse).
  assert (Htrue : Z.testbit (getProgKey g sh (topologyStringToId topo)) i = true).
  { rewrite H. apply Z.bits_m1. lia. }
  rewrite getProgKey_eq, Z.lor_spec, Hfalse, orb_false_r in Htrue.
  rewrite testbit_toInt32, Z.lor_spec in Htrue by lia.
  rewrite !testbit_toInt32 in Htrue by lia.
  rewrite (shl_testbit_low g 13 i), (shl_testbit_low sh 3 i) in Htrue by lia.
  done.
Qed.

#[local] Opaque Js.toInt32 Js.toUint32 Js.shl Js.bor Js.band.

Lemma deref_insert_eq (h : gmap nat (gmap Z nat)) (l : nat) (m : gmap Z nat) :
  deref (<[l := m]> h) l = m.
Proof. unfold deref. by rewrite lookup_insert_eq. Qed.

Lemma deref_insert_ne (h : gmap nat (gmap Z nat)) (l l' : nat) (m : gmap Z nat) :
  l <> l' -> deref (<[l := m]> h) l' = deref h l'.
Proof. intros. unfold deref. by rewrite lookup_insert_ne. Qed.

Lemma deref_Some_allocated (h : gmap nat (gmap Z nat)) (l : nat) (k : Z) (v : nat) :
  deref h l !! k = Some v -> is_Some (h !! l).
Proof.
  unfold deref. destruct (h !! l); [eauto|]. simpl. by rewrite lookup_empty.
Qed.

Lemma create_tablesOk : tablesOk create.
Proof.
  unfold tablesOk, create, deref. simpl. repeat split.
  - done.
  - apply lookup_singleton_ne. lia.
  - apply lookup_singleton_ne. lia.
  - intros g rt. by rewrite lookup_empty.
  - intros rt pk c.
    destruct (decide (rt = 1%nat)) as [->|Hne].
    + rewrite lookup_singleton_eq. simpl. by rewrite lookup_empty.
    + rewrite lookup_singleton_ne by done. simpl. by rewrite lookup_empty.
Qed.

Ltac pipeline_fields :=
  unfold withTables, withGlobals, withLayoutCaches, setDepthCompareKey in *;
  cbn [_bufferLayoutsCache _bindingNamesCache pipeHashes pipeTables nextObject
       _pipeCache _prevProgKey _prevPipeKey _pipeRT _pipeStateCaches
       _depthCompareKey _stencilMode _colorMask _multisampleCount
       _depthStencilAttachment _hdr device] in *.

Lemma sameGlobalState_refl (s : PipelineSystem.t) : sameGlobalState s s.
Proof. by repeat split. Qed.

(** [_updatePipeHash] establishes the invariant and keeps every stored
    pipeline where it was. *)
Lemma updatePipeHash_ok (s : PipelineSystem.t) :
  tablesOk s -> (_prevPipeKey s = globalKey s -> selected s) ->
  inv (_updatePipeHash s)
  /\ (forall g pk k p, cached s g pk k p -> cached (_updatePipeHash s) g pk k p)
  /\ device (_updatePipeHash s) = device s
  /\ sameGlobalState s (_updatePipeHash s).
Proof.
  intros Hok Hsel. unfold _updatePipeHash.
  destruct (decide (_prevPipeKey s = globalKey s)) as [Heq|Hne].
  { split; [|split; [done|split; [done|apply sameGlobalState_refl]]].
    split; [done|]. split; [by apply Hsel|done]. }
  destruct Hok as (H2 & H3 & H6 & H7).
  destruct (_pipeStateCaches s !! globalKey s) as [rt|] eqn:Hlk.
  - split; [|split; [done|split; [done|by repeat split]]].
    unfold inv, selected, tablesOk, globalKey. pipeline_fields.
    split; [done|]. split; [done|]. by split.
  - split; [|split; [|split; [done|by repeat split]]].
    + unfold inv, selected, tablesOk, globalKey.
      cbn [_prevPipeKey _pipeStateCaches _pipeRT _prevProgKey pipeTables
           pipeHashes nextObject _stencilMode _multisampleCount _colorMask
           _depthStencilAttachment _hdr].
      split; [done|]. split; [apply lookup_insert_eq|].
      split; [done|]. split; [|split].
      * intros l Hl. split; [apply H3; lia|].
        rewrite lookup_insert_ne by lia. apply H3. lia.
      * intros g rt. destruct (decide (g = globalKey s)) as [->|Hg].
        -- rewrite lookup_insert_eq. intros [= <-]. lia.
        -- rewrite lookup_insert_ne by done. intros Hrt.
           specialize (H6 _ _ Hrt). lia.
      * intros rt pk c.
        destruct (decide (rt = nextObject s)) as [->|Hrt].
        -- rewrite deref_insert_eq. by rewrite lookup_empty.
        -- rewrite deref_insert_ne by done. intros Hc.
           specialize (H7 _ _ _ Hc). lia.
    + intros g pk k p (rt & c & Hg & Hpk & Hk).
      exists rt, c.
      cbn [_pipeStateCaches pipeTables pipeHashes].
      split; [|split; [|done]].
      * rewrite lookup_insert_ne; [done|]. congruence.
      * rewrite deref_insert_ne; [done|]. specialize (H6 _ _ Hg). lia.
Qed.

(** A setter: new global fields, then [_updatePipeHash]. *)
Lemma update_after_globals (stencil : option Z) (mask msaa dsa : Z)
    (hdr0 : option Z) (s : PipelineSystem.t) :
  inv s ->
  inv (_updatePipeHash (withGlobals stencil mask msaa dsa hdr0 s))
  /\ (forall g pk k p, cached s g pk k p ->
        cached (_updatePipeHash (withGlobals stencil mask msaa dsa hdr0 s)) g pk k p)
  /\ device (_updatePipeHash (withGlobals stencil mask msaa dsa hdr0 s)) = device s.
Proof.
  intros (Hsync & Hsel & Hok).
  destruct (updatePipeHash_ok (withGlobals stencil mask msaa dsa hdr0 s))
    as (Hinv & Hmono & Hdev & _); [done|done|].
  split; [done|]. split; [|done].
  intros g pk k p Hc. by apply Hmono.
Qed.

Lemma sameGlobalState_keys (s s' : PipelineSystem.t) (st : State) :
  sameGlobalState s s' -> globalKey s' = globalKey s /\ drawKey st s' = drawKey st s.
Proof.
  intros (H1 & H2 & H3 & H4 & H5 & H6).
  unfold globalKey, drawKey. by rewrite H1, H2, H3, H4, H5, H6.
Qed.

Lemma sameTables_transfer (s s' : PipelineSystem.t) :
  sameTables s s' ->
  (selected s -> selected s') /\ (tablesOk s -> tablesOk s')
  /\ (forall g pk k p, cached s g pk k p -> cached s' g pk k p).
Proof.
  intros (H1 & H2 & H3 & H4 & H5 & H6 & H7 & H8).
  unfold selected, tablesOk, cached.
  rewrite H1, H2, H3, H4, H5, H6, H7, H8. done.
Qed.

Lemma sameTables_inv (s s' : PipelineSystem.t) :
  sameTables s s' -> sameGlobalState s s' -> inv s -> inv s'.
Proof.
  intros Ht Hg (Hsync & Hsel & Hok).
  destruct (sameTables_transfer s s' Ht) as (Hs & Ho & _).
  destruct (sameGlobalState_keys s s' {| customId := 0; data := 0; _blendModeId := 0 |} Hg)
    as (Hk & _).
  split; [|split; [by apply Hs|by apply Ho]].
  destruct Ht as (_ & _ & _ & _ & _ & -> & _). by rewrite Hk.
Qed.

Lemma createVertexBufferLayouts_frame (g : Geometry.t) (prog : GpuProgram.t)
    (s : PipelineSystem.t) :
  sameTables s (_createVertexBufferLayouts g prog s).2
  /\ sameGlobalState s (_createVertexBufferLayouts g prog s).2
  /\ device (_createVertexBufferLayouts g prog s).2 = device s.
Proof.
  unfold _createVertexBufferLayouts.
  destruct (_bufferLayoutsCache s !! layoutsKey g prog); [by repeat split|].
  destruct (vertexBufferLayouts g prog). by repeat split.
Qed.

Lemma getBufferNamesToBind_frame (g : Geometry.t) (prog : GpuProgram.t)
    (s : PipelineSystem.t) :
  sameTables s (getBufferNamesToBind g prog s).2
  /\ sameGlobalState s (getBufferNamesToBind g prog s).2
  /\ device (getBufferNamesToBind g prog s).2 = device s.
Proof.
  unfold getBufferNamesToBind.
  destruct (_bindingNamesCache s !! layoutsKey g prog); [by repeat split|].
  apply createVertexBufferLayouts_frame.
Qed.

Lemma createPipeline_frame (g : Geometry.t) (prog : GpuProgram.t)
    (topo : Geometry.Topology) (s : PipelineSystem.t) :
  (_createPipeline g prog topo s).1 = length (device s)
  /\ sameTables s (_createPipeline g prog topo s).2
  /\ sameGlobalState s (_createPipeline g prog topo s).2
  /\ length (device (_createPipeline g prog topo s).2) = S (length (device s)).
Proof.
  unfold _createPipeline.
  destruct (createVertexBufferLayouts_frame g prog s) as (Ht & Hg & Hd).
  destruct (_createVertexBufferLayouts g prog s) as [buffers s1].
  cbn [fst snd] in *. pipeline_fields.
  split; [by rewrite Hd|]. split; [exact Ht|]. split; [exact Hg|].
  rewrite length_app, Hd. simpl. lia.
Qed.

(** Selecting the sub-cache of a program key keeps the partition and every
    stored pipeline, and leaves [_pipeCache] on the sub-cache of that key. *)
Lemma selectPipeCache_ok (pk : Z) (s : PipelineSystem.t) :
  pk <> -1 -> selected s -> tablesOk s ->
  selected (selectPipeCache pk s) /\ tablesOk (selectPipeCache pk s)
  /\ (forall g k0 k p, cached s g k0 k p -> cached (selectPipeCache pk s) g k0 k p)
  /\ deref (pipeTables (selectPipeCache pk s)) (_pipeRT s) !! pk
       = Some (_pipeCache (selectPipeCache pk s))
  /\ _prevPipeKey (selectPipeCache pk s) = _prevPipeKey s
  /\ _pipeRT (selectPipeCache pk s) = _pipeRT s
  /\ _pipeStateCaches (selectPipeCache pk s) = _pipeStateCaches s
  /\ sameGlobalState s (selectPipeCache pk s)
  /\ device (selectPipeCache pk s) = device s.
Proof.
  intros Hpk Hsel (H2 & H3 & H6 & H7). unfold selectPipeCache.
  destruct (decide (_prevProgKey s = pk)) as [Heq|Hne].
  { split; [done|]. split; [done|]. split; [done|].
    split; [rewrite <- Heq; apply H2; congruence|].
    by repeat split. }
  destruct (deref (pipeTables s) (_pipeRT s) !! pk) as [c|] eqn:Hlk.
  - split; [done|]. split.
    { unfold tablesOk. pipeline_fields.
      split; [done|]. split; [exact H3|]. split; [exact H6|exact H7]. }
    split; [done|]. split; [done|]. by repeat split.
  - assert (Hrt : (_pipeRT s < nextObject s)%nat) by (eapply H6; exact Hsel).
    split; [done|]. split.
    { unfold tablesOk. pipeline_fields.
      split; [intros _; rewrite deref_insert_eq; apply lookup_insert_eq|].
      split; [|split].
      - intros l Hl. rewrite !lookup_insert_ne by lia. apply H3. lia.
      - intros g rt Hg. specialize (H6 _ _ Hg). lia.
      - intros rt k0 c.
        destruct (decide (rt = _pipeRT s)) as [->|Hr].
        + rewrite deref_insert_eq.
          destruct (decide (k0 = pk)) as [->|Hk].
          * rewrite lookup_insert_eq. intros [= <-]. lia.
          * rewrite lookup_insert_ne by done. intros Hc.
            specialize (H7 _ _ _ Hc). lia.
        + rewrite deref_insert_ne by done. intros Hc.
          specialize (H7 _ _ _ Hc). lia. }
    split.
    { intros g k0 k p (rt & c & Hg & Hk0 & Hk). exists rt, c.
      pipeline_fields. split; [done|]. split.
      - destruct (decide (rt = _pipeRT s)) as [->|Hr].
        + rewrite deref_insert_eq.
          rewrite lookup_insert_ne; [done|]. congruence.
        + by rewrite deref_insert_ne.
      - rewrite deref_insert_ne; [done|].
        specialize (H7 _ _ _ Hk0). lia. }
    pipeline_fields.
    split; [rewrite deref_insert_eq; apply lookup_insert_eq|].
    by repeat split.
Qed.

(** [getPipeline] keeps the invariant and every stored pipeline, and the
    pipeline it returns is stored under the keys of the call. *)
Lemma getPipeline_ok (g : Geometry.t) (prog : GpuProgram.t) (st : State)
    (topo : option Geometry.Topology) (s : PipelineSystem.t) :
  inv s ->
  inv (getPipeline g prog st topo s).2
  /\ (forall g0 k0 k p, cached s g0 k0 k p ->
        cached (getPipeline g prog st topo s).2 g0 k0 k p)
  /\ cached (getPipeline g prog st topo s).2 (globalKey s)
       (progKeyOf g prog topo) (drawKey st s) (getPipeline g prog st topo s).1
  /\ sameGlobalState s (getPipeline g prog st topo s).2.
Proof.
  intros (Hsync & Hsel & Hok).
  unfold getPipeline. fold (progKeyOf g prog topo).
  pose proof (getProgKey_not_reset (Geometry._layoutKey g)
                (GpuProgram._layoutKey prog)
                (default (Geometry.topology g) topo)) as Hpk.
  fold (progKeyOf g prog topo) in Hpk.
  destruct (selectPipeCache_ok _ s Hpk Hsel Hok)
    as (Hsel1 & Hok1 & Hmono1 & Hcache1 & Hprev1 & Hrt1 & Hcaches1 & Hg1 & Hdev1).
  set (s1 := selectPipeCache (progKeyOf g prog topo) s) in *.
  destruct (sameGlobalState_keys s s1 st Hg1) as (Hgk1 & Hdk1).
  rewrite Hdk1.
  assert (Hstore : _pipeStateCaches s1 !! globalKey s = Some (_pipeRT s)).
  { rewrite Hcaches1, <- Hsync. exact Hsel. }
  destruct (deref (pipeHashes s1) (_pipeCache s1) !! drawKey st s) as [p|] eqn:Hhit.
  - cbn [fst snd].
    split; [split; [by rewrite Hprev1, Hgk1|by split]|].
    split; [done|]. split; [|done].
    exists (_pipeRT s), (_pipeCache s1). by repeat split.
  - destruct (createPipeline_frame g prog (default (Geometry.topology g) topo) s1)
      as (Hp & Ht2 & Hg2 & _).
    destruct (_createPipeline g prog (default (Geometry.topology g) topo) s1)
      as [p s2].
    cbn [fst snd] in *.
    destruct Ht2 as (Eh & Et & En & Ec & Epk & Egk & Ert & Ecs).
    destruct Hok1 as (H2 & H3 & H6 & H7).
    assert (Hc : (_pipeCache s1 < nextObject s1)%nat) by (eapply H7; exact Hcache1).
    split.
    { split.
      { pipeline_fields. rewrite Egk, Hprev1, Hsync.
        destruct Hg1 as (E1 & E2 & E3 & E4 & E5 & _).
        destruct Hg2 as (F1 & F2 & F3 & F4 & F5 & _).
        unfold globalKey. pipeline_fields.
        by rewrite F1, F2, F3, F4, F5, E1, E2, E3, E4, E5. }
      split.
      { unfold selected. pipeline_fields. rewrite Ecs, Egk, Ert. exact Hsel1. }
      unfold tablesOk. pipeline_fields. rewrite Eh, Et, En, Ec, Epk, Ert, Ecs.
      split; [done|]. split; [|by split].
      intros l Hl. rewrite lookup_insert_ne by lia. by apply H3. }
    split.
    { intros g0 k0 k p0 Hcached.
      destruct (Hmono1 _ _ _ _ Hcached) as (rt & c & Hg0 & Hk0 & Hk).
      exists rt, c. pipeline_fields. rewrite Eh, Et, Ec, Ecs.
      split; [done|]. split; [done|].
      destruct (decide (c = _pipeCache s1)) as [->|Hne].
      - rewrite deref_insert_eq. rewrite lookup_insert_ne; [done|]. congruence.
      - by rewrite deref_insert_ne. }
    split.
    { exists (_pipeRT s), (_pipeCache s1). pipeline_fields.
      rewrite Eh, Et, Ec, Ecs. split; [done|]. split; [done|].
      rewrite deref_insert_eq. apply lookup_insert_eq. }
    destruct Hg1 as (E1 & E2 & E3 & E4 & E5 & E6).
    destruct Hg2 as (F1 & F2 & F3 & F4 & F5 & F6).
    unfold sameGlobalState. pipeline_fields.
    by rewrite F1, F2, F3, F4, F5, F6, E1, E2, E3, E4, E5, E6.
Qed.

(** [getPipeline] leaves the previous global key and the partition alone. *)
Lemma getPipeline_ok_prev (g : Geometry.t) (prog : GpuProgram.t) (st : State)
    (topo : option Geometry.Topology) (s : PipelineSystem.t) :
  _prevPipeKey (getPipeline g prog st topo s).2 = _prevPipeKey s
  /\ _pipeRT (getPipeline g prog st topo s).2 = _pipeRT s.
Proof.
  unfold getPipeline.
  set (pk := getProgKey _ _ _).
  assert (Hsel : _prevPipeKey (selectPipeCache pk s) = _prevPipeKey s
                 /\ _pipeRT (selectPipeCache pk s) = _pipeRT s).
  { unfold selectPipeCache. destruct (decide _); [done|].
    by destruct (deref (pipeTables s) (_pipeRT s) !! pk). }
  set (s1 := selectPipeCache pk s) in *.
  destruct (deref (pipeHashes s1) (_pipeCache s1) !! drawKey st s1); [done|].
  destruct (createPipeline_frame g prog (default (Geometry.topology g) topo) s1)
    as (_ & (_ & _ & _ & _ & _ & Hk & Hr & _) & _).
  destruct (_createPipeline g prog (default (Geometry.topology g) topo) s1)
    as [p s2].
  cbn [fst snd] in *. pipeline_fields. rewrite Hk, Hr. done.
Qed.

(** A pipeline stored under the keys of a call is what the call returns,
    and nothing is created. *)
Lemma getPipeline_hit (g : Geometry.t) (prog : GpuProgram.t) (st : State)
    (topo : option Geometry.Topology) (s : PipelineSystem.t) (p : nat) :
  inv s ->
  cached s (globalKey s) (progKeyOf g prog topo) (drawKey st s) p ->
  (getPipeline g prog st topo s).1 = p
  /\ device (getPipeline g prog st topo s).2 = device s.
Proof.
  intros (Hsync & Hsel & Hok) Hcached.
  unfold getPipeline. fold (progKeyOf g prog topo).
  pose proof (getProgKey_not_reset (Geometry._layoutKey g)
                (GpuProgram._layoutKey prog)
                (default (Geometry.topology g) topo)) as Hpk.
  fold (progKeyOf g prog topo) in Hpk.
  destruct (selectPipeCache_ok _ s Hpk Hsel Hok)
    as (Hsel1 & Hok1 & Hmono1 & Hcache1 & Hprev1 & Hrt1 & Hcaches1 & Hg1 & Hdev1).
  set (s1 := selectPipeCache (progKeyOf g prog topo) s) in *.
  destruct (sameGlobalState_keys s s1 st Hg1) as (Hgk1 & Hdk1).
  rewrite Hdk1.
  destruct (Hmono1 _ _ _ _ Hcached) as (rt & c & Hg0 & Hk0 & Hk).
  assert (rt = _pipeRT s) as ->.
  { rewrite Hcaches1, <- Hsync in Hg0. unfold selected in Hsel. congruence. }
  assert (c = _pipeCache s1) as -> by congruence.
  rewrite Hk. by split.
Qed.

Lemma step_ok (o : op) (s : PipelineSystem.t) :
  inv s ->
  inv (step s o)
  /\ (forall g pk k p, cached s g pk k p -> cached (step s o) g pk k p).
Proof.
  intros Hinv. destruct o as [n|rt|m|k|m|g prog st topo|g prog]; cbn [step].
  - unfold setMultisampleCount. destruct (decide _); [done|].
    destruct (update_after_globals (_stencilMode s) (_colorMask s) n
                (_depthStencilAttachment s) (_hdr s) s Hinv) as (? & ? & _).
    by split.
  - unfold setRenderTarget.
    match goal with
    | |- context [withGlobals ?a ?b ?c ?d ?e s] =>
        destruct (update_after_globals a b c d e s Hinv) as (? & ? & _)
    end.
    by split.
  - unfold setColorMask. destruct (decide _); [done|].
    destruct (update_after_globals (_stencilMode s) m (_multisampleCount s)
                (_depthStencilAttachment s) (_hdr s) s Hinv) as (? & ? & _).
    by split.
  - split; [|done]. exact Hinv.
  - unfold setStencilMode. destruct (decide _); [done|].
    destruct (update_after_globals (Some m) (_colorMask s) (_multisampleCount s)
                (_depthStencilAttachment s) (_hdr s) s Hinv) as (? & ? & _).
    by split.
  - destruct (getPipeline_ok g prog st topo s Hinv) as (? & ? & _). by split.
  - destruct (getBufferNamesToBind_frame g prog s) as (Ht & Hg & _).
    split; [by eapply sameTables_inv|].
    by apply sameTables_transfer.
Qed.

Lemma run_ok (ops : list op) (s : PipelineSystem.t) :
  inv s ->
  inv (run ops s)
  /\ (forall g pk k p, cached s g pk k p -> cached (run ops s) g pk k p).
Proof.
  revert s. induction ops as [|o ops IH]; intros s Hinv; [done|].
  unfold run. cbn [foldl]. fold (run ops (step s o)).
  destruct (step_ok o s Hinv) as (Hinv1 & Hmono1).
  destruct (IH _ Hinv1) as (Hinv2 & Hmono2).
  split; [done|]. intros g pk k p Hc. by apply Hmono2, Hmono1.
Qed.

(** The invariant holds once the context is set up. *)
Lemma contextChange_inv (DISABLED : Z) : inv (contextChange DISABLED create).
Proof.
  unfold contextChange, setStencilMode. cbn [_stencilMode create].
  destruct (decide (None = Some DISABLED)) as [|_]; [done|].
  match goal with
  | |- inv (_updatePipeHash (_updatePipeHash ?s0)) =>
      destruct (updatePipeHash_ok s0) as (Hinv & _)
  end.
  - apply create_tablesOk.
  - intros H. exfalso. revert H. by vm_compute.
  - destruct Hinv as (Hs & Hsel & Hok).
    by destruct (updatePipeHash_ok _ Hok (fun _ => Hsel)) as (? & _).
Qed.

Lemma selectPipeCache_device (pk : Z) (s : PipelineSystem.t) :
  device (selectPipeCache pk s) = device s.
Proof.
  unfold selectPipeCache. destruct (decide _); [done|].
  by destruct (deref (pipeTables s) (_pipeRT s) !! pk).
Qed.

(** A call creates at most one pipeline. *)
Lemma getPipeline_creates_at_most_one (g : Geometry.t) (prog : GpuProgram.t)
    (st : State) (topo : option Geometry.Topology) (s : PipelineSystem.t) :
  (length (device (getPipeline g prog st topo s).2) <= S (length (device s)))%nat.
Proof.
  unfold getPipeline.
  set (s1 := selectPipeCache _ s).
  pose proof (selectPipeCache_device
                (getProgKey (Geometry._layoutKey g) (GpuProgram._layoutKey prog)
                   (topologyStringToId (default (Geometry.topology g) topo))) s)
    as Hd. fold s1 in Hd.
  destruct (deref (pipeHashes s1) (_pipeCache s1) !! drawKey st s1).
  - cbn [snd]. rewrite Hd. lia.
  - destruct (createPipeline_frame g prog (default (Geometry.topology g) topo) s1)
      as (_ & _ & _ & Hlen).
    destruct (_createPipeline g prog (default (Geometry.topology g) topo) s1)
      as [p s2].
    cbn [fst snd] in *. pipeline_fields. rewrite Hlen, Hd. lia.
Qed.

(** A later call with the same arguments, under the same global state,
    returns the pipeline of the first call and creates nothing. *)
Lemma getPipeline_again (g : Geometry.t) (prog : GpuProgram.t) (st : State)
    (topo : option Geometry.Topology) (ops : list op) (s : PipelineSystem.t) :
  inv s ->
  sameGlobalState s (run ops (getPipeline g prog st topo s).2) ->
  (getPipeline g prog st topo (run ops (getPipeline g prog st topo s).2)).1
    = (getPipeline g prog st topo s).1
  /\ device (getPipeline g prog st topo (run ops (getPipeline g prog st topo s).2)).2
     = device (run ops (getPipeline g prog st topo s).2).
Proof.
  intros Hinv Hsame.
  destruct (getPipeline_ok g prog st topo s Hinv) as (Hinv1 & _ & Hc1 & _).
  destruct (run_ok ops _ Hinv1) as (Hinv2 & Hmono).
  destruct (sameGlobalState_keys _ _ st Hsame) as (Hgk & Hdk).
  apply getPipeline_hit; [done|].
  rewrite Hgk, Hdk. by apply Hmono.
Qed.

(** Only a switch of partition changes the previous global key, and it
    resets the previous program key. *)
Lemma switch_resets_prevProgKey (o : op) (s : PipelineSystem.t) :
  _prevPipeKey (step s o) <> _prevPipeKey s -> _prevProgKey (step s o) = -1.
Proof.
  assert (Hup : forall s0 : PipelineSystem.t,
             _prevPipeKey (_updatePipeHash s0) <> _prevPipeKey s0 ->
             _prevProgKey (_updatePipeHash s0) = -1).
  { intros s0. unfold _updatePipeHash.
    destruct (decide (_prevPipeKey s0 = globalKey s0)); [done|].
    by destruct (_pipeStateCaches s0 !! globalKey s0). }
  destruct o as [n|rt|m|k|m|g prog st topo|g prog]; cbn [step].
  - unfold setMultisampleCount. destruct (decide _); [done|].
    intros H. apply Hup. exact H.
  - intros H. apply Hup. exact H.
  - unfold setColorMask. destruct (decide _); [done|].
    intros H. apply Hup. exact H.
  - done.
  - unfold setStencilMode. destruct (decide _); [done|].
    intros H. apply Hup. exact H.
  - destruct (getPipeline_ok_prev g prog st topo s) as (-> & _). done.
  - destruct (getBufferNamesToBind_frame g prog s)
      as ((_ & _ & _ & _ & _ & -> & _) & _). done.
Qed.

(** Every state reached from [contextChange] satisfies the invariant. *)
Lemma reachable_inv (DISABLED : Z) (ops : list op) :
  inv (run ops (contextChange DISABLED create)).
Proof. apply run_ok, contextChange_inv. Qed.

Lemma run_app (ops1 ops2 : list op) (s : PipelineSystem.t) :
  run (ops1 ++ ops2) s = run ops2 (run ops1 s).
Proof. unfold run. apply foldl_app. Qed.

(** C2.  From global state A, in a state reached from [contextChange],
    after a pipeline was built, any operations
    [toB] that change the global render-target state and build pipelines
    under it, followed by any operations [toA] that bring the global state
    back to A: the call repeated under A returns the pipeline built before
    and creates nothing.  Every pipeline stored in any partition before or
    during the excursion is still stored there afterwards, and every
    operation that changes the previous global key resets the previous
    program key to -1, which no program key equals. *)
Theorem partition_reused_after_round_trip (g : Geometry.t) (prog : GpuProgram.t)
    (st : State) (topo : option Geometry.Topology) (toB toA : list op)
    (s : PipelineSystem.t) :
  inv s ->
  sameGlobalState s (run toA (run toB (getPipeline g prog st topo s).2)) ->
  (getPipeline g prog st topo
     (run toA (run toB (getPipeline g prog st topo s).2))).1
    = (getPipeline g prog st topo s).1
  /\ device (getPipeline g prog st topo
               (run toA (run toB (getPipeline g prog st topo s).2))).2
     = device (run toA (run toB (getPipeline g prog st topo s).2))
  /\ (forall g0 pk k p,
        cached (getPipeline g prog st topo s).2 g0 pk k p ->
        cached (run toB (getPipeline g prog st topo s).2) g0 pk k p)
  /\ (forall g0 pk k p,
        cached (run toB (getPipeline g prog st topo s).2) g0 pk k p ->
        cached (run toA (run toB (getPipeline g prog st topo s).2)) g0 pk k p)
  /\ (forall s' o, _prevPipeKey (step s' o) <> _prevPipeKey s' ->
                   _prevProgKey (step s' o) = -1)
  /\ (forall g0 sh t0, getProgKey g0 sh (topologyStringToId t0) <> -1).
Proof.
  intros Hinv Hsame.
  destruct (getPipeline_ok g prog st topo s Hinv) as (Hinv1 & _).
  destruct (run_ok toB _ Hinv1) as (HinvB & HmonoB).
  destruct (run_ok toA _ HinvB) as (_ & HmonoA).
  rewrite <- run_app in Hsame |- *.
  destruct (getPipeline_again g prog st topo (toB ++ toA) s Hinv Hsame) as (H1 & H2).
  split; [exact H1|]. split; [exact H2|].
  split; [exact HmonoB|]. rewrite run_app. split; [exact HmonoA|].
  split; [intros s' o; apply switch_resets_prevProgKey|].
  apply getProgKey_not_reset.
Qed.

(** Colour mask 15, then 0 with a pipeline built under it, then 15 again. *)
Lemma partition_reused_after_round_trip_witness :
  (getPipeline Sample.geometry Sample.program Sample.state None
     (run [SetColorMask 15]
        (run [SetColorMask 0;
              GetPipeline Sample.geometry Sample.program Sample.state None]
           (getPipeline Sample.geometry Sample.program Sample.state None
              Sample.pipelines).2))).1
  = (getPipeline Sample.geometry Sample.program Sample.state None
       Sample.pipelines).1
  /\ length (device
       (getPipeline Sample.geometry Sample.program Sample.state None
          (run [SetColorMask 15]
             (run [SetColorMask 0;
                   GetPipeline Sample.geometry Sample.program Sample.state None]
                (getPipeline Sample.geometry Sample.program Sample.state None
                   Sample.pipelines).2))).2) = 2%nat.
Proof.
  split; [|by vm_compute].
  apply (partition_reused_after_round_trip Sample.geometry Sample.program
           Sample.state None
           [SetColorMask 0;
            GetPipeline Sample.geometry Sample.program Sample.state None]
           [SetColorMask 15] Sample.pipelines).
  - apply contextChange_inv.
  - unfold sameGlobalState. vm_compute. by repeat split.
Defined.

(** C10.  When the depth bit of the attachment code is clear, the global
    key does not depend on the stencil state id; and in a state whose
    attachment code has the bit clear, [setStencilMode] records the mode and
    leaves the previous global key, the partition, the partition table and
    the previous program key as they were. *)
Theorem stencil_mode_without_depth_keeps_partition (renderTarget : Z) :
  Js.band renderTarget 1 = 0 ->
  (forall s1 s2 multiSampleCount colorMask hdr0,
     getGlobalStateKey s1 multiSampleCount colorMask renderTarget hdr0
     = getGlobalStateKey s2 multiSampleCount colorMask renderTarget hdr0)
  /\ (forall (s : PipelineSystem.t) (stencilMode : Z),
        inv s -> _depthStencilAttachment s = renderTarget ->
        _stencilMode (setStencilMode stencilMode s) = Some stencilMode
        /\ _prevPipeKey (setStencilMode stencilMode s) = _prevPipeKey s
        /\ _pipeRT (setStencilMode stencilMode s) = _pipeRT s
        /\ _pipeStateCaches (setStencilMode stencilMode s) = _pipeStateCaches s
        /\ _prevProgKey (setStencilMode stencilMode s) = _prevProgKey s
        /\ _pipeCache (setStencilMode stencilMode s) = _pipeCache s).
Proof.
  intros Hbit.
  assert (Hkey : forall s1 s2 ms cm h,
             getGlobalStateKey s1 ms cm renderTarget h
             = getGlobalStateKey s2 ms cm renderTarget h).
  { intros. unfold getGlobalStateKey. by rewrite Hbit. }
  split; [exact Hkey|].
  intros s m (Hsync & _) Hrt. unfold setStencilMode.
  destruct (decide (_stencilMode s = Some m)) as [Heq|Hne]; [by repeat split|].
  unfold _updatePipeHash.
  match goal with
  | |- context [decide (?a = ?b)] => destruct (decide (a = b)) as [_|Hk]
  end.
  - by repeat split.
  - exfalso. apply Hk. pipeline_fields. rewrite Hsync.
    unfold globalKey. pipeline_fields. rewrite Hrt. apply Hkey.
Qed.

Lemma stencil_mode_without_depth_keeps_partition_witness :
  PipelineSystem.getGlobalStateKey 0 1 15 0 0
  = PipelineSystem.getGlobalStateKey 2 1 15 0 0
  /\ _pipeRT (setStencilMode 2 Sample.pipelines) = _pipeRT Sample.pipelines.
Proof.
  destruct (stencil_mode_without_depth_keeps_partition 0) as (H1 & H2).
  - by vm_compute.
  - split; [apply H1|].
    apply (H2 Sample.pipelines 2); [apply contextChange_inv|by vm_compute].
Defined.

End PipelineSystemFacts.

(** ** Bind groups *)

Section BindGroupFacts.

Import BindGroup.


Lemma pairOf_setPair (prog : GpuProgram.t) (rec : GroupProgPair) (bg : BindGroup.t) :
  _keys (setPair prog rec bg) !! GpuProgram._layoutKey prog = Some rec.
Proof. unfold setPair. cbn. apply lookup_insert_eq. Qed.




(** After the revision counter advanced, no record is up to date. *)
Lemma stale_after_bump (prog : GpuProgram.t) (bg bg' : BindGroup.t) :
  keysFresh bg -> _updateID bg' = _updateID bg + 1 -> _keys bg' = _keys bg ->
  keysFresh bg' /\ dirtyId (pairOf prog bg') <> _updateID bg'.
Proof.
  intros (H0 & Hk) Hu Hks. split.
  - split; [lia|]. intros k rec. rewrite Hks. intros Hr.
    specialize (Hk _ _ Hr). lia.
  - unfold pairOf. rewrite Hks.
    destruct (_keys bg !! GpuProgram._layoutKey prog) as [rec|] eqn:Hr; cbn.
    + specialize (Hk _ _ Hr). lia.
    + lia.
Qed.

Lemma getGpuKey_stale (prog : GpuProgram.t) (group : nat) (rs : gmap nat Resource)
    (keyParts : list string) (bg : BindGroup.t) :
  dirtyId (pairOf prog bg) <> _updateID bg ->
  getGpuKey prog group rs keyParts bg
  = recomputeKey prog group rs keyParts (setPair prog (pairOf prog bg) bg).
Proof.
  intros H. unfold getGpuKey. by rewrite bool_decide_eq_false_2.
Qed.



End BindGroupFacts.

(** ** The command encoder *)

Section GpuEncoderFacts.

Import GpuEncoderSystem.

Ltac encoder_fields :=
  unfold withBound, withEncoder, setLastLayout in *;
  cbn [renderPassEncoder computePassEncoder ended _boundBindGroup
       _boundVertexBuffer _boundIndexBuffer _boundPipeline _boundCompute
       pipeline bindGroups encoder
       BindGroup.resources BindGroup._keys BindGroup._updateID
       BindGroup._lastLayout] in *.

Lemma onRenderPass_spec (c : Command) (e e' : GpuEncoderSystem.t) :
  onRenderPass c e = Some e' ->
  exists calls,
    renderPassEncoder e = Some calls
    /\ renderPassEncoder e' = Some (calls ++ [c])
    /\ computePassEncoder e' = computePassEncoder e
    /\ _boundBindGroup e' = _boundBindGroup e
    /\ sameGeometryBound e e'.
Proof.
  unfold onRenderPass. destruct (renderPassEncoder e) as [calls|]; [|done].
  cbn. intros [= <-]. exists calls. by repeat split.
Qed.

Lemma onEitherPass_spec (c : Command) (e e' : GpuEncoderSystem.t) :
  onEitherPass c e = Some e' ->
  exists calls,
    currentPass e = Some calls
    /\ currentPass e' = Some (calls ++ [c])
    /\ _boundBindGroup e' = _boundBindGroup e
    /\ sameGeometryBound e e'.
Proof.
  unfold onEitherPass, currentPass.
  destruct (renderPassEncoder e) as [calls|] eqn:Hr.
  - intros H. destruct (onRenderPass_spec _ _ _ H) as (calls' & H1 & H2 & _ & H3 & H4).
    exists calls. rewrite H2. split; [done|]. split; [congruence|]. by split.
  - destruct (computePassEncoder e) as [calls|]; [|done].
    cbn. intros [= <-]. exists calls. by repeat split.
Qed.

Lemma setPipeline_spec (p : nat) (e e' : GpuEncoderSystem.t) :
  setPipeline p e = Some e' ->
  _boundPipeline e' = Js.obj p
  /\ _boundVertexBuffer e' = _boundVertexBuffer e
  /\ _boundIndexBuffer e' = _boundIndexBuffer e
  /\ _boundBindGroup e' = _boundBindGroup e.
Proof.
  unfold setPipeline. destruct (decide (_boundPipeline e = Js.obj p)) as [Heq|_].
  - intros [= <-]. by repeat split.
  - intros H. destruct (onRenderPass_spec _ _ _ H) as (_ & _ & _ & _ & Hg & (Hp & Hv & Hi)).
    encoder_fields. by repeat split.
Qed.

Lemma setPipeline_noop (p : nat) (e : GpuEncoderSystem.t) :
  _boundPipeline e = Js.obj p -> setPipeline p e = Some e.
Proof. intros H. unfold setPipeline. by rewrite decide_True. Qed.

Lemma setVertexBuffer_spec (i : Z) (b : Js.ref) (e e' : GpuEncoderSystem.t) :
  _setVertexBuffer i b e = Some e' ->
  slot (_boundVertexBuffer e') i = b
  /\ (forall j, j <> i -> _boundVertexBuffer e' !! j = _boundVertexBuffer e !! j)
  /\ _boundPipeline e' = _boundPipeline e
  /\ _boundIndexBuffer e' = _boundIndexBuffer e
  /\ _boundBindGroup e' = _boundBindGroup e.
Proof.
  unfold _setVertexBuffer, slot.
  destruct (decide (default Js.undefined (_boundVertexBuffer e !! i) = b)) as [Heq|_].
  - intros [= <-]. by repeat split.
  - intros H. destruct (onRenderPass_spec _ _ _ H) as (_ & _ & _ & _ & Hg & (Hp & Hv & Hi)).
    encoder_fields. rewrite Hv.
    split; [by rewrite lookup_insert_eq|].
    split; [intros j Hj; by rewrite lookup_insert_ne|].
    by repeat split.
Qed.

Lemma bindVertexBuffers_spec (bufs : list Js.ref) (i : Z) (e e' : GpuEncoderSystem.t) :
  bindVertexBuffers i bufs e = Some e' ->
  (forall n b, bufs !! n = Some b ->
     slot (_boundVertexBuffer e') (i + Z.of_nat n) = b)
  /\ (forall j, j < i -> _boundVertexBuffer e' !! j = _boundVertexBuffer e !! j)
  /\ _boundPipeline e' = _boundPipeline e
  /\ _boundIndexBuffer e' = _boundIndexBuffer e
  /\ _boundBindGroup e' = _boundBindGroup e.
Proof.
  revert i e. induction bufs as [|b bufs IH]; intros i e; cbn [bindVertexBuffers].
  - intros [= <-]. split; [intros n b; by rewrite lookup_nil|]. by repeat split.
  - destruct (_setVertexBuffer i b e) as [e1|] eqn:H1; [|done]. cbn [mbind option_bind].
    intros H2.
    destruct (setVertexBuffer_spec _ _ _ _ H1) as (Hs & Ho & Hp & Hi & Hg).
    destruct (IH _ _ H2) as (Hs' & Ho' & Hp' & Hi' & Hg').
    split; [|split; [|split; [congruence|split; congruence]]].
    + intros [|n] b0 Hb.
      * cbn in Hb. injection Hb as <-.
        unfold slot in *. rewrite Z.add_0_r, Ho' by lia. exact Hs.
      * cbn in Hb. specialize (Hs' n b0 Hb).
        by replace (i + Z.of_nat (S n)) with (i + 1 + Z.of_nat n) by lia.
    + intros j Hj. rewrite Ho' by lia. apply Ho. lia.
Qed.

Lemma bindVertexBuffers_noop (bufs : list Js.ref) (i : Z) (e : GpuEncoderSystem.t) :
  (forall n b, bufs !! n = Some b ->
     slot (_boundVertexBuffer e) (i + Z.of_nat n) = b) ->
  bindVertexBuffers i bufs e = Some e.
Proof.
  revert i. induction bufs as [|b bufs IH]; intros i H; cbn [bindVertexBuffers]; [done|].
  assert (Hb : _setVertexBuffer i b e = Some e).
  { unfold _setVertexBuffer. rewrite decide_True; [done|].
    specialize (H 0%nat b eq_refl). by rewrite Z.add_0_r in H. }
  rewrite Hb. cbn [mbind option_bind]. apply IH.
  intros n b0 Hn. specialize (H (S n) b0 Hn).
  by replace (i + 1 + Z.of_nat n) with (i + Z.of_nat (S n)) by lia.
Qed.

Lemma setIndexBuffer_spec (b : Geometry.Buffer) (e e' : GpuEncoderSystem.t) :
  _setIndexBuffer b e = Some e' ->
  _boundIndexBuffer e' = Js.obj (Geometry.uid b)
  /\ _boundPipeline e' = _boundPipeline e
  /\ _boundVertexBuffer e' = _boundVertexBuffer e
  /\ _boundBindGroup e' = _boundBindGroup e.
Proof.
  unfold _setIndexBuffer.
  destruct (decide (_boundIndexBuffer e = Js.obj (Geometry.uid b))) as [Heq|_].
  - intros [= <-]. by repeat split.
  - intros H. destruct (onRenderPass_spec _ _ _ H) as (_ & _ & _ & _ & Hg & (Hp & Hv & Hi)).
    encoder_fields. by repeat split.
Qed.

Lemma setIndexBuffer_noop (b : Geometry.Buffer) (e : GpuEncoderSystem.t) :
  _boundIndexBuffer e = Js.obj (Geometry.uid b) -> _setIndexBuffer b e = Some e.
Proof. intros H. unfold _setIndexBuffer. by rewrite decide_True. Qed.

(** What [setBindGroup] does when it does not return early. *)
Lemma setBindGroup_binds (index : Z) (g : nat) (prog : GpuProgram.t)
    (r : Renderer) (bg : BindGroup.t) (calls : list Command) :
  bindGroups r !! g = Some bg ->
  currentPass (encoder r) = Some calls ->
  slot (_boundBindGroup (encoder r)) index <> Js.obj g
  \/ BindGroup._lastLayout bg <> GpuProgram._layoutKey prog ->
  exists r',
    setBindGroup index g prog r = Some r'
    /\ currentPass (encoder r')
       = Some (calls ++ [setBindGroupCmd index g (GpuProgram._layoutKey prog)])
    /\ bindGroups r' = <[g := setLastLayout (GpuProgram._layoutKey prog) bg]> (bindGroups r)
    /\ _boundBindGroup (encoder r') = <[index := Js.obj g]> (_boundBindGroup (encoder r))
    /\ pipeline r' = pipeline r
    /\ sameGeometryBound (encoder r) (encoder r')
    /\ (is_Some (renderPassEncoder (encoder r)) ->
        is_Some (renderPassEncoder (encoder r'))).
Proof.
  intros Hbg Hpass Hne. unfold setBindGroup. rewrite Hbg. cbn [mbind option_bind].
  assert (Hc : bool_decide (default Js.undefined (_boundBindGroup (encoder r) !! index)
                            = Js.obj g)
               && bool_decide (BindGroup._lastLayout bg = GpuProgram._layoutKey prog)
               = false).
  { apply andb_false_iff. destruct Hne as [H|H]; [left|right];
      by apply bool_decide_eq_false_2. }
  rewrite Hc.
  match goal with
  | |- context [onEitherPass ?c ?e1] =>
      assert (He : exists e2, onEitherPass c e1 = Some e2
                   /\ currentPass e2 = Some (calls ++ [c])
                   /\ _boundBindGroup e2 = _boundBindGroup e1
                   /\ sameGeometryBound e1 e2
                   /\ (is_Some (renderPassEncoder e1) ->
                       is_Some (renderPassEncoder e2)))
  end.
  { unfold onEitherPass, onRenderPass, currentPass in *. encoder_fields.
    destruct (renderPassEncoder (encoder r)) as [cs|].
    - injection Hpass as ->. cbn. eexists. by repeat split.
    - rewrite Hpass. cbn. eexists. split; [done|]. split; [done|].
      split; [done|]. split; [by repeat split|]. by intros [? ?]. }
  destruct He as (e2 & -> & Hp2 & Hg2 & Hs2 & Ho2). cbn [mbind option_bind].
  eexists. split; [reflexivity|]. encoder_fields.
  split; [exact Hp2|]. split; [done|]. split; [exact Hg2|]. split; [done|].
  split; [exact Hs2|exact Ho2].
Qed.

(** The facts that follow from the description of a bind. *)
Lemma setBindGroup_after (index : Z) (g : nat) (prog : GpuProgram.t)
    (r r' : Renderer) (bg : BindGroup.t) (calls : list Command) :
  currentPass (encoder r) = Some calls ->
  currentPass (encoder r')
    = Some (calls ++ [setBindGroupCmd index g (GpuProgram._layoutKey prog)]) ->
  bindGroups r' = <[g := setLastLayout (GpuProgram._layoutKey prog) bg]> (bindGroups r) ->
  _boundBindGroup (encoder r') = <[index := Js.obj g]> (_boundBindGroup (encoder r)) ->
  pipeline r' = pipeline r ->
  sameGeometryBound (encoder r) (encoder r') ->
  (is_Some (renderPassEncoder (encoder r)) ->
   is_Some (renderPassEncoder (encoder r'))) ->
  groupBound (GpuProgram._layoutKey prog) r' index g
  /\ (forall i0 g0, i0 <> index ->
        groupBound (GpuProgram._layoutKey prog) r i0 g0 ->
        groupBound (GpuProgram._layoutKey prog) r' i0 g0)
  /\ pipeline r' = pipeline r
  /\ sameGeometryBound (encoder r) (encoder r')
  /\ (is_Some (renderPassEncoder (encoder r)) ->
      is_Some (renderPassEncoder (encoder r'))).
Proof.
  intros Hpass Hpass' Hbgs Hbound Hpipe Hgeo Hopen.
  split; [|split; [|split; [done|split; [done|done]]]].
  - unfold groupBound, slot. rewrite Hbound, Hbgs, !lookup_insert_eq.
    split; [done|]. by eexists.
  - intros i0 g0 Hi (Hslot & bg0 & Hbg0 & Hl0).
    unfold groupBound, slot in *. rewrite Hbound, Hbgs.
    rewrite lookup_insert_ne by done. split; [done|].
    destruct (decide (g0 = g)) as [->|Hg].
    + rewrite lookup_insert_eq. by eexists.
    + rewrite lookup_insert_ne by done. by eexists.
Qed.

Lemma setBindGroup_noop (index : Z) (g : nat) (prog : GpuProgram.t) (r : Renderer) :
  groupBound (GpuProgram._layoutKey prog) r index g ->
  setBindGroup index g prog r = Some r.
Proof.
  intros (Hslot & bg & Hbg & Hl). unfold setBindGroup. rewrite Hbg.
  cbn [mbind option_bind]. unfold slot in Hslot.
  by rewrite !bool_decide_eq_true_2.
Qed.

(** [setBindGroup] leaves the group bound under the layout of the program,
    keeps what was bound at other indices, and touches nothing else. *)
Lemma setBindGroup_spec (index : Z) (g : nat) (prog : GpuProgram.t)
    (r r' : Renderer) :
  setBindGroup index g prog r = Some r' ->
  groupBound (GpuProgram._layoutKey prog) r' index g
  /\ (forall i0 g0, i0 <> index ->
        groupBound (GpuProgram._layoutKey prog) r i0 g0 ->
        groupBound (GpuProgram._layoutKey prog) r' i0 g0)
  /\ pipeline r' = pipeline r
  /\ sameGeometryBound (encoder r) (encoder r')
  /\ (is_Some (renderPassEncoder (encoder r)) ->
      is_Some (renderPassEncoder (encoder r'))).
Proof.
  intros H.
  destruct (bindGroups r !! g) as [bg|] eqn:Hbg;
    [|by unfold setBindGroup in H; rewrite Hbg in H].
  destruct (decide (slot (_boundBindGroup (encoder r)) index = Js.obj g)) as [Hs|Hs];
    [destruct (decide (BindGroup._lastLayout bg = GpuProgram._layoutKey prog))
       as [Hl|Hl]|].
  - assert (Hb : groupBound (GpuProgram._layoutKey prog) r index g)
      by (split; [done|by exists bg]).
    rewrite (setBindGroup_noop _ _ _ _ Hb) in H. injection H as <-.
    split; [done|]. split; [done|]. split; [done|]. by repeat split.
  - destruct (currentPass (encoder r)) as [calls|] eqn:Hpass.
    2:{ exfalso. unfold setBindGroup in H. rewrite Hbg in H. cbn in H.
        rewrite (bool_decide_eq_false_2 _ Hl), andb_false_r in H.
        unfold onEitherPass, onRenderPass, currentPass in *. encoder_fields.
        destruct (renderPassEncoder (encoder r)); [done|].
        by rewrite Hpass in H. }
    destruct (setBindGroup_binds index g prog r bg calls Hbg Hpass (or_intror Hl))
      as (r2 & Hr2 & Hp2 & Hbgs & Hbound & Hpipe & Hgeo & Hopen).
    rewrite Hr2 in H. injection H as <-.
    by apply (setBindGroup_after index g prog r r2 bg calls).
  - destruct (currentPass (encoder r)) as [calls|] eqn:Hpass.
    2:{ exfalso. unfold setBindGroup in H. rewrite Hbg in H. cbn in H.
        unfold slot in Hs. rewrite (bool_decide_eq_false_2 _ Hs) in H. cbn in H.
        unfold onEitherPass, onRenderPass, currentPass in *. encoder_fields.
        destruct (renderPassEncoder (encoder r)); [done|].
        by rewrite Hpass in H. }
    destruct (setBindGroup_binds index g prog r bg calls Hbg Hpass (or_introl Hs))
      as (r2 & Hr2 & Hp2 & Hbgs & Hbound & Hpipe & Hgeo & Hopen).
    rewrite Hr2 in H. injection H as <-.
    by apply (setBindGroup_after index g prog r r2 bg calls).
Qed.

Lemma sameGeometryBound_trans (e1 e2 e3 : GpuEncoderSystem.t) :
  sameGeometryBound e1 e2 -> sameGeometryBound e2 e3 -> sameGeometryBound e1 e3.
Proof.
  intros (H1 & H2 & H3) (H1' & H2' & H3'). unfold sameGeometryBound.
  rewrite H1', H2', H3'. done.
Qed.

(** After the loop over the groups of a shader every group is bound at its
    index under the layout of the program. *)
Lemma setShaderBindGroups_spec (prog : GpuProgram.t) (gs : list (Z * nat))
    (r r' : Renderer) :
  NoDup gs.*1 ->
  _setShaderBindGroups prog gs r = Some r' ->
  (forall i g, (i, g) ∈ gs -> groupBound (GpuProgram._layoutKey prog) r' i g)
  /\ (forall i0 g0, i0 ∉ gs.*1 ->
        groupBound (GpuProgram._layoutKey prog) r i0 g0 ->
        groupBound (GpuProgram._layoutKey prog) r' i0 g0)
  /\ pipeline r' = pipeline r
  /\ sameGeometryBound (encoder r) (encoder r')
  /\ (is_Some (renderPassEncoder (encoder r)) ->
      is_Some (renderPassEncoder (encoder r'))).
Proof.
  revert r. induction gs as [|[i g] gs IH]; intros r Hnd; cbn [_setShaderBindGroups].
  - intros [= <-]. split; [intros i g Hin; by apply elem_of_nil in Hin|].
    split; [done|]. split; [done|]. split; [by repeat split|done].
  - destruct (setBindGroup i g prog r) as [r1|] eqn:H1; [|done].
    cbn [mbind option_bind]. intros H2.
    rewrite fmap_cons in Hnd. apply NoDup_cons in Hnd as (Hi & Hnd).
    destruct (setBindGroup_spec _ _ _ _ _ H1) as (Hb1 & Hk1 & Hp1 & Hg1 & Ho1).
    destruct (IH _ Hnd H2) as (Hb2 & Hk2 & Hp2 & Hg2 & Ho2).
    split; [|split; [|split; [congruence|split]]].
    + intros i0 g0 Hin. apply elem_of_cons in Hin as [[= -> ->]|Hin].
      * by apply Hk2.
      * by apply Hb2.
    + intros i0 g0 Hnin Hb. rewrite fmap_cons in Hnin.
      apply not_elem_of_cons in Hnin as (Hne & Hnin).
      apply Hk2; [done|]. by apply Hk1.
    + by eapply sameGeometryBound_trans.
    + intros Ho. by apply Ho2, Ho1.
Qed.

Lemma setShaderBindGroups_noop (prog : GpuProgram.t) (gs : list (Z * nat))
    (r : Renderer) :
  (forall i g, (i, g) ∈ gs -> groupBound (GpuProgram._layoutKey prog) r i g) ->
  _setShaderBindGroups prog gs r = Some r.
Proof.
  induction gs as [|[i g] gs IH]; intros H; cbn [_setShaderBindGroups]; [done|].
  rewrite setBindGroup_noop by (apply H; left).
  cbn [mbind option_bind]. apply IH. intros i0 g0 Hin. apply H. by right.
Qed.

(** After a draw, what it resolved is what is bound, and the render pass is
    open. *)
Lemma draw_binds (o : DrawOptions) (r r1 : Renderer) :
  NoDup (groups (shader o)).*1 ->
  draw o r = Some r1 ->
  _boundPipeline (encoder r1) = Js.obj (drawPipeline o r)
  /\ (forall n b, drawVertexBuffers o r !! n = Some b ->
        slot (_boundVertexBuffer (encoder r1)) (Z.of_nat n) = b)
  /\ (forall b, Geometry.indexBuffer (geometry o) = Some b ->
        _boundIndexBuffer (encoder r1) = Js.obj (Geometry.uid b))
  /\ (forall i g, (i, g) ∈ groups (shader o) ->
        groupBound (GpuProgram._layoutKey (gpuProgram (shader o))) r1 i g)
  /\ is_Some (renderPassEncoder (encoder r1)).
Proof.
  intros Hnd. unfold draw, setPipelineFromGeometryProgramAndState, setGeometry,
    drawPipeline, drawVertexBuffers.
  destruct (PipelineSystem.getPipeline (geometry o) (gpuProgram (shader o)) (state o)
              (topology o) (pipeline r)) as [p ps1].
  cbn [fst snd].
  destruct (setPipeline p (encoder r)) as [e1|] eqn:H1; [|done].
  cbn [mbind option_bind pipeline encoder bindGroups].
  destruct (PipelineSystem.getBufferNamesToBind (geometry o) (gpuProgram (shader o)) ps1)
    as [names ps2].
  cbn [fst snd].
  destruct (bindVertexBuffers 0 (buffersOf (geometry o) names) e1) as [e2|] eqn:H2;
    [|done].
  cbn [mbind option_bind].
  destruct (match Geometry.indexBuffer (geometry o) with
            | Some b => _setIndexBuffer b e2
            | None => Some e2
            end) as [e3|] eqn:H3; [|done].
  cbn [mbind option_bind].
  destruct (_setShaderBindGroups (gpuProgram (shader o)) (groups (shader o))
              {| pipeline := ps2; bindGroups := bindGroups r; encoder := e3 |})
    as [r3|] eqn:H4; [|done].
  cbn [mbind option_bind].
  destruct (onRenderPass (drawCall o) (encoder r3)) as [e4|] eqn:H5; [|done].
  cbn [mbind option_bind]. intros [= <-].
  destruct (setPipeline_spec _ _ _ H1) as (Hp1 & _).
  destruct (bindVertexBuffers_spec _ _ _ _ H2) as (Hv2 & _ & Hp2 & _).
  assert (Hi3 : _boundPipeline e3 = _boundPipeline e2
                /\ _boundVertexBuffer e3 = _boundVertexBuffer e2
                /\ forall b, Geometry.indexBuffer (geometry o) = Some b ->
                             _boundIndexBuffer e3 = Js.obj (Geometry.uid b)).
  { destruct (Geometry.indexBuffer (geometry o)) as [b|].
    - destruct (setIndexBuffer_spec _ _ _ H3) as (Hi & Hp & Hv & _).
      split; [done|]. split; [done|]. by intros ? [= <-].
    - injection H3 as <-. by repeat split. }
  destruct Hi3 as (Hp3 & Hv3 & Hi3).
  destruct (setShaderBindGroups_spec _ _ _ _ Hnd H4) as (Hb4 & _ & _ & (Hp4 & Hv4 & Hi4) & _).
  destruct (onRenderPass_spec _ _ _ H5) as (calls & _ & Hc5 & _ & Hg5 & (Hp5 & Hv5 & Hi5)).
  encoder_fields.
  split; [congruence|]. split; [|split; [|split]].
  - intros n b Hn. rewrite Hv5, Hv4, Hv3. by apply (Hv2 n b).
  - intros b Hb. rewrite Hi5, Hi4. by apply Hi3.
  - intros i g Hin. destruct (Hb4 i g Hin) as (Hs & bg & Hbg & Hl).
    split; [|by exists bg]. encoder_fields. by rewrite Hg5.
  - rewrite Hc5. by eexists.
Qed.

(** A draw whose pipeline, vertex buffers, index buffer and bind groups are
    bound already records its draw call and nothing else. *)
Lemma draw_bound (o : DrawOptions) (r : Renderer) (calls : list Command) :
  renderPassEncoder (encoder r) = Some calls ->
  _boundPipeline (encoder r) = Js.obj (drawPipeline o r) ->
  (forall n b, drawVertexBuffers o r !! n = Some b ->
     slot (_boundVertexBuffer (encoder r)) (Z.of_nat n) = b) ->
  (forall b, Geometry.indexBuffer (geometry o) = Some b ->
     _boundIndexBuffer (encoder r) = Js.obj (Geometry.uid b)) ->
  (forall i g, (i, g) ∈ groups (shader o) ->
     groupBound (GpuProgram._layoutKey (gpuProgram (shader o))) r i g) ->
  exists r2,
    draw o r = Some r2
    /\ renderPassEncoder (encoder r2) = Some (calls ++ [drawCall o])
    /\ bindGroups r2 = bindGroups r.
Proof.
  intros Hpass Hp Hv Hi Hg.
  unfold draw, setPipelineFromGeometryProgramAndState, setGeometry,
    drawPipeline, drawVertexBuffers in *.
  destruct (PipelineSystem.getPipeline (geometry o) (gpuProgram (shader o)) (state o)
              (topology o) (pipeline r)) as [p ps1].
  cbn [fst snd] in *.
  rewrite (setPipeline_noop _ _ Hp). cbn [mbind option_bind pipeline encoder bindGroups].
  destruct (PipelineSystem.getBufferNamesToBind (geometry o) (gpuProgram (shader o)) ps1)
    as [names ps2].
  cbn [fst snd] in *.
  rewrite bindVertexBuffers_noop by (intros n b Hn; by apply Hv).
  cbn [mbind option_bind].
  assert (Hidx : match Geometry.indexBuffer (geometry o) with
                 | Some b => _setIndexBuffer b (encoder r)
                 | None => Some (encoder r)
                 end = Some (encoder r)).
  { destruct (Geometry.indexBuffer (geometry o)) as [b|]; [|done].
    by apply setIndexBuffer_noop, Hi. }
  rewrite Hidx. cbn [mbind option_bind].
  rewrite setShaderBindGroups_noop.
  2:{ intros i g Hin. destruct (Hg i g Hin) as (Hs & bg & Hbg & Hl).
      split; [done|]. by exists bg. }
  cbn [mbind option_bind encoder]. unfold onRenderPass. rewrite Hpass.
  cbn [mbind option_bind]. eexists. split; [reflexivity|]. by split.
Qed.

(** C4.  Two consecutive draws in a render pass: when the second resolves
    to the same pipeline object, the same vertex buffers slot by slot, the
    same index buffer and the same bind groups under the same program layout
    key as the first, it succeeds and records exactly one more call on the
    pass, its [draw] or [drawIndexed] call; no pipeline, vertex-buffer,
    index-buffer or bind-group call is recorded.  (The groups of a shader
    are the entries of an object, so each index occurs once.) *)
Theorem consecutive_draw_elides_binds (o1 o2 : DrawOptions) (r r1 : Renderer) :
  NoDup (groups (shader o1)).*1 ->
  draw o1 r = Some r1 ->
  drawPipeline o2 r1 = drawPipeline o1 r ->
  drawVertexBuffers o2 r1 = drawVertexBuffers o1 r ->
  Geometry.indexBuffer (geometry o2) = Geometry.indexBuffer (geometry o1) ->
  groups (shader o2) = groups (shader o1) ->
  GpuProgram._layoutKey (gpuProgram (shader o2))
    = GpuProgram._layoutKey (gpuProgram (shader o1)) ->
  exists r2 calls,
    draw o2 r1 = Some r2
    /\ renderPassEncoder (encoder r1) = Some calls
    /\ renderPassEncoder (encoder r2) = Some (calls ++ [drawCall o2])
    /\ isBinding (drawCall o2) = false.
Proof.
  intros Hnd H1 Hp Hv Hi Hg Hk.
  destruct (draw_binds o1 r r1 Hnd H1) as (Bp & Bv & Bi & Bg & (calls & Hcalls)).
  destruct (draw_bound o2 r1 calls Hcalls) as (r2 & H2 & Hc2 & _).
  - by rewrite Hp.
  - rewrite Hv. exact Bv.
  - rewrite Hi. exact Bi.
  - rewrite Hg, Hk. exact Bg.
  - exists r2, calls. split; [done|]. split; [done|]. split; [done|].
    unfold drawCall. by destruct (Geometry.indexBuffer (geometry o2)).
Qed.

Lemma sample_groups_NoDup : NoDup (groups (shader Sample.options)).*1.
Proof. apply (bool_decide_unpack _). by vm_compute. Qed.

(** The sample draw, twice: the first records five binding calls and a
    [drawIndexed], the second a [drawIndexed] only. *)
Lemma consecutive_draw_elides_binds_witness :
  exists r1 r2 calls,
    draw Sample.options Sample.renderer = Some r1
    /\ draw Sample.options r1 = Some r2
    /\ renderPassEncoder (encoder r1) = Some calls
    /\ length calls = 6%nat
    /\ renderPassEncoder (encoder r2) = Some (calls ++ [drawIndexedCmd 6 1 0 0 0]).
Proof.
  set (r1 := default Sample.renderer (draw Sample.options Sample.renderer)).
  assert (H1 : draw Sample.options Sample.renderer = Some r1) by (by vm_compute).
  pose proof sample_groups_NoDup as Hnd.
  assert (Hp : drawPipeline Sample.options r1
               = drawPipeline Sample.options Sample.renderer) by (by vm_compute).
  assert (Hv : drawVertexBuffers Sample.options r1
               = drawVertexBuffers Sample.options Sample.renderer) by (by vm_compute).
  pose proof (consecutive_draw_elides_binds Sample.options Sample.options
                Sample.renderer r1 Hnd H1 Hp Hv eq_refl eq_refl eq_refl) as H.
  destruct H as (r2 & calls & H2 & Hc1 & Hc2 & _).
  exists r1, r2, calls.
  split; [exact H1|]. split; [exact H2|]. split; [exact Hc1|].
  split; [|exact Hc2].
  assert (Hc : renderPassEncoder (encoder r1)
               = Some [setPipelineCmd 0; setVertexBufferCmd 0 (Js.obj 7);
                       setIndexBufferCmd 8 uint16;
                       setBindGroupCmd 0 0 3; setBindGroupCmd 1 1 3;
                       drawIndexedCmd 6 1 0 0 0]) by (by vm_compute).
  rewrite Hc in Hc1. by injection Hc1 as <-.
Defined.



End GpuEncoderFacts.

(** * Further properties *)

(** ** The draw-range buffer: growth, shrinking and conversion *)

Section MultiDrawBufferBounds.

Import MultiDrawBuffer.

Ltac mdb_proj :=
  cbn [offsets counts baseInstances instanceCounts size count params].

(** The doubling loop, started from a positive size, stops after at most [k]
    doublings when [k] doublings are enough, on the first doubled size that
    covers the request. *)
Lemma growSize_doubles (sz : Z) (k : nat) (n : Z) :
  0 < n -> sz <= n * 2 ^ Z.of_nat k ->
  exists r (j : nat),
    growSize (S k) sz n = Some r /\ sz <= r /\ r = n * 2 ^ Z.of_nat j
    /\ (n < sz -> r < 2 * sz) /\ (sz <= n -> r = n).
Proof.
  revert n. induction k as [|k IH]; intros n Hn Hle.
  - exists n, 0%nat. cbn [growSize]. rewrite Z.mul_1_r in Hle.
    destruct (Z.gtb_spec sz n); [lia|]. repeat split; try lia.
  - change (growSize (S (S k)) sz n)
      with (if sz >? n then growSize (S k) sz (n * 2) else Some n).
    destruct (Z.gtb_spec sz n) as [Hgt|Hngt].
    + destruct (IH (n * 2)) as (r & j & Hr & Hc & Hj & Hlt & Heq); [lia| |].
      { rewrite Nat2Z.inj_succ, Z.pow_succ_r in Hle by lia. lia. }
      exists r, (S j). split; [done|]. split; [done|].
      split; [rewrite Nat2Z.inj_succ, Z.pow_succ_r by lia; lia|].
      split; [|lia]. intros _.
      destruct (Z.lt_ge_cases (n * 2) sz); [by apply Hlt|].
      rewrite Heq by lia. lia.
    + exists n, 0%nat. repeat split; try lia.
Qed.

(** X1.  [ensureSize] on a buffer of positive capacity returns, given
    enough fuel.  It leaves the buffer as it is when the request fits;
    otherwise the new capacity is the old one doubled some number of times,
    covers the request and is less than twice the request.  The count and
    the parameters are kept, and each of the four arrays keeps its entries
    and is extended: with zeros, and [counts] of a buffer with parameters
    with the default vertex count. *)
Theorem ensureSize_covers (sz : Z) (b : MultiDrawBuffer.t) :
  wellSized b -> 0 < size b ->
  exists fuel b',
    ensureSize fuel sz b = Some b'
    /\ sz <= size b' /\ wellSized b'
    /\ (exists j : nat, size b' = size b * 2 ^ Z.of_nat j)
    /\ (size b < sz -> size b' < 2 * sz)
    /\ (sz <= size b -> b' = b)
    /\ count b' = count b /\ params b' = params b
    /\ offsets b' = offsets b ++ replicate (Z.to_nat (size b' - size b)) 0
    /\ counts b' = counts b ++ replicate (Z.to_nat (size b' - size b))
                     (match params b with
                      | Some p => Js.toInt32 (vertexPerInstance p)
                      | None => 0
                      end)
    /\ baseInstances b' = baseInstances b ++ replicate (Z.to_nat (size b' - size b)) 0
    /\ instanceCounts b' = instanceCounts b ++ replicate (Z.to_nat (size b' - size b)) 0.
Proof.
  intros Hwf Hpos.
  destruct (Z.leb_spec sz (size b)) as [Hle|Hgt].
  - exists 0%nat, b. unfold ensureSize.
    destruct (Z.leb_spec sz (size b)); [|lia].
    split; [done|]. split; [done|]. split; [done|].
    split; [by exists 0%nat; rewrite Z.mul_1_r|].
    split; [lia|]. split; [done|]. split; [done|]. split; [done|].
    rewrite Z.sub_diag. cbn [Z.to_nat replicate]. by rewrite !app_nil_r.
  - destruct (growSize_doubles sz (Z.to_nat sz) (size b) Hpos)
      as (r & j & Hr & Hc & Hj & Hlt & _).
    { pose proof (Z.pow_gt_lin_r 2 (Z.of_nat (Z.to_nat sz)) ltac:(lia) ltac:(lia)).
      nia. }
    assert (Hsr : size b <= r).
    { rewrite Hj. assert (1 <= 2 ^ Z.of_nat j) by (apply Z.pow_pos_nonneg; lia) || nia.
      nia. }
    pose proof (resize_grow b r Hwf Hsr) as Hres.
    exists (S (Z.to_nat sz)). eexists. split.
    { unfold ensureSize. destruct (Z.leb_spec sz (size b)); [lia|].
      rewrite Hr. exact Hres. }
    destruct Hwf as (H0 & Ho & Hcn & Hb & Hi).
    mdb_proj. split; [done|]. split.
    { unfold wellSized. mdb_proj.
      rewrite !length_app, !length_replicate, Ho, Hcn, Hb, Hi.
      repeat split; lia. }
    split; [by exists j|]. split; [done|]. split; [lia|]. done.
Qed.

Lemma ensureSize_covers_witness :
  exists fuel b',
    ensureSize fuel 1000 Sample.ranges = Some b'
    /\ 1000 <= size b' /\ size b' < 2000.
Proof.
  destruct (ensureSize_covers 1000 Sample.ranges)
    as (fuel & b' & H1 & H2 & _ & _ & H3 & _).
  - repeat split; simpl; lia.
  - simpl; lia.
  - exists fuel, b'. split; [exact H1|]. split; [exact H2|].
    apply H3. simpl. lia.
Defined.

Lemma growSize_from_zero (fuel : nat) (sz : Z) :
  0 < sz -> growSize fuel sz 0 = None.
Proof.
  intros Hsz. induction fuel as [|fuel IH]; [done|].
  cbn [growSize]. destruct (Z.gtb_spec sz 0); [|lia]. exact IH.
Qed.

(** X2.  A buffer constructed with capacity 0 cannot grow: for a
    positive request the doubling loop of [ensureSize] starts from 0, stays
    at 0 and never reaches the request, whatever the fuel. *)
Theorem ensureSize_of_empty_buffer_never_returns
    (p : option DrawInstanceParameters) (b : MultiDrawBuffer.t) (sz : Z)
    (fuel : nat) :
  create 0 p = Some b -> 0 < sz ->
  size b = 0
  /\ growSize fuel sz (size b) = None
  /\ ensureSize fuel sz b = None.
Proof.
  intros Hb Hsz.
  assert (Hs : size b = 0).
  { destruct (create_wellSized 0 p ltac:(lia)) as (b0 & Hb0 & _ & Hs & _).
    rewrite Hb in Hb0. by injection Hb0 as ->. }
  split; [done|]. rewrite Hs.
  split; [by apply growSize_from_zero|].
  unfold ensureSize. rewrite Hs.
  destruct (Z.leb_spec sz 0); [lia|].
  by rewrite growSize_from_zero.
Qed.

Lemma ensureSize_of_empty_buffer_never_returns_witness :
  exists b, create 0 None = Some b /\ ensureSize 1000 1 b = None.
Proof.
  eexists. split; [reflexivity|].
  apply (ensureSize_of_empty_buffer_never_returns None _ 1 1000 eq_refl).
  lia.
Defined.

Lemma arraySet_too_long (target source : list Z) :
  (length target < length source)%nat -> arraySet target source = None.
Proof.
  intros H. unfold arraySet.
  destruct (Nat.leb_spec (length source) (length target)); [lia|done].
Qed.

Lemma fillCounts_none (oldSize sz v : Z) (cnt : list Z) :
  sz <= oldSize -> fillCounts oldSize sz v cnt = cnt.
Proof.
  intros H. unfold fillCounts. unfold seqZ.
  replace (Z.to_nat (sz - oldSize)) with 0%nat by lia. done.
Qed.

(** X3.  [resize] to a capacity below the current one.  With
    [copyOldInfo] the copy of the longer old arrays into the new ones is a
    RangeError.  Without it the call yields zero-filled arrays of the new
    capacity and keeps count and parameters; no default count is written,
    since no slot lies at or beyond the old capacity. *)
Theorem resize_to_smaller_size (b : MultiDrawBuffer.t) (sz : Z) :
  wellSized b -> 0 <= sz < size b ->
  resize sz true b = None
  /\ resize sz false b
     = Some {| offsets := replicate (Z.to_nat sz) 0;
               counts := replicate (Z.to_nat sz) 0;
               baseInstances := replicate (Z.to_nat sz) 0;
               instanceCounts := replicate (Z.to_nat sz) 0;
               size := sz; count := count b; params := params b |}.
Proof.
  intros (H0 & Ho & Hc & Hb & Hi) Hsz. unfold resize.
  rewrite newArray_nonneg by lia. cbn [mbind option_bind].
  split.
  - rewrite (arraySet_too_long _ (counts b)) by (rewrite length_replicate; lia). reflexivity.
  - f_equal. apply t_ext; mdb_proj; try done.
    destruct (params b); [|done]. apply fillCounts_none. lia.
Qed.

Lemma resize_to_smaller_size_witness :
  resize 32 true Sample.ranges = None
  /\ exists b', resize 32 false Sample.ranges = Some b'
                /\ size b' = 32 /\ counts b' !! 0%nat = Some 0.
Proof.
  destruct (resize_to_smaller_size Sample.ranges 32) as (H1 & H2).
  - repeat split; simpl; lia.
  - simpl; lia.
  - split; [exact H1|]. eexists. split; [exact H2|]. split; reflexivity.
Defined.

(** X4.  [resize] without [copyOldInfo] to a capacity at least the
    current one, on a buffer with parameters, writes the default vertex
    count from the old capacity on only: the slots below it hold 0, like the
    other three arrays throughout. *)
Theorem resize_without_copy_keeps_old_slots_zero (b : MultiDrawBuffer.t) (sz : Z)
    (p : DrawInstanceParameters) :
  0 <= size b <= sz -> params b = Some p ->
  resize sz false b
  = Some {| offsets := replicate (Z.to_nat sz) 0;
            counts := replicate (Z.to_nat (size b)) 0
                      ++ replicate (Z.to_nat (sz - size b))
                           (Js.toInt32 (vertexPerInstance p));
            baseInstances := replicate (Z.to_nat sz) 0;
            instanceCounts := replicate (Z.to_nat sz) 0;
            size := sz; count := count b; params := Some p |}.
Proof.
  intros Hsz Hp. unfold resize.
  rewrite newArray_nonneg by lia. cbn [mbind option_bind].
  f_equal. apply t_ext; mdb_proj; try done.
  rewrite Hp. unfold fillCounts.
  pose proof (fillCounts_app (Z.to_nat (sz - size b)) (vertexPerInstance p)
                (replicate (Z.to_nat (size b)) 0)) as Hfill.
  rewrite length_replicate, <- replicate_add in Hfill.
  rewrite !Z2Nat.id in Hfill by lia.
  replace (Z.to_nat (size b) + Z.to_nat (sz - size b))%nat with (Z.to_nat sz)
    in Hfill by lia.
  exact Hfill.
Qed.

Lemma resize_without_copy_keeps_old_slots_zero_witness :
  exists b', resize 128 false Sample.ranges = Some b'
             /\ counts b' !! 0%nat = Some 0
             /\ counts b' !! 64%nat = Some 6.
Proof.
  eexists. split.
  - apply (resize_without_copy_keeps_old_slots_zero Sample.ranges 128
             Sample.instanceParams); [simpl; lia|reflexivity].
  - split; reflexivity.
Defined.

Lemma toInt32_mul4 (z : Z) : Js.toInt32 (z * 4) mod 4 = 0.
Proof.
  unfold Js.toInt32.
  replace (z * 4 + 2 ^ 31) with (4 * (z + 2 ^ 29)) by lia.
  change (2 ^ 32) with (4 * 2 ^ 30).
  rewrite Z.mul_mod_distr_l by lia.
  change (2 ^ 31) with (4 * 2 ^ 29).
  rewrite <- Z.mul_sub_distr_l.
  rewrite Z.mul_comm. apply Z.mod_mul. lia.
Qed.

(** X5.  With parameters that are not hardware-instanced, and products
    that stay within [2^53] in magnitude (where the multiplication of doubles
    is exact), [convertInstancesToVertices] returns and leaves [baseInstances],
    [instanceCounts], the capacity, the count and the parameters alone.  It
    rewrites the first [count] ranges: the offset of range [j] is its base
    instance times four times the indices per instance, or times the
    vertices per instance when there are no indices; the count is its
    instance count times the indices, respectively vertices, per instance;
    each as the 32-bit integer the array stores.  Ranges from [count] on are
    untouched, and with indices every offset written is a multiple of 4. *)
Theorem convertInstancesToVertices_values
    (arg : option DrawInstanceParameters) (b : MultiDrawBuffer.t)
    (p : DrawInstanceParameters) :
  effectiveParams arg b = Some p -> instanced p = false ->
  exactProducts p b ->
  exists b',
    convertInstancesToVertices arg b = Some b'
    /\ baseInstances b' = baseInstances b
    /\ instanceCounts b' = instanceCounts b
    /\ size b' = size b /\ count b' = count b /\ params b' = params b
    /\ length (offsets b') = length (offsets b)
    /\ length (counts b') = length (counts b)
    /\ (forall j, (j < Z.to_nat (count b))%nat -> (j < length (offsets b))%nat ->
          offsets b' !! j
          = Some (Js.toInt32 (readAt (baseInstances b) j
                              * (if 0 <? indexPerInstance p
                                 then indexPerInstance p * 4
                                 else vertexPerInstance p))))
    /\ (forall j, (j < Z.to_nat (count b))%nat -> (j < length (counts b))%nat ->
          counts b' !! j
          = Some (Js.toInt32 (readAt (instanceCounts b) j
                              * (if 0 <? indexPerInstance p
                                 then indexPerInstance p
                                 else vertexPerInstance p))))
    /\ (forall j, (Z.to_nat (count b) <= j)%nat ->
          offsets b' !! j = offsets b !! j /\ counts b' !! j = counts b !! j)
    /\ (0 < indexPerInstance p ->
        forall j x, (j < Z.to_nat (count b))%nat -> offsets b' !! j = Some x ->
                    x mod 4 = 0).
Proof.
  intros Hp Hinst _. unfold convertInstancesToVertices, effectiveParams in *.
  rewrite Hp. cbn [mbind option_bind]. rewrite Hinst.
  set (mo := if 0 <? indexPerInstance p then indexPerInstance p * 4
             else vertexPerInstance p).
  set (mc := if 0 <? indexPerInstance p then indexPerInstance p
             else vertexPerInstance p).
  assert (Hb' : (if 0 <? indexPerInstance p
                 then Some (foldl (convertStep (indexPerInstance p * 4) (indexPerInstance p))
                              b (seq 0 (Z.to_nat (count b))))
                 else Some (foldl (convertStep (vertexPerInstance p) (vertexPerInstance p))
                              b (seq 0 (Z.to_nat (count b)))))
                = Some (foldl (convertStep mo mc) b (seq 0 (Z.to_nat (count b))))).
  { unfold mo, mc. by destruct (0 <? indexPerInstance p). }
  rewrite Hb'. clear Hb'.
  destruct (foldl_convertStep mo mc (Z.to_nat (count b)) b)
    as (Hb & Hi & Hs & Hc & Hpp & Ho & Hcn).
  set (b' := foldl (convertStep mo mc) b (seq 0 (Z.to_nat (count b)))) in *.
  assert (Hlen : forall (l l' : list Z) (f : nat -> Z),
            (forall i, l' !! i = if decide (i < Z.to_nat (count b))%nat
                                 then (fun _ => f i) <$> l !! i else l !! i) ->
            length l' = length l).
  { intros l l' f H. apply Nat.le_antisymm.
    - destruct (Nat.le_gt_cases (length l') (length l)) as [|Hlt]; [done|].
      destruct (lookup_lt_is_Some_2 l' (length l) Hlt) as [x Hx].
      rewrite H, (lookup_ge_None_2 l (length l)) in Hx by lia.
      by destruct (decide _).
    - destruct (Nat.le_gt_cases (length l) (length l')) as [|Hlt]; [done|].
      destruct (lookup_lt_is_Some_2 l (length l') Hlt) as [x Hx].
      pose proof (H (length l')) as H'.
      rewrite (lookup_ge_None_2 l' (length l')), Hx in H' by lia.
      by destruct (decide _). }
  exists b'. split; [done|]. split; [done|]. split; [done|]. split; [done|].
  split; [done|]. split; [done|].
  split; [by apply (Hlen _ _ (fun i => Js.toInt32 (readAt (baseInstances b) i * mo)))|].
  split; [by apply (Hlen _ _ (fun i => Js.toInt32 (readAt (instanceCounts b) i * mc)))|].
  split; [|split; [|split]].
  - intros j Hj Hlt. rewrite Ho. destruct (decide _); [|lia].
    destruct (lookup_lt_is_Some_2 _ _ Hlt) as [x ->]. done.
  - intros j Hj Hlt. rewrite Hcn. destruct (decide _); [|lia].
    destruct (lookup_lt_is_Some_2 _ _ Hlt) as [x ->]. done.
  - intros j Hj. rewrite Ho, Hcn. destruct (decide _); [lia|done].
  - intros Hidx j x Hj Hx. rewrite Ho in Hx. destruct (decide _); [|lia].
    destruct (offsets b !! j); [|done]. injection Hx as <-.
    unfold mo. destruct (Z.ltb_spec 0 (indexPerInstance p)); [|lia].
    rewrite Z.mul_assoc. apply toInt32_mul4.
Qed.

Lemma convertInstancesToVertices_values_witness :
  exists b',
    convertInstancesToVertices (Some Sample.indexedParams) Sample.filledRanges = Some b'
    /\ offsets b' !! 1%nat = Some 240
    /\ counts b' !! 1%nat = Some 30
    /\ offsets b' !! 2%nat = Some 0.
Proof.
  destruct (convertInstancesToVertices_values (Some Sample.indexedParams)
              Sample.filledRanges Sample.indexedParams eq_refl eq_refl)
    as (b' & H & _ & _ & _ & _ & _ & _ & _ & Ho & Hc & Hrest & _).
  { intros j Hj. destruct j as [|[|j]]; [by vm_compute|by vm_compute|].
    exfalso. revert Hj. simpl. lia. }
  exists b'. split; [exact H|].
  split; [exact (Ho 1%nat ltac:(simpl; lia) ltac:(simpl; lia))|].
  split; [exact (Hc 1%nat ltac:(simpl; lia) ltac:(simpl; lia))|].
  exact (proj1 (Hrest 2%nat ltac:(simpl; lia))).
Defined.

End MultiDrawBufferBounds.

(** ** The texture pool: surface changes, clearing and returns *)

Section TexturePoolLifecycle.

Import TexturePool.

Lemma destroyTexture_idemp (t0 : Texture) :
  destroyTexture (destroyTexture t0) = destroyTexture t0.
Proof. done. Qed.

Lemma lookup_destroyAll (uids : list nat) (txs : gmap nat Texture) (u : nat) :
  destroyAll uids txs !! u
  = if decide (u ∈ uids) then destroyTexture <$> txs !! u else txs !! u.
Proof.
  revert txs. induction uids as [|u0 uids IH]; intros txs.
  - cbn. destruct (decide _) as [H|]; [by apply elem_of_nil in H|done].
  - change (destroyAll (u0 :: uids) txs)
      with (destroyAll uids (alter destroyTexture u0 txs)).
    rewrite IH. destruct (decide (u = u0)) as [->|Hne].
    + rewrite lookup_alter_eq.
      destruct (decide (u0 ∈ u0 :: uids)) as [_|Hn]; [|by exfalso; apply Hn; left].
      destruct (decide (u0 ∈ uids)); [|done].
      by destruct (txs !! u0).
    + rewrite lookup_alter_ne by done.
      destruct (decide (u ∈ uids)), (decide (u ∈ u0 :: uids)) as [H|H]; try done.
      * exfalso. apply H. by right.
      * apply elem_of_cons in H as [|]; done.
Qed.

Lemma elem_of_bucketTextures (tp : gmap Z (list nat)) (u : nat) :
  u ∈ bucketTextures tp <-> exists k arr, tp !! k = Some arr /\ u ∈ arr.
Proof.
  unfold bucketTextures. rewrite list_elem_of_join. split.
  - intros (arr & Hu & Harr). apply list_elem_of_fmap in Harr as ([k arr'] & -> & Hin).
    apply elem_of_map_to_list in Hin. by exists k, arr'.
  - intros (k & arr & Hk & Hu). exists arr. split; [done|].
    apply list_elem_of_fmap. exists (k, arr). split; [done|].
    by apply elem_of_map_to_list.
Qed.


(** What [setScreenSize] does when the size differs from the recorded one
    and a surface was set before. *)
Lemma setScreenSize_changed (width height : Q) (sc sc' : Screen) (w w' : World) :
  setScreenSize width height sc w = Some (sc', w') ->
  Qeq_bool width (_screenWidth sc) && Qeq_bool height (_screenHeight sc) = false ->
  0 < _pixelsWidth (pool w) ->
  _texturePool (pool w') = otherBuckets (_texturePool (pool w))
  /\ textures w'
     = destroyAll (bucketTextures (screenBuckets (_texturePool (pool w)))) (textures w)
  /\ _pixelsWidth (pool w') = alignedSize width (screenPadding sc) (screenAlign sc)
  /\ _pixelsHeight (pool w') = alignedSize height (screenPadding sc) (screenAlign sc)
  /\ _poolKeyHash (pool w') = _poolKeyHash (pool w)
  /\ enableFullScreen (pool w') = enableFullScreen (pool w)
  /\ _screenWidth sc' = width /\ _screenHeight sc' = height.
Proof.
  intros H Hchg Hpos. unfold setScreenSize in H. rewrite Hchg in H.
  destruct (decide (screenAlign sc = 0)); [done|].
  rewrite bool_decide_eq_true_2 in H by done.
  by injection H as <- <-.
Qed.

Lemma otherBuckets_negative (tp : gmap Z (list nat)) (k : Z) :
  k < 0 -> otherBuckets tp !! k = None.
Proof.
  intros Hk. unfold otherBuckets. apply map_lookup_filter_None. right.
  intros arr _. cbn. lia.
Qed.

(** X6.  [setScreenSize] with a size other than the recorded one, on a
    pool that tracks a surface: every bucket with a negative key is deleted
    and every texture stored in one is destroyed; the other buckets and every
    other texture are left alone.  The surface becomes the given size,
    padded and rounded up to the alignment; the key record and
    [enableFullScreen] are not touched. *)
Theorem setScreenSize_drops_screen_buckets (width height : Q) (sc sc' : Screen)
    (w w' : World) :
  setScreenSize width height sc w = Some (sc', w') ->
  Qeq_bool width (_screenWidth sc) && Qeq_bool height (_screenHeight sc) = false ->
  0 < _pixelsWidth (pool w) ->
  (forall k, k < 0 -> _texturePool (pool w') !! k = None)
  /\ (forall k, 0 <= k -> _texturePool (pool w') !! k = _texturePool (pool w) !! k)
  /\ (forall k arr u t0,
        k < 0 -> _texturePool (pool w) !! k = Some arr -> u ∈ arr ->
        textures w !! u = Some t0 ->
        textures w' !! u = Some (destroyTexture t0))
  /\ (forall u,
        (forall k arr, k < 0 -> _texturePool (pool w) !! k = Some arr -> u ∉ arr) ->
        textures w' !! u = textures w !! u)
  /\ _pixelsWidth (pool w') = alignedSize width (screenPadding sc) (screenAlign sc)
  /\ _pixelsHeight (pool w') = alignedSize height (screenPadding sc) (screenAlign sc)
  /\ _poolKeyHash (pool w') = _poolKeyHash (pool w)
  /\ enableFullScreen (pool w') = enableFullScreen (pool w).
Proof.
  intros H Hchg Hpos.
  destruct (setScreenSize_changed _ _ _ _ _ _ H Hchg Hpos)
    as (Htp & Htx & Hpw & Hph & Hkh & Hfs & _).
  rewrite Htp, Htx.
  split; [|split; [|split; [|split]]]; [| | | |done].
  - intros k Hk. by apply otherBuckets_negative.
  - intros k Hk. unfold otherBuckets.
    destruct (_texturePool (pool w) !! k) as [arr|] eqn:E.
    + apply map_lookup_filter_Some. split; [done|]. cbn. lia.
    + apply map_lookup_filter_None. by left.
  - intros k arr u t0 Hk Harr Hu Ht. rewrite lookup_destroyAll.
    destruct (decide _) as [_|Hn]; [by rewrite Ht|].
    exfalso. apply Hn. apply elem_of_bucketTextures. exists k, arr.
    split; [|done]. unfold screenBuckets. by apply map_lookup_filter_Some.
  - intros u Hu. rewrite lookup_destroyAll.
    destruct (decide _) as [Hin|]; [|done]. exfalso.
    apply elem_of_bucketTextures in Hin as (k & arr & Hk & Hin).
    unfold screenBuckets in Hk. apply map_lookup_filter_Some in Hk as (Hk & Hneg).
    by apply (Hu k arr).
Qed.

(** X7.  A texture of a screen-relative bucket that is returned after
    the surface size changed finds its bucket gone: [returnTexture] destroys
    it and stores it nowhere. *)
Theorem screen_texture_returned_after_resize_is_destroyed
    (width height : Q) (sc sc' : Screen) (w w' : World) (uid : nat) (key : Z)
    (t0 : Texture) :
  setScreenSize width height sc w = Some (sc', w') ->
  Qeq_bool width (_screenWidth sc) && Qeq_bool height (_screenHeight sc) = false ->
  0 < _pixelsWidth (pool w) ->
  _poolKeyHash (pool w) !! uid = Some key -> key < 0 ->
  textures w !! uid = Some t0 ->
  textures (returnTexture uid w') !! uid = Some (destroyTexture t0)
  /\ _texturePool (pool (returnTexture uid w')) !! key = None
  /\ pool (returnTexture uid w') = pool w'.
Proof.
  intros H Hchg Hpos Hkey Hneg Ht.
  destruct (setScreenSize_changed _ _ _ _ _ _ H Hchg Hpos)
    as (Htp & Htx & _ & _ & Hkh & _).
  assert (Hret : returnTexture uid w'
                 = {| pool := pool w';
                      textures := alter destroyTexture uid (textures w');
                      nextUid := nextUid w' |}).
  { unfold returnTexture. rewrite Hkh, Hkey. cbn [mbind option_bind].
    rewrite Htp, otherBuckets_negative by done. done. }
  rewrite Hret. cbn [pool textures].
  split; [|split; [|done]].
  - rewrite lookup_alter_eq, Htx, lookup_destroyAll, Ht.
    by destruct (decide _).
  - rewrite Htp. by apply otherBuckets_negative.
Qed.

(** X8.  [clear] empties the bucket table and keeps the key record.
    Unless called with [false] it destroys every stored texture; called with
    [false] it destroys none.  Afterwards a returned texture is destroyed
    rather than stored, whatever key is recorded for it, and the table stays
    empty. *)
Theorem clear_forgets_buckets (flag : option bool) (w : World) :
  _texturePool (pool (clear flag w)) = ∅
  /\ _poolKeyHash (pool (clear flag w)) = _poolKeyHash (pool w)
  /\ (flag <> Some false ->
      forall k arr u t0,
        _texturePool (pool w) !! k = Some arr -> u ∈ arr ->
        textures w !! u = Some t0 ->
        textures (clear flag w) !! u = Some (destroyTexture t0))
  /\ (flag = Some false -> textures (clear flag w) = textures w)
  /\ (forall uid t0,
        textures (clear flag w) !! uid = Some t0 ->
        textures (returnTexture uid (clear flag w)) !! uid = Some (destroyTexture t0)
        /\ _texturePool (pool (returnTexture uid (clear flag w))) = ∅).
Proof.
  split; [done|]. split; [done|]. split; [|split].
  - intros Hflag k arr u t0 Hk Hu Ht. unfold clear. cbn [textures].
    rewrite bool_decide_eq_false_2 by done.
    rewrite lookup_destroyAll, Ht.
    destruct (decide _) as [_|Hn]; [done|].
    exfalso. apply Hn, elem_of_bucketTextures. by exists k, arr.
  - intros ->. done.
  - intros uid t0 Ht.
    assert (Hret : returnTexture uid (clear flag w)
                   = {| pool := pool (clear flag w);
                        textures := alter destroyTexture uid (textures (clear flag w));
                        nextUid := nextUid (clear flag w) |}).
    { unfold returnTexture.
      destruct (_poolKeyHash (pool (clear flag w)) !! uid) as [key|]; [|done].
      cbn [mbind option_bind].
      change (_texturePool (pool (clear flag w))) with (∅ : gmap Z (list nat)).
      by rewrite lookup_empty. }
    rewrite Hret. cbn [pool textures]. split; [|done].
    by rewrite lookup_alter_eq, Ht.
Qed.

(** What [returnTexture] does with a texture whose bucket exists. *)
Lemma returnTexture_served (w : World) (key : Z) (uid : nat) (arr : list nat)
    (txs : gmap nat Texture) (n : nat) :
  returnTexture uid (served w key uid arr txs n)
  = served w key uid (arr ++ [uid]) txs n.
Proof.
  unfold returnTexture, served. cbn [pool _poolKeyHash _texturePool].
  rewrite lookup_insert_eq. cbn [mbind option_bind].
  rewrite lookup_insert_eq. cbn [fmap option_fmap option_map].
  by rewrite insert_insert_eq.
Qed.

(** A request whose bucket ends with [u] is served with [u]. *)
Lemma getOptimalTexture_pops (fuel : nat) (fw fh res : Q) (aa hdr ign : bool)
    (w : World) (sign width height : Z) (arr : list nat) (u : nat) :
  optimalSize fuel (pool w) ign (scaledSize fw res) (scaledSize fh res)
    = Some (sign, width, height) ->
  _texturePool (pool w) !! bucketKey sign width height aa hdr = Some (arr ++ [u]) ->
  exists txs,
    getOptimalTexture fuel fw fh res aa hdr ign w
    = Some (u, served w (bucketKey sign width height aa hdr) u arr txs (nextUid w)).
Proof.
  intros Hopt Hb.
  destruct (getOptimalTexture_served _ _ _ _ aa hdr _ _ _ _ _ Hopt)
    as (uid & txs & n & Hget & Hcase).
  rewrite Hb in Hget, Hcase.
  change (default [] (Some (arr ++ [u]))) with (arr ++ [u]) in Hget, Hcase.
  rewrite last_snoc in Hcase. destruct Hcase as (-> & -> & _).
  rewrite removelast_last in Hget. by exists txs.
Qed.

(** X9.  [returnTexture] does not check whether a texture is already
    stored: after a texture handed out by [getOptimalTexture] is returned
    twice, the next two requests of the same size both receive it, and
    neither creates a texture. *)
Theorem double_return_hands_out_twice (fuel : nat) (fw fh res : Q)
    (aa hdr ign : bool) (w w1 : World) (uid : nat) :
  getOptimalTexture fuel fw fh res aa hdr ign w = Some (uid, w1) ->
  exists w2 w3,
    getOptimalTexture fuel fw fh res aa hdr ign
      (returnTexture uid (returnTexture uid w1)) = Some (uid, w2)
    /\ getOptimalTexture fuel fw fh res aa hdr ign w2 = Some (uid, w3)
    /\ nextUid w3 = nextUid w1.
Proof.
  intros H.
  destruct (optimalSize fuel (pool w) ign (scaledSize fw res) (scaledSize fh res))
    as [[[sign width] height]|] eqn:Hopt.
  2:{ unfold getOptimalTexture in H. by rewrite Hopt in H. }
  destruct (getOptimalTexture_served _ _ _ _ aa hdr _ _ _ _ _ Hopt)
    as (uid' & txs & n & Hget & _).
  rewrite Hget in H. injection H as -> <-.
  set (key := bucketKey sign width height aa hdr) in *.
  set (arr := removelast (default [] (_texturePool (pool w) !! key))) in *.
  rewrite !returnTexture_served.
  set (w2 := served w key uid ((arr ++ [uid]) ++ [uid]) txs n).
  assert (Hopt2 : optimalSize fuel (pool w2) ign (scaledSize fw res) (scaledSize fh res)
                  = Some (sign, width, height)) by exact Hopt.
  destruct (getOptimalTexture_pops _ _ _ _ aa hdr _ _ _ _ _ (arr ++ [uid]) uid Hopt2)
    as (txs3 & Hget3).
  { unfold w2, served. cbn [pool _texturePool]. apply lookup_insert_eq. }
  fold key in Hget3.
  set (w3 := served w2 key uid (arr ++ [uid]) txs3 (nextUid w2)) in *.
  assert (Hopt3 : optimalSize fuel (pool w3) ign (scaledSize fw res) (scaledSize fh res)
                  = Some (sign, width, height)) by exact Hopt.
  destruct (getOptimalTexture_pops _ _ _ _ aa hdr _ _ _ _ _ arr uid Hopt3)
    as (txs4 & Hget4).
  { unfold w3, served. cbn [pool _texturePool]. apply lookup_insert_eq. }
  fold key in Hget4.
  eexists _, _. split; [exact Hget3|]. split; [exact Hget4|]. done.
Qed.

Lemma double_return_hands_out_twice_witness :
  exists w1 w2 w3,
    getOptimalTexture 0 (inject_Z 300) (inject_Z 300) 1 true false false emptyWorld
      = Some (0%nat, w1)
    /\ getOptimalTexture 0 (inject_Z 300) (inject_Z 300) 1 true false false
         (returnTexture 0 (returnTexture 0 w1)) = Some (0%nat, w2)
    /\ getOptimalTexture 0 (inject_Z 300) (inject_Z 300) 1 true false false w2
       = Some (0%nat, w3).
Proof.
  eexists.
  destruct (double_return_hands_out_twice 0 (inject_Z 300) (inject_Z 300) 1
              true false false emptyWorld _ 0%nat eq_refl) as (w2 & w3 & H1 & H2 & _).
  exists w2, w3. split; [reflexivity|]. split; [exact H1|exact H2].
Defined.

(** X10.  For a width below [2^15] and a height below [2^14], and either
    sign, the bucket key determines width, height, the anti-alias flag and
    the HDR flag: requests that differ in one of them use different
    buckets. *)
Theorem bucketKey_injective (sign width height width' height' : Z)
    (aa hdr aa' hdr' : bool) :
  sign <> 0 ->
  0 <= width < 2 ^ 15 -> 0 <= height < 2 ^ 14 ->
  0 <= width' < 2 ^ 15 -> 0 <= height' < 2 ^ 14 ->
  bucketKey sign width height aa hdr = bucketKey sign width' height' aa' hdr' ->
  width = width' /\ height = height' /\ aa = aa' /\ hdr = hdr'.
Proof.
  intros Hs Hw Hh Hw' Hh'. unfold bucketKey.
  rewrite (shl_small width 16), (shl_small width' 16),
          (shl_small height 2), (shl_small height' 2) by lia.
  intros Heq. apply Z.mul_reg_l in Heq; [|done].
  destruct aa, hdr, aa', hdr'; repeat split; first [done | lia].
Qed.

Lemma bucketKey_injective_witness :
  1024 = 1024 /\ 512 = 512 /\ true = true /\ false = false.
Proof.
  apply (bucketKey_injective (-1) 1024 512 1024 512 true false true false);
    [lia|lia|lia|lia|lia|reflexivity].
Defined.

(** Dividing by the default factor and rounding up never goes below 3, nor
    below the size divided when that is smaller. *)
Lemma ceilDiv_default_lower (s : Z) : Z.min s 3 <= ceilDiv s (7 # 5).
Proof.
  unfold ceilDiv.
  pose proof (Qle_ceiling (inject_Z s / (7 # 5))) as Hc.
  set (c := Qceiling (inject_Z s / (7 # 5))) in *.
  assert (Hx : (inject_Z s / (7 # 5) == inject_Z s * (5 # 7))%Q) by (by field).
  rewrite Hx in Hc.
  destruct (Z.le_gt_cases 3 s) as [H3|H3].
  - rewrite Z.min_r by lia.
    assert (inject_Z 3 <= inject_Z s)%Q by (by rewrite <- Zle_Qle).
    assert (Hlt : (inject_Z 2 < inject_Z c)%Q).
    { change (inject_Z 3) with (3 # 1)%Q in *. change (inject_Z 2) with (2 # 1)%Q. lra. }
    rewrite <- Zlt_Qlt in Hlt. lia.
  - rewrite Z.min_l by lia.
    assert (inject_Z s <= inject_Z 3)%Q by (rewrite <- Zle_Qle; lia).
    assert (Hlt : (inject_Z (s - 1) < inject_Z c)%Q).
    { unfold Z.sub. rewrite inject_Z_plus.
      change (inject_Z (- (1))) with (-1 # 1)%Q.
      change (inject_Z 3) with (3 # 1)%Q in *. lra. }
    rewrite <- Zlt_Qlt in Hlt. lia.
Qed.

(** With the default factor the shrink loop never ends for a request of at
    most 3 pixels that the surface covers. *)
Lemma shrinkScreen_small_never_ends (fuel : nat) (w s : Z) :
  w <= 3 -> w <= s -> shrinkScreen fuel (7 # 5) w s = None.
Proof.
  intros H3. revert s. induction fuel as [|fuel IH]; intros s Hs; [done|].
  cbn [shrinkScreen]. pose proof (ceilDiv_default_lower s).
  destruct (Z.leb_spec w (ceilDiv s (7 # 5))); [|lia].
  apply IH. lia.
Qed.

(** X11.  With the default factor 7/5, a request that takes the
    screen-relative path while its scaled width or height is at most 3 never
    returns: the shrinking loop of [getOptimalTexture] cannot bring either
    dimension to 1, since the step from 3 gives 3 and the step from 2 gives
    2. *)
Theorem small_screen_request_never_returns (fuel : nat) (fw fh res : Q)
    (aa hdr : bool) (w : World) :
  screenSizeFactor (pool w) = 7 # 5 ->
  usePow2 (pool w) false (scaledSize fw res) (scaledSize fh res) = false ->
  scaledSize fw res <= 3 \/ scaledSize fh res <= 3 ->
  getOptimalTexture fuel fw fh res aa hdr false w = None.
Proof.
  intros Hf Hpow Hsmall.
  assert (Hin : scaledSize fw res <= _pixelsWidth (pool w)
                /\ scaledSize fh res <= _pixelsHeight (pool w)).
  { unfold usePow2 in Hpow. cbn [orb] in Hpow.
    apply orb_false_elim in Hpow as (Hpow & Hh).
    apply orb_false_elim in Hpow as (Hpow & Hw).
    destruct (Z.gtb_spec (scaledSize fw res) (_pixelsWidth (pool w))); [done|].
    destruct (Z.gtb_spec (scaledSize fh res) (_pixelsHeight (pool w))); [done|].
    lia. }
  unfold getOptimalTexture, optimalSize. rewrite Hpow, Hf.
  destruct Hsmall as [Hs|Hs].
  - by rewrite (shrinkScreen_small_never_ends fuel (scaledSize fw res)) by lia.
  - destruct (shrinkScreen fuel (7 # 5) (scaledSize fw res) (_pixelsWidth (pool w)));
      [|done].
    cbn [mbind option_bind].
    by rewrite (shrinkScreen_small_never_ends fuel (scaledSize fh res)) by lia.
Qed.

Lemma small_screen_request_never_returns_witness :
  usePow2 (pool Sample.lowThresholdWorld) false 2 50 = false
  /\ getOptimalTexture 1000 (inject_Z 2) (inject_Z 50) 1 false false false
       Sample.lowThresholdWorld = None.
Proof.
  split; [reflexivity|].
  apply small_screen_request_never_returns; [reflexivity|by vm_compute|].
  left. by vm_compute.
Defined.


Lemma alignedSize_whole (z : Z) : alignedSize (inject_Z z) 0 1 = z.
Proof.
  unfold alignedSize. rewrite Z.mul_1_r.
  assert (H : ((inject_Z z + inject_Z 0) / inject_Z 1 == inject_Z z)%Q).
  { change (inject_Z 0) with 0%Q. change (inject_Z 1) with 1%Q. field. }
  rewrite H. apply Qceiling_Z.
Qed.

(** X12.  On a pool that tracks no surface yet, and with the screen
    fields as initialised, [setScreenSize] with a whole size other than 0 by
    0 records the size, makes it the surface, and changes nothing else: no
    bucket is dropped, no texture destroyed, [enableFullScreen] is as
    before. *)
Theorem setScreenSize_on_new_pool (pw ph : Z) (w : World) :
  _pixelsWidth (pool w) <= 0 -> pw <> 0 \/ ph <> 0 ->
  setScreenSize (inject_Z pw) (inject_Z ph) newScreen w
  = Some ({| _screenWidth := inject_Z pw; _screenHeight := inject_Z ph;
             screenAlign := 1; screenPadding := 0 |},
          withSurface pw ph w).
Proof.
  intros Hzero Hne. unfold setScreenSize, newScreen.
  cbn [_screenWidth _screenHeight screenAlign screenPadding].
  assert (Hchg : Qeq_bool (inject_Z pw) 0 && Qeq_bool (inject_Z ph) 0 = false).
  { apply andb_false_iff.
    destruct Hne as [H|H]; [left|right]; apply not_true_is_false;
      intros Heq; apply Qeq_bool_eq in Heq;
      change 0%Q with (inject_Z 0) in Heq;
      apply (proj1 (inject_Z_injective _ _)) in Heq; lia. }
  rewrite Hchg. destruct (decide (1 = 0)); [done|].
  rewrite bool_decide_eq_false_2 by lia.
  by rewrite !alignedSize_whole.
Qed.

Lemma setScreenSize_on_new_pool_witness :
  setScreenSize (inject_Z 1920) (inject_Z 1080) newScreen emptyWorld
  = Some (Sample.screen1080, Sample.world1080).
Proof. apply (setScreenSize_on_new_pool 1920 1080 emptyWorld); [simpl; lia|left; lia]. Defined.

Lemma setScreenSize_drops_screen_buckets_witness :
  exists w sc' w' key,
    getOptimalTexture 3 (inject_Z 1000) (inject_Z 1000) 1 false false false Sample.world1080
      = Some (0%nat, w)
    /\ _poolKeyHash (pool w) !! 0%nat = Some key
    /\ _texturePool (pool (returnTexture 0 w)) !! key = Some [0%nat]
    /\ setScreenSize (inject_Z 1280) (inject_Z 720) Sample.screen1080 (returnTexture 0 w)
       = Some (sc', w')
    /\ _texturePool (pool w') !! key = None
    /\ destroyed <$> textures w' !! 0%nat = Some true
    /\ _pixelsWidth (pool w') = 1280.
Proof.
  set (w := default emptyWorld
              (snd <$> getOptimalTexture 3 (inject_Z 1000) (inject_Z 1000) 1
                         false false false Sample.world1080)).
  set (res := setScreenSize (inject_Z 1280) (inject_Z 720) Sample.screen1080 (returnTexture 0 w)).
  set (sc' := default Sample.screen1080 (fst <$> res)).
  set (w' := default emptyWorld (snd <$> res)).
  assert (Hres : res = Some (sc', w')) by (by vm_compute).
  destruct (setScreenSize_drops_screen_buckets _ _ _ _ _ _ Hres)
    as (Hneg & _ & Hdes & _ & Hpw & _).
  - by vm_compute.
  - by vm_compute.
  - exists w, sc', w', (-89919712).
    split; [by vm_compute|]. split; [by vm_compute|]. split; [by vm_compute|].
    split; [exact Hres|]. split; [by apply Hneg|].
    split; [|by rewrite Hpw; vm_compute].
    erewrite (Hdes (-89919712) [0%nat] 0%nat); [done|done|by vm_compute|by left|by vm_compute].
Defined.

Lemma screen_texture_returned_after_resize_is_destroyed_witness :
  exists w sc' w',
    getOptimalTexture 3 (inject_Z 1000) (inject_Z 1000) 1 false false false Sample.world1080
      = Some (0%nat, w)
    /\ setScreenSize (inject_Z 1280) (inject_Z 720) Sample.screen1080 w = Some (sc', w')
    /\ destroyed <$> textures (returnTexture 0 w') !! 0%nat = Some true.
Proof.
  set (w := default emptyWorld
              (snd <$> getOptimalTexture 3 (inject_Z 1000) (inject_Z 1000) 1
                         false false false Sample.world1080)).
  set (res := setScreenSize (inject_Z 1280) (inject_Z 720) Sample.screen1080 w).
  set (sc' := default Sample.screen1080 (fst <$> res)).
  set (w' := default emptyWorld (snd <$> res)).
  assert (Hres : res = Some (sc', w')) by (by vm_compute).
  assert (Ht : exists t0, textures w !! 0%nat = Some t0) by (eexists; by vm_compute).
  destruct Ht as (t0 & Ht).
  destruct (screen_texture_returned_after_resize_is_destroyed _ _ _ _ _ _
              0%nat (-89919712) t0 Hres) as (H1 & _).
  - by vm_compute.
  - by vm_compute.
  - by vm_compute.
  - done.
  - exact Ht.
  - exists w, sc', w'. split; [by vm_compute|]. split; [exact Hres|].
    by rewrite H1.
Defined.

End TexturePoolLifecycle.

(** ** Key packing *)

Section KeyPacking.

#[local] Transparent Js.toInt32 Js.toUint32 Js.shl Js.bor Js.band.

Import PipelineSystem.

(** Below bit [n] and from bit [n] on: [|] adds. *)
Lemma lor_add_disjoint (a b n : Z) :
  0 <= n -> 0 <= b < 2 ^ n -> Z.lor (a * 2 ^ n) b = a * 2 ^ n + b.
Proof.
  intros Hn Hb.
  assert (Hland : Z.land (a * 2 ^ n) b = 0).
  { apply Z.bits_inj'. intros i Hi. rewrite Z.land_spec, Z.bits_0.
    destruct (Z.lt_ge_cases i n) as [Hlt|Hge].
    - by rewrite Z.mul_pow2_bits_low.
    - destruct (decide (b = 0)) as [->|Hb0]; [by rewrite Z.bits_0, andb_false_r|].
      rewrite (Z.bits_above_log2 b i), andb_false_r; [done|lia|].
      assert (Z.log2 b < n) by (apply Z.log2_lt_pow2; lia). lia. }
  by rewrite <- Z.lxor_lor, <- Z.add_nocarry_lxor.
Qed.

(** [|] of two 32-bit integers is a 32-bit integer. *)
Lemma lor_int32 (a b : Z) :
  - 2 ^ 31 <= a < 2 ^ 31 -> - 2 ^ 31 <= b < 2 ^ 31 ->
  - 2 ^ 31 <= Z.lor a b < 2 ^ 31.
Proof.
  intros Ha Hb.
  apply (Z.bounded_iff_bits 31); [lia|]. intros l Hl.
  rewrite Z.lor_spec.
  rewrite (proj1 (Z.bounded_iff_bits 31 a ltac:(lia)) Ha l Hl).
  rewrite (proj1 (Z.bounded_iff_bits 31 b ltac:(lia)) Hb l Hl).
  pose proof (Z.lor_neg a b).
  repeat case_bool_decide; simpl; try done; lia.
Qed.

Lemma bor_bor (a b c : Z) :
  Js.bor (Js.bor a b) c = Z.lor (Z.lor (Js.toInt32 a) (Js.toInt32 b)) (Js.toInt32 c).
Proof.
  unfold Js.bor at 1. f_equal. unfold Js.bor.
  apply toInt32_small, lor_int32; apply toInt32_range.
Qed.

Lemma bor_small (a b n : Z) :
  0 <= n -> 0 <= b < 2 ^ n -> 0 <= a -> a * 2 ^ n + b < 2 ^ 31 ->
  Js.bor (a * 2 ^ n) b = a * 2 ^ n + b.
Proof.
  intros Hn Hb Ha Hlt. unfold Js.bor.
  assert (0 <= a * 2 ^ n) by (apply Z.mul_nonneg_nonneg; lia).
  rewrite !toInt32_small by lia. by apply lor_add_disjoint.
Qed.

(** Within the widths that the shifts leave, a program key is the sum of
    its three fields. *)
Lemma getProgKey_small (g sk t : Z) :
  0 <= g < 2 ^ 18 -> 0 <= sk < 2 ^ 10 -> 0 <= t < 2 ^ 3 ->
  getProgKey g sk t = g * 2 ^ 13 + sk * 2 ^ 3 + t.
Proof.
  intros Hg Hsk Ht. unfold getProgKey.
  rewrite (shl_small g 13), (shl_small sk 3) by lia.
  replace (g * 2 ^ 13) with (g * 2 ^ 10 * 2 ^ 3) by lia.
  rewrite <- (Z.mul_add_distr_r _ _ (2 ^ 3)) || idtac.
  replace (Js.bor (g * 2 ^ 10 * 2 ^ 3) (sk * 2 ^ 3))
    with (g * 2 ^ 10 * 2 ^ 3 + sk * 2 ^ 3).
  2:{ replace (g * 2 ^ 10 * 2 ^ 3) with (g * 2 ^ 13) by lia.
      symmetry. apply bor_small; lia. }
  rewrite <- Z.mul_add_distr_r.
  rewrite bor_small by lia. lia.
Qed.

Lemma getGraphicsStateKey_small (c d s b : Z) :
  0 <= c < 2 ^ 16 -> 0 <= d < 2 ^ 3 -> 0 <= s < 2 ^ 7 -> 0 <= b < 2 ^ 5 ->
  getGraphicsStateKey c d s b = c * 2 ^ 15 + d * 2 ^ 12 + s * 2 ^ 5 + b.
Proof.
  intros Hc Hd Hs Hb. unfold getGraphicsStateKey.
  rewrite (shl_small c 15), (shl_small d 12), (shl_small s 5) by lia.
  rewrite (bor_small c (d * 2 ^ 12) 15) by lia.
  replace (c * 2 ^ 15 + d * 2 ^ 12) with ((c * 2 ^ 3 + d) * 2 ^ 12) by lia.
  rewrite (bor_small (c * 2 ^ 3 + d) (s * 2 ^ 5) 12) by lia.
  replace ((c * 2 ^ 3 + d) * 2 ^ 12 + s * 2 ^ 5)
    with (((c * 2 ^ 3 + d) * 2 ^ 7 + s) * 2 ^ 5) by lia.
  rewrite (bor_small _ b 5) by lia. lia.
Qed.

(** X13.  [getProgKey] is one-to-one on layout keys below [2^18], shader
    keys below [2^10] and topology ids below [2^3]: within these ranges two
    different draws never share a program key. *)
Theorem getProgKey_injective (g sk t g' sk' t' : Z) :
  0 <= g < 2 ^ 18 -> 0 <= sk < 2 ^ 10 -> 0 <= t < 2 ^ 3 ->
  0 <= g' < 2 ^ 18 -> 0 <= sk' < 2 ^ 10 -> 0 <= t' < 2 ^ 3 ->
  getProgKey g sk t = getProgKey g' sk' t' ->
  g = g' /\ sk = sk' /\ t = t'.
Proof.
  intros Hg Hsk Ht Hg' Hsk' Ht'.
  rewrite !getProgKey_small by done. lia.
Qed.

Lemma getProgKey_injective_witness :
  1 = 1 /\ 3 = 3
  /\ topologyStringToId Geometry.triangle_list = topologyStringToId Geometry.triangle_list.
Proof.
  apply (getProgKey_injective 1 3 _ 1 3 _); try (simpl; lia).
Defined.

(** X14.  The shader key is given ten bits only.  A shader key with
    bit 10 set runs into the lowest bit of the layout key: it gives the key
    of the draw whose layout key has that bit set, and is not told apart
    from the shader key without bit 10 under such a layout. *)
Theorem getProgKey_collides_beyond_ten_bits (g sk t : Z) :
  0 <= g < 2 ^ 17 -> 0 <= sk < 2 ^ 10 -> 0 <= t < 2 ^ 3 ->
  getProgKey (2 * g + 1) sk t = getProgKey (2 * g) (sk + 2 ^ 10) t
  /\ getProgKey (2 * g + 1) (sk + 2 ^ 10) t = getProgKey (2 * g + 1) sk t.
Proof.
  intros Hg Hsk Ht.
  rewrite (getProgKey_small (2 * g + 1) sk t) by lia.
  unfold getProgKey.
  rewrite (shl_small (2 * g) 13), (shl_small (2 * g + 1) 13),
          (shl_small (sk + 2 ^ 10) 3) by lia.
  replace ((sk + 2 ^ 10) * 2 ^ 3) with (1 * 2 ^ 13 + sk * 2 ^ 3) by lia.
  replace (2 * g * 2 ^ 13) with (g * 2 ^ 14) by lia.
  replace ((2 * g + 1) * 2 ^ 13) with (g * 2 ^ 14 + 1 * 2 ^ 13) by lia.
  rewrite (bor_small g (1 * 2 ^ 13 + sk * 2 ^ 3) 14) by lia.
  assert (Hsame : Js.bor (g * 2 ^ 14 + 1 * 2 ^ 13) (1 * 2 ^ 13 + sk * 2 ^ 3)
                  = g * 2 ^ 14 + 1 * 2 ^ 13 + sk * 2 ^ 3).
  { unfold Js.bor. rewrite !toInt32_small by lia.
    assert (HA : g * 2 ^ 14 + 1 * 2 ^ 13 = Z.lor (g * 2 ^ 14) (1 * 2 ^ 13))
      by (symmetry; apply lor_add_disjoint; lia).
    assert (HB : 1 * 2 ^ 13 + sk * 2 ^ 3 = Z.lor (1 * 2 ^ 13) (sk * 2 ^ 3))
      by (symmetry; apply lor_add_disjoint; lia).
    assert (HC : Z.lor (g * 2 ^ 14) (1 * 2 ^ 13 + sk * 2 ^ 3)
                 = g * 2 ^ 14 + (1 * 2 ^ 13 + sk * 2 ^ 3))
      by (apply lor_add_disjoint; lia).
    transitivity (Z.lor (Z.lor (g * 2 ^ 14) (1 * 2 ^ 13))
                        (Z.lor (1 * 2 ^ 13) (sk * 2 ^ 3)));
      [by rewrite <- HA, <- HB|].
    rewrite <- Z.lor_assoc, (Z.lor_assoc (1 * 2 ^ 13) (1 * 2 ^ 13)), Z.lor_diag.
    rewrite <- HB, HC. lia. }
  rewrite Hsame.
  replace (g * 2 ^ 14 + (1 * 2 ^ 13 + sk * 2 ^ 3))
    with ((g * 2 ^ 11 + 2 ^ 10 + sk) * 2 ^ 3) by lia.
  replace (g * 2 ^ 14 + 1 * 2 ^ 13 + sk * 2 ^ 3)
    with ((g * 2 ^ 11 + 2 ^ 10 + sk) * 2 ^ 3) by lia.
  rewrite (bor_small _ t 3) by lia. lia.
Qed.

Lemma getProgKey_collides_beyond_ten_bits_witness :
  getProgKey 1 0 3 = getProgKey 0 1024 3
  /\ getProgKey 1 1024 3 = getProgKey 1 0 3.
Proof. apply (getProgKey_collides_beyond_ten_bits 0 0 3); lia. Defined.

(** X15.  [getGraphicsStateKey] is one-to-one on custom ids below [2^16],
    depth compare keys below [2^3], state words below [2^7] and blend mode
    ids below [2^5], its four arguments in this order: within these ranges
    two draws that differ in one of them never share a draw key. *)
Theorem getGraphicsStateKey_injective
    (customId depthCompareKey state blendMode : Z)
    (customId' depthCompareKey' state' blendMode' : Z) :
  0 <= customId < 2 ^ 16 -> 0 <= depthCompareKey < 2 ^ 3 ->
  0 <= state < 2 ^ 7 -> 0 <= blendMode < 2 ^ 5 ->
  0 <= customId' < 2 ^ 16 -> 0 <= depthCompareKey' < 2 ^ 3 ->
  0 <= state' < 2 ^ 7 -> 0 <= blendMode' < 2 ^ 5 ->
  getGraphicsStateKey customId depthCompareKey state blendMode
    = getGraphicsStateKey customId' depthCompareKey' state' blendMode' ->
  customId = customId' /\ depthCompareKey = depthCompareKey'
  /\ state = state' /\ blendMode = blendMode'.
Proof.
  intros Hc Hd Hs Hb Hc' Hd' Hs' Hb'.
  rewrite !getGraphicsStateKey_small by done. lia.
Qed.

(** The draw key of the sample state under depth compare key 2. *)
Lemma getGraphicsStateKey_injective_witness :
  customId Sample.state = 0 /\ 2 = 2 /\ data Sample.state = 0
  /\ _blendModeId Sample.state = 1.
Proof.
  apply (getGraphicsStateKey_injective (customId Sample.state) 2
           (data Sample.state) (_blendModeId Sample.state) 0 2 0 1);
    try (simpl; lia).
Defined.

(** The global key as nested [Z.lor]s. *)
Lemma getGlobalStateKey_lor (st msaa mask rt hdr0 : Z) :
  getGlobalStateKey st msaa mask rt hdr0
  = Z.lor (Z.lor (Z.lor (Z.lor (Js.toInt32 (Js.shl mask 8))
                           (Js.toInt32 (Js.shl (if Js.band rt 1 =? 0 then 0 else st) 5)))
                    (Js.toInt32 (Js.shl rt 3)))
             (Js.toInt32 (Js.shl hdr0 1)))
      (Js.toInt32 msaa).
Proof.
  unfold getGlobalStateKey.
  rewrite bor_bor. f_equal. f_equal.
  rewrite (toInt32_small (Js.bor _ _)).
  2:{ unfold Js.bor. apply lor_int32; apply toInt32_range. }
  by rewrite bor_bor.
Qed.

(** The bit of multisample count 4 is the high bit of the HDR tier. *)
Lemma getGlobalStateKey_msaa4 (st mask rt : Z) :
  getGlobalStateKey st 4 mask rt 2 = getGlobalStateKey st 4 mask rt 0.
Proof.
  rewrite !getGlobalStateKey_lor.
  rewrite <- !(Z.lor_assoc _ (Js.toInt32 (Js.shl _ 1)) (Js.toInt32 4)).
  f_equal.
Qed.

End KeyPacking.

(** ** The pipeline cache: what the partitions hold *)

Section PipelineCacheContents.

Import PipelineSystem.

#[local] Opaque Js.toInt32 Js.toUint32 Js.shl Js.bor Js.band.

Ltac pipeline_fields :=
  unfold withTables, withGlobals, withLayoutCaches, setDepthCompareKey in *;
  cbn [_bufferLayoutsCache _bindingNamesCache pipeHashes pipeTables nextObject
       _pipeCache _prevProgKey _prevPipeKey _pipeRT _pipeStateCaches
       _depthCompareKey _stencilMode _colorMask _multisampleCount
       _depthStencilAttachment _hdr device] in *.

(** After a first call, in any state with the same tables, the same global
    key and the same draw key, the call returns the pipeline built then. *)
Lemma getPipeline_same_keys (g : Geometry.t) (prog : GpuProgram.t) (st : State)
    (topo : option Geometry.Topology) (s s2 : PipelineSystem.t) :
  inv s ->
  sameTables (getPipeline g prog st topo s).2 s2 ->
  globalKey s2 = globalKey s -> drawKey st s2 = drawKey st s ->
  (getPipeline g prog st topo s2).1 = (getPipeline g prog st topo s).1
  /\ device (getPipeline g prog st topo s2).2 = device s2.
Proof.
  intros Hinv Ht Hgk Hdk.
  destruct (getPipeline_ok g prog st topo s Hinv) as (Hinv1 & _ & Hc1 & Hg1).
  destruct (sameTables_transfer _ _ Ht) as (Hsel & Hok & Hmono).
  destruct (sameGlobalState_keys _ _ st Hg1) as (Hgk1 & _).
  destruct Hinv1 as (Hsync1 & Hsel1 & Hok1).
  apply getPipeline_hit.
  - split; [|split; [by apply Hsel|by apply Hok]].
    destruct Ht as (_ & _ & _ & _ & _ & -> & _). congruence.
  - rewrite Hgk, Hdk. by apply Hmono.
Qed.

(** X16.  With four samples the global key has one bit for HDR, taken
    from bit 0 of the tier.  After a switch from no HDR to tier 2 on an
    otherwise equal render target, [setRenderTarget] records the new tier,
    yet the same draw gets the pipeline it got before and nothing is created
    on the device. *)
Theorem msaa4_hdr_tiers_share_pipelines (g : Geometry.t) (prog : GpuProgram.t)
    (st : State) (topo : option Geometry.Topology) (rt : GpuRenderTarget)
    (s : PipelineSystem.t) :
  inv s -> _multisampleCount s = 4 -> num (_hdr s) = 0 ->
  msaaSamples rt = 4 -> hdr rt = 2 ->
  match depthStencilAttachment rt with
  | Some stencilLoadOp => Js.bor 1 (if stencilLoadOp then 2 else 0)
  | None => 0
  end = _depthStencilAttachment s ->
  _hdr (setRenderTarget rt (getPipeline g prog st topo s).2) = Some 2
  /\ (getPipeline g prog st topo
        (setRenderTarget rt (getPipeline g prog st topo s).2)).1
     = (getPipeline g prog st topo s).1
  /\ device (getPipeline g prog st topo
               (setRenderTarget rt (getPipeline g prog st topo s).2)).2
     = device (getPipeline g prog st topo s).2.
Proof.
  intros Hinv Hmsaa Hhdr Hrtm Hrth Hrta.
  destruct (getPipeline_ok g prog st topo s Hinv) as (Hinv1 & _ & _ & Hg1).
  set (s1 := (getPipeline g prog st topo s).2) in *.
  destruct Hg1 as (E1 & E2 & E3 & E4 & E5 & E6).
  assert (Hset : setRenderTarget rt s1
                 = withGlobals (_stencilMode s1) (_colorMask s1) 4
                     (_depthStencilAttachment s1) (Some 2) s1).
  { unfold setRenderTarget. rewrite Hrtm, Hrth, Hrta, <- E4.
    unfold _updatePipeHash.
    destruct (decide _) as [|Hne]; [done|]. exfalso. apply Hne.
    destruct Hinv1 as (Hsync1 & _). unfold globalKey in *. pipeline_fields.
    rewrite Hsync1, E3, Hmsaa, E5, Hhdr. change (num (Some 2)) with 2.
    symmetry. apply getGlobalStateKey_msaa4. }
  rewrite Hset. split; [done|].
  destruct (getPipeline_same_keys g prog st topo s
              (withGlobals (_stencilMode s1) (_colorMask s1) 4
                 (_depthStencilAttachment s1) (Some 2) s1) Hinv) as (Hp & Hd).
  - fold s1. by repeat split.
  - unfold globalKey. pipeline_fields. rewrite E1, E2, E4, Hhdr, Hmsaa.
    change (num (Some 2)) with 2. apply getGlobalStateKey_msaa4.
  - unfold drawKey. pipeline_fields. by rewrite E4, E6.
  - split; [exact Hp|]. rewrite Hd. done.
Qed.

(** Under a target with four samples and HDR tier 0, the pipeline of the
    sample draw is returned again after a switch to tier 2. *)
Lemma msaa4_hdr_tiers_share_pipelines_witness :
  _hdr (setRenderTarget (Sample.msaaTarget 2)
          (getPipeline Sample.geometry Sample.program Sample.state None
             (setRenderTarget (Sample.msaaTarget 0) Sample.pipelines)).2) = Some 2
  /\ (getPipeline Sample.geometry Sample.program Sample.state None
        (setRenderTarget (Sample.msaaTarget 2)
           (getPipeline Sample.geometry Sample.program Sample.state None
              (setRenderTarget (Sample.msaaTarget 0) Sample.pipelines)).2)).1
     = (getPipeline Sample.geometry Sample.program Sample.state None
          (setRenderTarget (Sample.msaaTarget 0) Sample.pipelines)).1.
Proof.
  destruct (msaa4_hdr_tiers_share_pipelines Sample.geometry Sample.program
              Sample.state None (Sample.msaaTarget 2)
              (setRenderTarget (Sample.msaaTarget 0) Sample.pipelines))
    as (H1 & H2 & _).
  - exact (reachable_inv 0 [SetRenderTarget (Sample.msaaTarget 0)]).
  - by vm_compute.
  - by vm_compute.
  - reflexivity.
  - reflexivity.
  - by vm_compute.
  - split; [exact H1|exact H2].
Defined.

(** X17.  While the render target has no depth attachment, the depth
    compare key is stored by [setDepthCompareKey] but is no part of the
    global key: the same draw gets the pipeline it got before and nothing is
    created on the device. *)
Theorem depth_compare_ignored_without_depth_attachment (g : Geometry.t)
    (prog : GpuProgram.t) (st : State) (topo : option Geometry.Topology)
    (k : Z) (s : PipelineSystem.t) :
  inv s -> Js.band (_depthStencilAttachment s) 1 = 0 ->
  _depthCompareKey (setDepthCompareKey k (getPipeline g prog st topo s).2) = k
  /\ (getPipeline g prog st topo
        (setDepthCompareKey k (getPipeline g prog st topo s).2)).1
     = (getPipeline g prog st topo s).1
  /\ device (getPipeline g prog st topo
               (setDepthCompareKey k (getPipeline g prog st topo s).2)).2
     = device (getPipeline g prog st topo s).2.
Proof.
  intros Hinv Hband. split; [done|].
  destruct (getPipeline_ok g prog st topo s Hinv) as (_ & _ & _ & Hg1).
  set (s1 := (getPipeline g prog st topo s).2) in *.
  destruct Hg1 as (E1 & E2 & E3 & E4 & E5 & E6).
  destruct (getPipeline_same_keys g prog st topo s (setDepthCompareKey k s1) Hinv)
    as (Hp & Hd).
  - fold s1. by repeat split.
  - unfold globalKey. pipeline_fields. by rewrite E1, E2, E3, E4, E5.
  - unfold drawKey. pipeline_fields. rewrite E4.
    by destruct (decide (Js.band (_depthStencilAttachment s) 1 = 0)).
  - split; [exact Hp|]. rewrite Hd. done.
Qed.

Lemma depth_compare_ignored_without_depth_attachment_witness :
  (getPipeline Sample.geometry Sample.program Sample.state None
     (setDepthCompareKey 5
        (getPipeline Sample.geometry Sample.program Sample.state None
           Sample.pipelines).2)).1
  = (getPipeline Sample.geometry Sample.program Sample.state None
       Sample.pipelines).1
  /\ length (device
       (getPipeline Sample.geometry Sample.program Sample.state None
          (setDepthCompareKey 5
             (getPipeline Sample.geometry Sample.program Sample.state None
                Sample.pipelines).2)).2) = 1%nat.
Proof.
  destruct (depth_compare_ignored_without_depth_attachment Sample.geometry
              Sample.program Sample.state None 5 Sample.pipelines)
    as (_ & H1 & H2).
  - exact (reachable_inv 0 []).
  - by vm_compute.
  - split; [exact H1|]. rewrite H2. by vm_compute.
Defined.


(** The three low bits of a program key are the topology. *)
Lemma getProgKey_low_bits (g sh : Z) (topo : Geometry.Topology) :
  Z.land (getProgKey g sh (topologyStringToId topo)) 7 = topologyStringToId topo.
Proof.
  apply Z.bits_inj'. intros i Hi.
  rewrite Z.land_spec. change 7 with (Z.ones 3).
  destruct (Z.lt_ge_cases i 3) as [Hlt|Hge].
  - rewrite Z.ones_spec_low, andb_true_r by lia.
    rewrite getProgKey_eq, Z.lor_spec.
    rewrite testbit_toInt32, Z.lor_spec by lia.
    rewrite !testbit_toInt32 by lia.
    by rewrite (shl_testbit_low g 13 i), (shl_testbit_low sh 3 i) by lia.
  - rewrite Z.ones_spec_high, andb_false_r by lia.
    symmetry. destruct topo; cbn [topologyStringToId].
    + apply Z.bits_0.
    + apply Z.bits_above_log2; [lia|]. change (Z.log2 1) with 0. lia.
    + apply Z.bits_above_log2; [lia|]. change (Z.log2 2) with 1. lia.
    + apply Z.bits_above_log2; [lia|]. change (Z.log2 3) with 1. lia.
    + apply Z.bits_above_log2; [lia|]. change (Z.log2 4) with 2. lia.
Qed.

Lemma topologyStringToId_inj (t1 t2 : Geometry.Topology) :
  topologyStringToId t1 = topologyStringToId t2 -> t1 = t2.
Proof. by destruct t1, t2. Qed.

Lemma deref_insert_fresh (h : gmap nat (gmap Z nat)) (n l : nat) :
  h !! n = None -> deref (<[n := ∅]> h) l = deref h l.
Proof.
  intros Hn. destruct (decide (n = l)) as [->|Hne].
  - rewrite deref_insert_eq. unfold deref. by rewrite Hn.
  - by apply deref_insert_ne.
Qed.

Lemma updatePipeHash_topologyOk (s : PipelineSystem.t) :
  tablesOk s -> topologyOk s -> topologyOk (_updatePipeHash s).
Proof.
  intros (_ & H3 & _) (HA & HB). unfold _updatePipeHash.
  destruct (decide _); [done|].
  destruct (_pipeStateCaches s !! globalKey s) as [rt|]; [done|].
  assert (Hfresh : forall l, deref (<[nextObject s := ∅]> (pipeTables s)) l
                             = deref (pipeTables s) l).
  { intros l. apply deref_insert_fresh. by apply H3. }
  unfold topologyOk. pipeline_fields. split.
  - intros rt pk c k p. rewrite Hfresh. apply HA.
  - intros rt pk rt' pk' c. rewrite !Hfresh. apply HB.
Qed.

Lemma sameTables_topologyOk (s s' : PipelineSystem.t) :
  sameTables s s' -> device s' = device s -> topologyOk s -> topologyOk s'.
Proof.
  intros (H1 & H2 & _) Hd. unfold topologyOk. by rewrite H1, H2, Hd.
Qed.

Lemma selectPipeCache_topologyOk (pk : Z) (s : PipelineSystem.t) :
  tablesOk s -> topologyOk s -> topologyOk (selectPipeCache pk s).
Proof.
  intros (_ & H3 & _ & H7) (HA & HB). unfold selectPipeCache.
  destruct (decide _); [done|].
  destruct (deref (pipeTables s) (_pipeRT s) !! pk) as [c0|] eqn:Hlk; [done|].
  assert (Hold : forall rt pk0 c,
            deref (<[_pipeRT s := <[pk := nextObject s]> (deref (pipeTables s) (_pipeRT s))]>
                     (pipeTables s)) rt !! pk0 = Some c ->
            (pk0 = pk /\ c = nextObject s)
            \/ (c <> nextObject s /\ deref (pipeTables s) rt !! pk0 = Some c)).
  { intros rt pk0 c.
    destruct (decide (rt = _pipeRT s)) as [->|Hr].
    - rewrite deref_insert_eq. destruct (decide (pk0 = pk)) as [->|Hk].
      + rewrite lookup_insert_eq. intros [= <-]. by left.
      + rewrite lookup_insert_ne by done. intros Hc. right. split; [|done].
        specialize (H7 _ _ _ Hc). lia.
    - rewrite deref_insert_ne by done. intros Hc. right. split; [|done].
      specialize (H7 _ _ _ Hc). lia. }
  unfold topologyOk. pipeline_fields. split.
  - intros rt pk0 c k p Ht Hh.
    destruct (Hold _ _ _ Ht) as [(-> & ->)|(Hne & Ht0)].
    + rewrite deref_insert_eq in Hh. by rewrite lookup_empty in Hh.
    + rewrite deref_insert_ne in Hh by done. by eapply HA.
  - intros rt pk0 rt' pk0' c Ht Ht'.
    destruct (Hold _ _ _ Ht) as [(-> & ->)|(Hne & Ht0)];
      destruct (Hold _ _ _ Ht') as [(-> & Hc)|(Hne' & Ht0')]; try done.
    by eapply HB.
Qed.

Lemma createPipeline_device (g : Geometry.t) (prog : GpuProgram.t)
    (topo : Geometry.Topology) (s : PipelineSystem.t) :
  exists d, device (_createPipeline g prog topo s).2 = device s ++ [d]
            /\ d_topology d = topo.
Proof.
  unfold _createPipeline.
  destruct (createVertexBufferLayouts_frame g prog s) as (_ & _ & Hd).
  destruct (_createVertexBufferLayouts g prog s) as [buffers s1].
  cbn [fst snd] in *. pipeline_fields. rewrite Hd. by eexists.
Qed.

Lemma getPipeline_topologyOk (g : Geometry.t) (prog : GpuProgram.t) (st : State)
    (topo : option Geometry.Topology) (s : PipelineSystem.t) :
  inv s -> topologyOk s -> topologyOk (getPipeline g prog st topo s).2.
Proof.
  intros (Hsync & Hsel & Hok) Htopo.
  unfold getPipeline. fold (progKeyOf g prog topo).
  pose proof (getProgKey_not_reset (Geometry._layoutKey g)
                (GpuProgram._layoutKey prog)
                (default (Geometry.topology g) topo)) as Hpk.
  pose proof (getProgKey_low_bits (Geometry._layoutKey g)
                (GpuProgram._layoutKey prog)
                (default (Geometry.topology g) topo)) as Hlow.
  fold (progKeyOf g prog topo) in Hpk, Hlow.
  destruct (selectPipeCache_ok _ s Hpk Hsel Hok)
    as (_ & Hok1 & _ & Hcache1 & _ & Hrt1 & _ & _ & _).
  pose proof (selectPipeCache_topologyOk (progKeyOf g prog topo) s Hok Htopo)
    as (HA & HB).
  set (s1 := selectPipeCache (progKeyOf g prog topo) s) in *.
  destruct (deref (pipeHashes s1) (_pipeCache s1) !! drawKey st s1) as [p|] eqn:Hhit;
    [by split|].
  destruct (createPipeline_frame g prog (default (Geometry.topology g) topo) s1)
    as (Hp & Ht2 & _ & _).
  destruct (createPipeline_device g prog (default (Geometry.topology g) topo) s1)
    as (d & Hdev & Hd).
  destruct (_createPipeline g prog (default (Geometry.topology g) topo) s1)
    as [p s2].
  cbn [fst snd] in *.
  destruct Ht2 as (Eh & Et & En & Ec & Epk & Egk & Ert & Ecs).
  unfold topologyOk. pipeline_fields. rewrite Eh, Et, Ec, Hdev. split.
  - intros rt pk c k p0 Htab Hh.
    destruct (decide (c = _pipeCache s1)) as [->|Hne].
    + rewrite deref_insert_eq in Hh.
      destruct (decide (k = drawKey st s1)) as [->|Hk].
      * rewrite lookup_insert_eq in Hh. injection Hh as <-.
        exists d. split.
        -- rewrite Hp, lookup_app_r by lia. by rewrite Nat.sub_diag.
        -- rewrite Hd, <- Hlow. f_equal.
           rewrite <- Hrt1 in Hcache1. by eapply HB.
      * rewrite lookup_insert_ne in Hh by done.
        destruct (HA _ _ _ _ _ Htab Hh) as (d0 & Hd0 & Ht0).
        exists d0. split; [|done]. by apply lookup_app_l_Some.
    + rewrite deref_insert_ne in Hh by done.
      destruct (HA _ _ _ _ _ Htab Hh) as (d0 & Hd0 & Ht0).
      exists d0. split; [|done]. by apply lookup_app_l_Some.
  - exact HB.
Qed.

Lemma step_topologyOk (o : op) (s : PipelineSystem.t) :
  inv s -> topologyOk s -> topologyOk (step s o).
Proof.
  intros Hinv Htopo.
  assert (Hup : forall stencil mask msaa dsa hdr0,
             topologyOk (_updatePipeHash (withGlobals stencil mask msaa dsa hdr0 s))).
  { intros. destruct Hinv as (_ & _ & Hok). by apply updatePipeHash_topologyOk. }
  destruct o as [n|rt|m|k|m|g prog st topo|g prog]; cbn [step].
  - unfold setMultisampleCount. destruct (decide _); [done|]. apply Hup.
  - apply Hup.
  - unfold setColorMask. destruct (decide _); [done|]. apply Hup.
  - done.
  - unfold setStencilMode. destruct (decide _); [done|]. apply Hup.
  - by apply getPipeline_topologyOk.
  - destruct (getBufferNamesToBind_frame g prog s) as (Ht & _ & Hd).
    by eapply sameTables_topologyOk.
Qed.

Lemma reachable_topologyOk (DISABLED : Z) (ops : list op) :
  topologyOk (run ops (contextChange DISABLED create)).
Proof.
  assert (H0 : topologyOk (contextChange DISABLED create)).
  { assert (Hc : topologyOk create).
    { split.
      - intros rt pk c k p Ht. exfalso. revert Ht. unfold create, deref.
        cbn [pipeTables]. destruct (decide (rt = 1%nat)) as [->|Hne].
        + rewrite lookup_singleton_eq. cbn. by rewrite lookup_empty.
        + rewrite lookup_singleton_ne by done. cbn. by rewrite lookup_empty.
      - intros rt pk rt' pk' c Ht. exfalso. revert Ht. unfold create, deref.
        cbn [pipeTables]. destruct (decide (rt = 1%nat)) as [->|Hne].
        + rewrite lookup_singleton_eq. cbn. by rewrite lookup_empty.
        + rewrite lookup_singleton_ne by done. cbn. by rewrite lookup_empty. }
    unfold contextChange, setStencilMode. cbn [_stencilMode create].
    destruct (decide (None = Some DISABLED)) as [|_]; [done|].
    match goal with
    | |- topologyOk (_updatePipeHash (_updatePipeHash ?s0)) =>
        destruct (updatePipeHash_ok s0) as ((_ & _ & Hok) & _);
          [apply create_tablesOk|intros H; exfalso; revert H; by vm_compute|];
          pose proof (updatePipeHash_topologyOk s0 create_tablesOk Hc) as H1
    end.
    by apply updatePipeHash_topologyOk. }
  pose proof (contextChange_inv DISABLED) as Hinv.
  revert H0 Hinv. generalize (contextChange DISABLED create).
  induction ops as [|o ops IH]; intros s Ht Hinv; [done|].
  unfold run. cbn [foldl]. fold (run ops (step s o)).
  apply IH; [by apply step_topologyOk|by apply step_ok].
Qed.

(** What the selected sub-cache holds was stored under the program key in
    the current partition: a sub-cache made for the call is empty. *)
Lemma selectPipeCache_reflects (pk : Z) (s : PipelineSystem.t) (k : Z) (p : nat) :
  pk <> -1 -> selected s -> tablesOk s ->
  deref (pipeHashes (selectPipeCache pk s)) (_pipeCache (selectPipeCache pk s)) !! k
    = Some p ->
  cached s (_prevPipeKey s) pk k p.
Proof.
  intros Hpk Hsel (H2 & H3 & H6 & H7). unfold selectPipeCache.
  destruct (decide (_prevProgKey s = pk)) as [Heq|Hne].
  { intros Hk. exists (_pipeRT s), (_pipeCache s).
    split; [exact Hsel|]. split; [|exact Hk].
    rewrite <- Heq. apply H2. congruence. }
  destruct (deref (pipeTables s) (_pipeRT s) !! pk) as [c|] eqn:Hlk.
  - pipeline_fields. intros Hk. by exists (_pipeRT s), c.
  - pipeline_fields. rewrite deref_insert_eq. by rewrite lookup_empty.
Qed.

(** A call for keys under which nothing is stored creates one pipeline,
    with the topology asked for, and returns it. *)
Lemma getPipeline_miss (g : Geometry.t) (prog : GpuProgram.t) (st : State)
    (topo : option Geometry.Topology) (s : PipelineSystem.t) :
  inv s ->
  (forall p, ~ cached s (globalKey s) (progKeyOf g prog topo) (drawKey st s) p) ->
  (getPipeline g prog st topo s).1 = length (device s)
  /\ exists d, device (getPipeline g prog st topo s).2 = device s ++ [d]
               /\ d_topology d = default (Geometry.topology g) topo.
Proof.
  intros (Hsync & Hsel & Hok) Hmiss.
  unfold getPipeline. fold (progKeyOf g prog topo).
  pose proof (getProgKey_not_reset (Geometry._layoutKey g)
                (GpuProgram._layoutKey prog)
                (default (Geometry.topology g) topo)) as Hpk.
  fold (progKeyOf g prog topo) in Hpk.
  destruct (selectPipeCache_ok _ s Hpk Hsel Hok)
    as (_ & _ & _ & _ & _ & _ & _ & Hg1 & Hdev1).
  pose proof (selectPipeCache_reflects (progKeyOf g prog topo) s) as Hrefl.
  set (s1 := selectPipeCache (progKeyOf g prog topo) s) in *.
  destruct (sameGlobalState_keys s s1 st Hg1) as (_ & Hdk1).
  rewrite Hdk1.
  destruct (deref (pipeHashes s1) (_pipeCache s1) !! drawKey st s) as [p|] eqn:Hhit.
  { exfalso. apply (Hmiss p). rewrite <- Hsync. by apply Hrefl. }
  destruct (createPipeline_frame g prog (default (Geometry.topology g) topo) s1)
    as (Hp & _).
  destruct (createPipeline_device g prog (default (Geometry.topology g) topo) s1)
    as (d & Hdev & Hd).
  destruct (_createPipeline g prog (default (Geometry.topology g) topo) s1)
    as [p s2].
  cbn [fst snd] in *. pipeline_fields.
  split; [by rewrite Hp, Hdev1|].
  exists d. by rewrite Hdev, Hdev1.
Qed.

(** No operation removes a pipeline from the device or replaces one. *)
Lemma step_device (o : op) (s : PipelineSystem.t) :
  device s `prefix_of` device (step s o).
Proof.
  assert (Hup : forall s0 : PipelineSystem.t, device (_updatePipeHash s0) = device s0).
  { intros s0. unfold _updatePipeHash. destruct (decide _); [done|].
    by destruct (_pipeStateCaches s0 !! globalKey s0). }
  destruct o as [n|rt|m|k|m|g prog st topo|g prog]; cbn [step].
  - unfold setMultisampleCount. destruct (decide _); [done|]. by rewrite Hup.
  - unfold setRenderTarget. by rewrite Hup.
  - unfold setColorMask. destruct (decide _); [done|]. by rewrite Hup.
  - done.
  - unfold setStencilMode. destruct (decide _); [done|]. by rewrite Hup.
  - unfold getPipeline.
    set (pk := getProgKey _ _ _).
    pose proof (selectPipeCache_device pk s) as Hd.
    set (s1 := selectPipeCache pk s) in *.
    destruct (deref (pipeHashes s1) (_pipeCache s1) !! drawKey st s1).
    + cbn [snd]. by rewrite Hd.
    + destruct (createPipeline_device g prog (default (Geometry.topology g) topo) s1)
        as (d & Hdev & _).
      destruct (_createPipeline g prog (default (Geometry.topology g) topo) s1)
        as [p s2].
      cbn [fst snd] in *. pipeline_fields. rewrite Hdev, Hd.
      by apply prefix_app_r.
  - destruct (getBufferNamesToBind_frame g prog s) as (_ & _ & ->). done.
Qed.

Lemma run_device (ops : list op) (s : PipelineSystem.t) :
  device s `prefix_of` device (run ops s).
Proof.
  revert s. induction ops as [|o ops IH]; intros s; [done|].
  unfold run. cbn [foldl]. fold (run ops (step s o)).
  etrans; [apply step_device|apply IH].
Qed.

(** C3.  For a fixed geometry layout, shader layout, topology and render
    state, in a state reached from [contextChange]: the pipeline that
    [getPipeline] returns is a pipeline on the device, created with the
    topology asked for, and is stored under the global key, the program key
    and the draw key of the call.  If a pipeline was stored under these keys
    the call returns it and creates nothing; if none was, it creates exactly
    one and returns that.  After the first call, whatever operations run in
    between, a repeated call under the same global render-target state (and
    depth compare key) returns the same pipeline, which is still the same
    object on the device, and makes no call to the backend constructor. *)
Theorem getPipeline_same_instance (g : Geometry.t) (prog : GpuProgram.t)
    (st : State) (topo : option Geometry.Topology) (ops : list op)
    (s : PipelineSystem.t) :
  inv s -> topologyOk s ->
  sameGlobalState s (run ops (getPipeline g prog st topo s).2) ->
  (exists d,
     device (getPipeline g prog st topo s).2 !! (getPipeline g prog st topo s).1
       = Some d
     /\ d_topology d = default (Geometry.topology g) topo
     /\ device (getPipeline g prog st topo
                  (run ops (getPipeline g prog st topo s).2)).2
          !! (getPipeline g prog st topo
                (run ops (getPipeline g prog st topo s).2)).1
        = Some d)
  /\ cached (getPipeline g prog st topo s).2 (globalKey s) (progKeyOf g prog topo)
       (drawKey st s) (getPipeline g prog st topo s).1
  /\ (forall p,
        cached s (globalKey s) (progKeyOf g prog topo) (drawKey st s) p ->
        (getPipeline g prog st topo s).1 = p
        /\ device (getPipeline g prog st topo s).2 = device s)
  /\ ((forall p,
         ~ cached s (globalKey s) (progKeyOf g prog topo) (drawKey st s) p) ->
      (getPipeline g prog st topo s).1 = length (device s)
      /\ exists d, device (getPipeline g prog st topo s).2 = device s ++ [d])
  /\ (getPipeline g prog st topo (run ops (getPipeline g prog st topo s).2)).1
     = (getPipeline g prog st topo s).1
  /\ device (getPipeline g prog st topo (run ops (getPipeline g prog st topo s).2)).2
     = device (run ops (getPipeline g prog st topo s).2)
  /\ (length (device (getPipeline g prog st topo s).2) <= S (length (device s)))%nat.
Proof.
  intros Hinv Htopo Hsame.
  destruct (getPipeline_again g prog st topo ops s Hinv Hsame) as (H1 & H2).
  destruct (getPipeline_ok g prog st topo s Hinv) as (_ & _ & Hc & _).
  destruct (getPipeline_topologyOk g prog st topo s Hinv Htopo) as (HA & _).
  split.
  { destruct Hc as (rt & c & _ & Hpk & Hk).
    destruct (HA _ _ _ _ _ Hpk Hk) as (d & Hd & Ht).
    exists d. split; [exact Hd|]. split.
    - apply topologyStringToId_inj. rewrite Ht. apply getProgKey_low_bits.
    - rewrite H1, H2. eapply prefix_lookup_Some; [exact Hd|apply run_device]. }
  split; [exact Hc|].
  split; [intros p Hp; by apply getPipeline_hit|].
  split.
  { intros Hmiss. destruct (getPipeline_miss g prog st topo s Hinv Hmiss)
      as (Hid & d & Hd & _).
    split; [exact Hid|]. by exists d. }
  split; [exact H1|]. split; [exact H2|].
  apply getPipeline_creates_at_most_one.
Qed.

(** Two calls for the sample draw with a call for another topology between
    them: the pipeline is the first one created, and two were created. *)
Lemma getPipeline_same_instance_witness :
  (getPipeline Sample.geometry Sample.program Sample.state None
     (run [GetPipeline Sample.geometry Sample.program Sample.state
             (Some Geometry.line_list)]
        (getPipeline Sample.geometry Sample.program Sample.state None
           Sample.pipelines).2)).1
  = (getPipeline Sample.geometry Sample.program Sample.state None
       Sample.pipelines).1
  /\ (getPipeline Sample.geometry Sample.program Sample.state None
        Sample.pipelines).1 = 0%nat
  /\ length (device
       (run [GetPipeline Sample.geometry Sample.program Sample.state
               (Some Geometry.line_list)]
          (getPipeline Sample.geometry Sample.program Sample.state None
             Sample.pipelines).2)) = 2%nat.
Proof.
  split; [|split; by vm_compute].
  apply (getPipeline_same_instance Sample.geometry Sample.program Sample.state None
           [GetPipeline Sample.geometry Sample.program Sample.state
              (Some Geometry.line_list)]
           Sample.pipelines).
  - apply contextChange_inv.
  - exact (reachable_topologyOk 0 []).
  - unfold sameGlobalState. vm_compute. by repeat split.
Defined.

(** X18.  After a context change and any sequence of calls,
    [getPipeline] returns a pipeline that exists on the device and was
    created with the topology asked for: the argument, or the topology of the
    geometry when the argument is omitted.  A cache hit never hands out a
    pipeline of another topology. *)
Theorem getPipeline_has_requested_topology (DISABLED : Z) (ops : list op)
    (g : Geometry.t) (prog : GpuProgram.t) (st : State)
    (topo : option Geometry.Topology) :
  exists d,
    device (getPipeline g prog st topo (run ops (contextChange DISABLED create))).2
      !! (getPipeline g prog st topo (run ops (contextChange DISABLED create))).1
    = Some d
    /\ d_topology d = default (Geometry.topology g) topo.
Proof.
  pose proof (reachable_inv DISABLED ops) as Hinv.
  pose proof (reachable_topologyOk DISABLED ops) as Htopo.
  set (s := run ops (contextChange DISABLED create)) in *.
  destruct (getPipeline_ok g prog st topo s Hinv) as (_ & _ & (rt & c & _ & Hpk & Hk) & _).
  destruct (getPipeline_topologyOk g prog st topo s Hinv Htopo) as (HA & _).
  destruct (HA _ _ _ _ _ Hpk Hk) as (d & Hd & Ht).
  exists d. split; [done|].
  apply topologyStringToId_inj. rewrite Ht. apply getProgKey_low_bits.
Qed.


Lemma bufferEntry_vattributes (i : nat) (prog : GpuProgram.t)
    (attrs : list (string * Geometry.Attribute)) (e : VertexBufferLayout) :
  vattributes (bufferEntry i prog attrs e)
  = vattributes e ++ boundAttributes i prog attrs.
Proof.
  revert e. induction attrs as [|[j a] attrs IH]; intros e.
  - cbn. by rewrite app_nil_r.
  - cbn [bufferEntry]. unfold boundAttributes. cbn [omap list_omap].
    fold (boundAttributes i prog attrs).
    destruct (decide (Geometry.buffer_index a = Z.of_nat i)); [|apply IH].
    destruct (assoc j (GpuProgram.attributeData prog)) as [loc|]; [|apply IH].
    rewrite IH. cbn. by rewrite <- app_assoc.
Qed.

(** The outer loop keeps, in order, the buffers that feed an attribute. *)
Lemma vertexBufferLayouts_filter (g : Geometry.t) (prog : GpuProgram.t) :
  vertexBufferLayouts g prog
  = ((fun i => bufferEntry i prog (Geometry.attributes g)
                 {| arrayStride := 0; stepInstance := false; vattributes := [] |})
       <$> filter (fun i => boundAttributes i prog (Geometry.attributes g) <> [])
                  (seq 0 (length (Geometry.buffers g))),
     filter (fun i => boundAttributes i prog (Geometry.attributes g) <> [])
            (seq 0 (length (Geometry.buffers g)))).
Proof.
  unfold vertexBufferLayouts.
  set (e0 := {| arrayStride := 0; stepInstance := false; vattributes := [] |}).
  set (P := fun i => boundAttributes i prog (Geometry.attributes g) <> []).
  set (f := fun '(layouts, indices) i => _).
  assert (H : forall l ls ixs,
            foldl f (ls, ixs) l
            = (ls ++ ((fun i => bufferEntry i prog (Geometry.attributes g) e0)
                        <$> filter P l),
               ixs ++ filter P l)).
  { induction l as [|i l IH]; intros ls ixs.
    - cbn. by rewrite !app_nil_r.
    - cbn [foldl]. unfold f at 2.
      pose proof (bufferEntry_vattributes i prog (Geometry.attributes g) e0) as Hv.
      cbn [vattributes e0 app] in Hv.
      destruct (vattributes (bufferEntry i prog (Geometry.attributes g) e0))
        as [|x xs] eqn:E.
      + rewrite IH. rewrite filter_cons_False; [done|].
        unfold P. intros Hne. by apply Hne.
      + rewrite IH. rewrite filter_cons_True.
        2:{ unfold P. by rewrite <- Hv. }
        rewrite fmap_cons, <- !app_assoc. done. }
  rewrite (H _ [] []). done.
Qed.

(** The loops yield one layout per buffer to bind, in the same order.  A
    buffer of the geometry is in the list, once, exactly if an attribute that
    the program declares reads from it, and its layout holds the attributes
    of that buffer which the program declares. *)
Lemma vertexBufferLayouts_spec
    (g : Geometry.t) (prog : GpuProgram.t) :
  length (vertexBufferLayouts g prog).1 = length (vertexBufferLayouts g prog).2
  /\ NoDup (vertexBufferLayouts g prog).2
  /\ (forall i,
        i ∈ (vertexBufferLayouts g prog).2
        <-> (i < length (Geometry.buffers g))%nat
            /\ exists j a location,
                 (j, a) ∈ Geometry.attributes g
                 /\ Geometry.buffer_index a = Z.of_nat i
                 /\ assoc j (GpuProgram.attributeData prog) = Some location)
  /\ (forall k i,
        (vertexBufferLayouts g prog).2 !! k = Some i ->
        exists l, (vertexBufferLayouts g prog).1 !! k = Some l
                  /\ vattributes l = boundAttributes i prog (Geometry.attributes g)).
Proof.
  rewrite vertexBufferLayouts_filter. cbn [fst snd].
  split; [by rewrite length_fmap|].
  split; [apply NoDup_filter, NoDup_seq|].
  split.
  - intros i. rewrite list_elem_of_filter, elem_of_seq.
    assert (Hne : boundAttributes i prog (Geometry.attributes g) <> []
                  <-> exists j a location,
                        (j, a) ∈ Geometry.attributes g
                        /\ Geometry.buffer_index a = Z.of_nat i
                        /\ assoc j (GpuProgram.attributeData prog) = Some location).
    { split.
      - intros H.
        destruct (boundAttributes i prog (Geometry.attributes g)) as [|[loc off] rest] eqn:E;
          [done|].
        assert (Hin : (loc, off) ∈ boundAttributes i prog (Geometry.attributes g))
          by (rewrite E; left).
        unfold boundAttributes in Hin.
        apply list_elem_of_omap in Hin as ([j a] & Hin & Hsome).
        destruct (decide (Geometry.buffer_index a = Z.of_nat i)); [|done].
        destruct (assoc j (GpuProgram.attributeData prog)) as [location|] eqn:Ha; [|done].
        by exists j, a, location.
      - intros (j & a & location & Hin & Hidx & Ha) Hnil.
        assert (Hin' : (location, Geometry.offset a)
                       ∈ boundAttributes i prog (Geometry.attributes g)).
        { unfold boundAttributes. apply list_elem_of_omap. exists (j, a).
          split; [done|]. rewrite decide_True by done. by rewrite Ha. }
        rewrite Hnil in Hin'. by apply elem_of_nil in Hin'. }
    rewrite Hne. split.
    + intros (H & Hlt). split; [lia|done].
    + intros (Hlt & H). split; [done|lia].
  - intros k i Hk. rewrite list_lookup_fmap, Hk. cbn.
    eexists. split; [done|]. by rewrite bufferEntry_vattributes.
Qed.

(** X19.  When no layouts are cached under the key of the geometry layout
    and the attribute locations, [_createVertexBufferLayouts] returns one
    layout per buffer to bind, in the same order, and stores the layouts and
    the buffer indices under the key.  A buffer of the geometry is listed,
    once, exactly if an attribute that the program declares reads from it,
    and its layout holds the attributes of that buffer which the program
    declares.  From then on every geometry and program with the same key get
    the stored layouts, whatever their attributes are, and the call changes
    nothing. *)
Theorem createVertexBufferLayouts_binds_each_feeding_buffer_once
    (g : Geometry.t) (prog : GpuProgram.t) (s : PipelineSystem.t) :
  _bufferLayoutsCache s !! layoutsKey g prog = None ->
  exists names,
    _bufferLayoutsCache (_createVertexBufferLayouts g prog s).2 !! layoutsKey g prog
      = Some (_createVertexBufferLayouts g prog s).1
    /\ _bindingNamesCache (_createVertexBufferLayouts g prog s).2 !! layoutsKey g prog
       = Some names
    /\ length (_createVertexBufferLayouts g prog s).1 = length names
    /\ NoDup names
    /\ (forall i,
          i ∈ names
          <-> (i < length (Geometry.buffers g))%nat
              /\ exists j a location,
                   (j, a) ∈ Geometry.attributes g
                   /\ Geometry.buffer_index a = Z.of_nat i
                   /\ assoc j (GpuProgram.attributeData prog) = Some location)
    /\ (forall k i,
          names !! k = Some i ->
          exists l, (_createVertexBufferLayouts g prog s).1 !! k = Some l
                    /\ vattributes l = boundAttributes i prog (Geometry.attributes g))
    /\ (forall g' prog',
          layoutsKey g' prog' = layoutsKey g prog ->
          _createVertexBufferLayouts g' prog' (_createVertexBufferLayouts g prog s).2
          = ((_createVertexBufferLayouts g prog s).1,
             (_createVertexBufferLayouts g prog s).2)).
Proof.
  intros Hmiss.
  destruct (vertexBufferLayouts_spec g prog)
    as (Hlen & Hnd & Hin & Hl).
  destruct (vertexBufferLayouts g prog) as [layouts indices] eqn:Hv.
  assert (Heq : _createVertexBufferLayouts g prog s
                = (layouts,
                   withLayoutCaches
                     (<[layoutsKey g prog := layouts]> (_bufferLayoutsCache s))
                     (<[layoutsKey g prog := indices]> (_bindingNamesCache s)) s)).
  { unfold _createVertexBufferLayouts. by rewrite Hmiss, Hv. }
  rewrite Heq. cbn [fst snd] in *. pipeline_fields.
  exists indices. rewrite !lookup_insert_eq.
  split; [done|]. split; [done|]. split; [done|]. split; [done|].
  split; [done|]. split; [done|].
  intros g' prog' Hkey. unfold _createVertexBufferLayouts. rewrite Hkey.
  pipeline_fields. by rewrite lookup_insert_eq.
Qed.

(** The sample geometry and program on a system that has cached nothing. *)
Lemma createVertexBufferLayouts_binds_each_feeding_buffer_once_witness :
  exists names,
    _bindingNamesCache
      (_createVertexBufferLayouts Sample.geometry Sample.program Sample.pipelines).2
      !! layoutsKey Sample.geometry Sample.program = Some names
    /\ NoDup names
    /\ length (_createVertexBufferLayouts Sample.geometry Sample.program
                 Sample.pipelines).1 = length names.
Proof.
  destruct (createVertexBufferLayouts_binds_each_feeding_buffer_once
              Sample.geometry Sample.program Sample.pipelines)
    as (names & _ & H1 & H2 & H3 & _).
  - by vm_compute.
  - exists names. split; [exact H1|]. split; [exact H3|exact H2].
Defined.

Lemma layoutCaches_updatePipeHash (s : PipelineSystem.t) :
  _bufferLayoutsCache (_updatePipeHash s) = _bufferLayoutsCache s
  /\ _bindingNamesCache (_updatePipeHash s) = _bindingNamesCache s.
Proof.
  unfold _updatePipeHash. destruct (decide _); [done|].
  by destruct (_pipeStateCaches s !! globalKey s).
Qed.

Lemma createVertexBufferLayouts_aligned (g : Geometry.t) (prog : GpuProgram.t)
    (s : PipelineSystem.t) :
  cachesAligned s -> cachesAligned (_createVertexBufferLayouts g prog s).2.
Proof.
  intros Hal. unfold _createVertexBufferLayouts.
  destruct (_bufferLayoutsCache s !! layoutsKey g prog); [done|].
  destruct (vertexBufferLayouts g prog) as [layouts indices].
  cbn [fst snd]. unfold cachesAligned. pipeline_fields. intros key.
  destruct (decide (key = layoutsKey g prog)) as [->|Hne].
  - rewrite !lookup_insert_eq. by eauto.
  - rewrite !lookup_insert_ne by done. apply Hal.
Qed.

Lemma getPipeline_aligned (g : Geometry.t) (prog : GpuProgram.t) (st : State)
    (topo : option Geometry.Topology) (s : PipelineSystem.t) :
  cachesAligned s -> cachesAligned (getPipeline g prog st topo s).2.
Proof.
  intros Hal. unfold getPipeline.
  set (pk := getProgKey _ _ _).
  assert (Hsel : cachesAligned (selectPipeCache pk s)).
  { unfold selectPipeCache. destruct (decide _); [done|].
    by destruct (deref (pipeTables s) (_pipeRT s) !! pk). }
  set (s1 := selectPipeCache pk s) in *.
  destruct (deref (pipeHashes s1) (_pipeCache s1) !! drawKey st s1); [done|].
  pose proof (createVertexBufferLayouts_aligned g prog s1 Hsel) as Hc.
  unfold _createPipeline.
  destruct (_createVertexBufferLayouts g prog s1) as [buffers s2].
  cbn [fst snd] in *. exact Hc.
Qed.

Lemma step_aligned (o : op) (s : PipelineSystem.t) :
  cachesAligned s -> cachesAligned (step s o).
Proof.
  intros Hal.
  assert (Hup : forall stencil mask msaa dsa hdr0,
             cachesAligned (_updatePipeHash (withGlobals stencil mask msaa dsa hdr0 s))).
  { intros stencil mask0 msaa dsa hdr0. unfold cachesAligned.
    destruct (layoutCaches_updatePipeHash (withGlobals stencil mask0 msaa dsa hdr0 s))
      as (-> & ->).
    exact Hal. }
  destruct o as [n|rt|m|k|m|g prog st topo|g prog]; cbn [step].
  - unfold setMultisampleCount. destruct (decide _); [done|]. apply Hup.
  - apply Hup.
  - unfold setColorMask. destruct (decide _); [done|]. apply Hup.
  - done.
  - unfold setStencilMode. destruct (decide _); [done|]. apply Hup.
  - by apply getPipeline_aligned.
  - unfold getBufferNamesToBind.
    destruct (_bindingNamesCache s !! layoutsKey g prog); [done|].
    by apply createVertexBufferLayouts_aligned.
Qed.

Lemma reachable_aligned (DISABLED : Z) (ops : list op) :
  cachesAligned (run ops (contextChange DISABLED create)).
Proof.
  assert (H0 : cachesAligned (contextChange DISABLED create)).
  { unfold contextChange, setStencilMode. cbn [_stencilMode create].
    destruct (decide (None = Some DISABLED)) as [|_]; [done|].
    unfold cachesAligned.
    match goal with
    | |- context [_updatePipeHash (_updatePipeHash ?s0)] =>
        destruct (layoutCaches_updatePipeHash (_updatePipeHash s0)) as (-> & ->);
        destruct (layoutCaches_updatePipeHash s0) as (-> & ->)
    end.
    intros key [x Hx]. revert Hx. unfold withGlobals, create.
    cbn [_bufferLayoutsCache]. by rewrite lookup_empty. }
  revert H0. generalize (contextChange DISABLED create).
  induction ops as [|o ops IH]; intros s Hal; [done|].
  unfold run. cbn [foldl]. fold (run ops (step s o)).
  by apply IH, step_aligned.
Qed.

(** X20.  After a context change and any sequence of calls,
    [getBufferNamesToBind] returns a list, never [undefined], and a second
    call returns the same list without changing the system.  When the names
    were not cached yet, the list is the one the layout builder computes. *)
Theorem getBufferNamesToBind_is_defined_and_memoized (DISABLED : Z)
    (ops : list op) (g : Geometry.t) (prog : GpuProgram.t) :
  exists names,
    (getBufferNamesToBind g prog (run ops (contextChange DISABLED create))).1
      = Some names
    /\ getBufferNamesToBind g prog
         (getBufferNamesToBind g prog (run ops (contextChange DISABLED create))).2
       = (Some names,
          (getBufferNamesToBind g prog (run ops (contextChange DISABLED create))).2)
    /\ (_bindingNamesCache (run ops (contextChange DISABLED create))
          !! layoutsKey g prog = None ->
        names = (vertexBufferLayouts g prog).2).
Proof.
  pose proof (reachable_aligned DISABLED ops) as Hal.
  set (s := run ops (contextChange DISABLED create)) in *.
  unfold getBufferNamesToBind at 1 3 4.
  destruct (_bindingNamesCache s !! layoutsKey g prog) as [names|] eqn:Hn.
  - exists names. cbn [fst snd]. split; [done|]. split; [|done].
    unfold getBufferNamesToBind. by rewrite Hn.
  - assert (Hl : _bufferLayoutsCache s !! layoutsKey g prog = None).
    { destruct (_bufferLayoutsCache s !! layoutsKey g prog) eqn:E; [|done].
      destruct (Hal (layoutsKey g prog)) as [x Hx]; [by rewrite E|]. congruence. }
    unfold _createVertexBufferLayouts. rewrite Hl.
    destruct (vertexBufferLayouts g prog) as [layouts indices].
    cbn [fst snd]. pipeline_fields. rewrite lookup_insert_eq.
    exists indices. split; [done|]. split; [|done].
    unfold getBufferNamesToBind. pipeline_fields. by rewrite lookup_insert_eq.
Qed.

End PipelineCacheContents.

(** ** Bind groups: construction and keys *)

Section BindGroupKeys.

Import BindGroup.

Lemma constructFrom_spec (self : nat) (entries : list (string * nat)) (index : Z)
    (rs : gmap nat Resource) (bg : BindGroup.t) :
  (forall j, index <= j -> resources bg !! j = None) ->
  _updateID (constructFrom self index entries rs bg).2
    = _updateID bg + Z.of_nat (length entries)
  /\ _keys (constructFrom self index entries rs bg).2 = _keys bg
  /\ (forall j, j < index ->
        resources (constructFrom self index entries rs bg).2 !! j = resources bg !! j)
  /\ (forall i : nat,
        resources (constructFrom self index entries rs bg).2 !! (index + Z.of_nat i)
        = (fun e => Js.obj e.2) <$> entries !! i).
Proof.
  revert index rs bg. induction entries as [|[name resource] entries IH];
    intros index rs bg Hfree.
  - cbn [constructFrom snd length]. split; [lia|]. split; [done|]. split; [done|].
    intros i. rewrite lookup_nil. cbn. apply Hfree. lia.
  - cbn [constructFrom]. unfold setResource.
    rewrite (Hfree index) by lia. cbn [default].
    destruct (decide (Js.obj resource = Js.undefined)) as [|_]; [done|].
    match goal with
    | |- context [constructFrom self (index + 1) entries ?rs1 ?bg1] =>
        destruct (IH (index + 1) rs1 bg1) as (Hu & Hk & Hlow & Hnew)
    end.
    { intros j Hj. cbn [resources]. rewrite lookup_insert_ne by lia.
      apply Hfree. lia. }
    cbn [resources _updateID _keys] in *.
    split; [rewrite Hu; cbn [length]; lia|]. split; [done|]. split.
    + intros j Hj. rewrite Hlow by lia. by rewrite lookup_insert_ne by lia.
    + intros [|i].
      * rewrite Z.add_0_r, Hlow by lia. by rewrite lookup_insert_eq.
      * replace (index + Z.of_nat (S i)) with (index + 1 + Z.of_nat i) by lia.
        by rewrite Hnew.
Qed.

(** X21.  The constructor stores the resources by position in the entry
    list, at indices 0, 1, ..., leaves [_updateID] at the number of entries
    less one and records no key.  The key of a group constructed without
    entries is therefore the empty string, computed without reading the
    layout and without touching the key parts; a group constructed with
    entries computes its key on first use. *)
Theorem construct_binds_by_position (self : nat) (entries : list (string * nat))
    (rs : gmap nat Resource) :
  _updateID (construct self entries rs).2 = Z.of_nat (length entries) - 1
  /\ _keys (construct self entries rs).2 = ∅
  /\ (forall i : nat,
        resources (construct self entries rs).2 !! Z.of_nat i
        = (fun e => Js.obj e.2) <$> entries !! i)
  /\ (forall j, j < 0 -> resources (construct self entries rs).2 !! j = None)
  /\ (forall prog group rs' keyParts,
        getGpuKey prog group rs' keyParts (construct self [] rs).2
        = Ok EmptyString (keyParts, setPair prog newPair create))
  /\ (entries <> [] ->
      forall prog group rs' keyParts,
        getGpuKey prog group rs' keyParts (construct self entries rs).2
        = recomputeKey prog group rs' keyParts
            (setPair prog newPair (construct self entries rs).2)).
Proof.
  unfold construct.
  destruct (constructFrom_spec self entries 0 rs create) as (Hu & Hk & Hlow & Hnew).
  { intros j _. apply lookup_empty. }
  split; [rewrite Hu; cbn; lia|]. split; [done|].
  split; [intros i; by rewrite <- Hnew|].
  split; [intros j Hj; by rewrite Hlow|].
  split; [done|].
  intros Hne prog group rs' keyParts.
  assert (Hpair : pairOf prog (constructFrom self 0 entries rs create).2 = newPair).
  { unfold pairOf. rewrite Hk. cbn [create _keys]. by rewrite lookup_empty. }
  rewrite getGpuKey_stale; [by rewrite Hpair|].
  rewrite Hpair, Hu. cbn [newPair dirtyId create _updateID].
  destruct entries; [done|]. cbn [length]. lia.
Qed.

(** The loop over a layout pushes the identity strings of its entries, and
    stops at the first slot that holds no resource. *)
Lemma pushParts_spec (rs : gmap nat Resource) (bg : BindGroup.t)
    (layout : list GpuProgram.LayoutEntry) (hasStorage : bool)
    (keyParts : list string) :
  match layoutParts rs bg layout with
  | Some parts =>
      pushParts rs bg layout hasStorage keyParts
      = Ok (hasStorage || existsb isStorage layout) (keyParts ++ parts)
  | None =>
      exists pushed, pushParts rs bg layout hasStorage keyParts
                     = Throw (keyParts ++ pushed)
  end.
Proof.
  revert hasStorage keyParts. unfold layoutParts.
  induction layout as [|bgle layout IH]; intros hasStorage keyParts.
  - cbn. by rewrite orb_false_r, app_nil_r.
  - cbn [pushParts mapM].
    destruct (resourceIdString rs bg (GpuProgram.binding bgle)) as [s|];
      cbn [mbind option_bind].
    + specialize (IH (hasStorage || isStorage bgle) (keyParts ++ [s])).
      destruct (mapM _ layout) as [parts|]; cbn [mbind option_bind mret option_ret].
      * rewrite IH. cbn [existsb]. by rewrite orb_assoc, <- app_assoc.
      * destruct IH as (pushed & ->). exists (s :: pushed).
        by rewrite <- app_assoc.
    + exists []. by rewrite app_nil_r.
Qed.

(** A call that computes the key returns the join of the parts found in
    [keyParts] at entry and the parts of the layout. *)
Lemma recomputeKey_join (prog : GpuProgram.t) (group : nat)
    (rs : gmap nat Resource) (keyParts : list string) (bg : BindGroup.t)
    (layout : list GpuProgram.LayoutEntry) (parts : list string) :
  GpuProgram.gpuLayout prog !! group = Some layout ->
  layoutParts rs bg layout = Some parts ->
  exists bg',
    recomputeKey prog group rs keyParts bg
    = Ok (join "|" (keyParts ++ parts
                    ++ if existsb isStorage layout
                       then ["~" +:+ pretty (GpuProgram._layoutKey prog)]
                       else []))
         ([], bg').
Proof.
  intros Hl Hp. unfold recomputeKey. rewrite Hl.
  pose proof (pushParts_spec rs bg layout false keyParts) as Hpush.
  rewrite Hp in Hpush. rewrite Hpush. cbn [orb].
  destruct (existsb isStorage layout).
  - eexists. by rewrite <- app_assoc.
  - eexists. by rewrite app_nil_r.
Qed.

Lemma recomputeKey_throw (prog : GpuProgram.t) (group : nat)
    (rs : gmap nat Resource) (keyParts keyParts' : list string)
    (bg bg' : BindGroup.t) :
  recomputeKey prog group rs keyParts bg = Throw (keyParts', bg') ->
  exists pushed, keyParts' = keyParts ++ pushed.
Proof.
  unfold recomputeKey.
  destruct (GpuProgram.gpuLayout prog !! group) as [layout|].
  2:{ intros [= <- _]. exists []. by rewrite app_nil_r. }
  pose proof (pushParts_spec rs bg layout false keyParts) as Hpush.
  destruct (layoutParts rs bg layout) as [parts|].
  - rewrite Hpush. by destruct (false || existsb isStorage layout).
  - destruct Hpush as (pushed & ->). intros [= <- _]. by exists pushed.
Qed.

Lemma setPair_layoutParts (prog : GpuProgram.t) (rec : GroupProgPair)
    (rs : gmap nat Resource) (bg : BindGroup.t)
    (layout : list GpuProgram.LayoutEntry) :
  layoutParts rs (setPair prog rec bg) layout = layoutParts rs bg layout.
Proof. done. Qed.

(** X22.  The key parts are cleared only when a key has been joined.
    When [getGpuKey] throws, the parts pushed so far stay in the shared list
    and the group stays dirty, so that the key computed next, for any group,
    starts with the left-over parts instead of being the key computed from
    an empty list. *)
Theorem keyParts_survive_a_throw
    (progA progB : GpuProgram.t) (groupA groupB : nat) (rs : gmap nat Resource)
    (keyParts keyPartsA : list string) (bgA bgA' bgB : BindGroup.t)
    (layout : list GpuProgram.LayoutEntry) (parts : list string) :
  getGpuKey progA groupA rs keyParts bgA = Throw (keyPartsA, bgA') ->
  dirtyId (pairOf progB bgB) <> _updateID bgB ->
  GpuProgram.gpuLayout progB !! groupB = Some layout ->
  layoutParts rs bgB layout = Some parts ->
  (exists pushed, keyPartsA = keyParts ++ pushed)
  /\ dirtyId (pairOf progA bgA') <> _updateID bgA'
  /\ (exists bg1,
        getGpuKey progB groupB rs [] bgB
        = Ok (join "|" (parts ++ if existsb isStorage layout
                                 then ["~" +:+ pretty (GpuProgram._layoutKey progB)]
                                 else []))
             ([], bg1))
  /\ (exists bg2,
        getGpuKey progB groupB rs keyPartsA bgB
        = Ok (join "|" (keyPartsA ++ parts
                        ++ if existsb isStorage layout
                           then ["~" +:+ pretty (GpuProgram._layoutKey progB)]
                           else []))
             ([], bg2)).
Proof.
  intros HA Hstale Hl Hp.
  assert (HstaleA : dirtyId (pairOf progA bgA) <> _updateID bgA).
  { intros Heq. unfold getGpuKey in HA.
    by rewrite bool_decide_eq_true_2 in HA by done. }
  rewrite getGpuKey_stale in HA by done.
  split; [by eapply recomputeKey_throw|]. split.
  - unfold recomputeKey in HA.
    destruct (GpuProgram.gpuLayout progA !! groupA) as [layoutA|].
    + destruct (pushParts rs _ layoutA false keyParts); [done|].
      injection HA as _ <-. unfold pairOf. by rewrite pairOf_setPair.
    + injection HA as _ <-. unfold pairOf. by rewrite pairOf_setPair.
  - rewrite !getGpuKey_stale by done. split.
    + destruct (recomputeKey_join progB groupB rs [] (setPair progB (pairOf progB bgB) bgB)
                  layout parts Hl Hp) as (bg1 & H1).
      by exists bg1.
    + destruct (recomputeKey_join progB groupB rs keyPartsA
                  (setPair progB (pairOf progB bgB) bgB) layout parts Hl Hp)
        as (bg2 & H2).
      by exists bg2.
Qed.

(** The sample program asks group 1 for slots 0 and 1.  The uniforms group
    holds slot 0 only: its key cannot be computed, and the part pushed for
    slot 0 stays behind.  The key of the textures group, "5|6" when computed
    from an empty [keyParts], is then "5|5|6". *)
Lemma keyParts_survive_a_throw_witness :
  exists bgA' bg1 bg2,
    getGpuKey Sample.program 1 Sample.resources [] Sample.uniforms
      = Throw (["5"], bgA')
    /\ getGpuKey Sample.program 1 Sample.resources [] Sample.textures
       = Ok "5|6" ([], bg1)
    /\ getGpuKey Sample.program 1 Sample.resources ["5"] Sample.textures
       = Ok "5|5|6" ([], bg2).
Proof.
  exists (setPair Sample.program newPair Sample.uniforms).
  destruct (keyParts_survive_a_throw Sample.program Sample.program 1 1
              Sample.resources [] ["5"] Sample.uniforms
              (setPair Sample.program newPair Sample.uniforms) Sample.textures
              [{| GpuProgram.binding := 0; GpuProgram.storageTexture := false;
                  GpuProgram.buffer := None |};
               {| GpuProgram.binding := 1; GpuProgram.storageTexture := false;
                  GpuProgram.buffer := None |}]
              ["5"; "6"])
    as (_ & _ & (bg1 & H1) & (bg2 & H2)).
  - by vm_compute.
  - by vm_compute.
  - reflexivity.
  - by vm_compute.
  - exists bg1, bg2. split; [by vm_compute|]. split; [exact H1|exact H2].
Defined.

Lemma pushParts_missing (rs : gmap nat Resource) (bg : BindGroup.t)
    (layout : list GpuProgram.LayoutEntry) (hasStorage : bool)
    (keyParts : list string) (e : GpuProgram.LayoutEntry) :
  e ∈ layout -> resourceIdString rs bg (GpuProgram.binding e) = None ->
  exists parts, pushParts rs bg layout hasStorage keyParts = Throw parts.
Proof.
  intros Hin Hnone.
  pose proof (pushParts_spec rs bg layout hasStorage keyParts) as H.
  destruct (layoutParts rs bg layout) as [parts|] eqn:E.
  - exfalso. unfold layoutParts in E.
    apply mapM_Some_1 in E.
    apply list_elem_of_lookup in Hin as (i & Hi).
    destruct (Forall2_lookup_l _ _ _ _ _ E Hi) as (s & _ & Hs). congruence.
  - destruct H as (pushed & ->). by eexists.
Qed.

(** X23.  When a resource bound to a slot that the layout names is
    destroyed, [onResourceChange] sets the slot to [null], and the next
    [getGpuKey] of the group, whose keys that call cleared, throws on
    reading [_resourceId] of [null]. *)
Theorem key_of_group_with_destroyed_resource_throws
    (prog : GpuProgram.t) (group : nat) (rs : gmap nat Resource)
    (keyParts : list string) (bg : BindGroup.t) (resource : nat)
    (layout : list GpuProgram.LayoutEntry) (e : GpuProgram.LayoutEntry) :
  keysFresh bg ->
  destroyed <$> rs !! resource = Some true ->
  GpuProgram.gpuLayout prog !! group = Some layout ->
  e ∈ layout ->
  resources bg !! GpuProgram.binding e = Some (Js.obj resource) ->
  resources (onResourceChange resource rs bg) !! GpuProgram.binding e = Some Js.null
  /\ exists keyParts' bg',
       getGpuKey prog group rs keyParts (onResourceChange resource rs bg)
       = Throw (keyParts', bg').
Proof.
  intros Hfresh Hd Hl Hin Hslot.
  assert (Hnull : resources (onResourceChange resource rs bg) !! GpuProgram.binding e
                  = Some Js.null).
  { unfold onResourceChange. cbn [resources]. rewrite Hd. cbn [default id].
    rewrite lookup_fmap, Hslot. cbn. by rewrite decide_True. }
  split; [done|].
  destruct (stale_after_bump prog bg (onResourceChange resource rs bg) Hfresh)
    as (_ & Hstale); [done|done|].
  rewrite getGpuKey_stale by done. unfold recomputeKey. rewrite Hl.
  destruct (pushParts_missing rs
              (setPair prog (pairOf prog (onResourceChange resource rs bg))
                 (onResourceChange resource rs bg))
              layout false keyParts e Hin) as (parts & ->).
  - unfold resourceIdString. cbn [setPair resources]. by rewrite Hnull.
  - by eexists _, _.
Qed.


(** The textures group holds resource 2 in slot 1, which group 1 of the
    sample program reads. *)
Lemma key_of_group_with_destroyed_resource_throws_witness :
  resources (onResourceChange 2 Sample.resourcesAfterDestroy Sample.textures) !! 1
    = Some Js.null
  /\ exists keyParts' bg',
       getGpuKey Sample.program 1 Sample.resourcesAfterDestroy []
         (onResourceChange 2 Sample.resourcesAfterDestroy Sample.textures)
       = Throw (keyParts', bg').
Proof.
  apply (key_of_group_with_destroyed_resource_throws Sample.program 1
           Sample.resourcesAfterDestroy [] Sample.textures 2
           [{| GpuProgram.binding := 0; GpuProgram.storageTexture := false;
               GpuProgram.buffer := None |};
            {| GpuProgram.binding := 1; GpuProgram.storageTexture := false;
               GpuProgram.buffer := None |}]
           {| GpuProgram.binding := 1; GpuProgram.storageTexture := false;
              GpuProgram.buffer := None |}).
  - split; [by vm_compute|]. intros k rec H.
    change (_keys Sample.textures) with (∅ : gmap Z GroupProgPair) in H.
    by rewrite lookup_empty in H.
  - by vm_compute.
  - reflexivity.
  - right. left.
  - by vm_compute.
Defined.

End BindGroupKeys.

(** ** The command encoder: passes and rebinding *)

Section GpuEncoderPasses.

Import GpuEncoderSystem.

Ltac encoder_fields :=
  unfold withBound, withEncoder, setLastLayout in *;
  cbn [renderPassEncoder computePassEncoder ended _boundBindGroup
       _boundVertexBuffer _boundIndexBuffer _boundPipeline _boundCompute
       pipeline bindGroups encoder
       BindGroup.resources BindGroup._keys BindGroup._updateID
       BindGroup._lastLayout] in *.


(** X25.  [onResourceChange] raises [_updateID], which invalidates the
    keys, but not [_dirtyId], which is all the encoder compares: for a group
    bound at an index, [setBindGroup] still records nothing. *)
Theorem resource_change_does_not_rebind (index : Z) (g : nat) (prog : GpuProgram.t)
    (r : Renderer) (bg : BindGroup.t) (resource : nat)
    (rs : gmap nat BindGroup.Resource) :
  bindGroups r !! g = Some bg ->
  groupBound (GpuProgram._layoutKey prog) r index g ->
  BindGroup._updateID (BindGroup.onResourceChange resource rs bg)
    = BindGroup._updateID bg + 1
  /\ setBindGroup index g prog
       (withBindGroup g (BindGroup.onResourceChange resource rs bg) r)
     = Some (withBindGroup g (BindGroup.onResourceChange resource rs bg) r).
Proof.
  intros Hbg (Hslot & bg0 & Hbg0 & Hl). split; [done|].
  apply setBindGroup_noop. split; [done|].
  exists (BindGroup.onResourceChange resource rs bg).
  unfold withBindGroup. cbn [bindGroups]. split; [apply lookup_insert_eq|].
  rewrite Hbg in Hbg0. by injection Hbg0 as ->.
Qed.


Lemma onRenderPass_closed (c : Command) (e : GpuEncoderSystem.t) :
  renderPassEncoder e = None -> onRenderPass c e = None.
Proof. intros H. unfold onRenderPass. by rewrite H. Qed.

Lemma bindVertexBuffers_closed (bufs : list Js.ref) (i : Z)
    (e e' : GpuEncoderSystem.t) :
  renderPassEncoder e = None -> bindVertexBuffers i bufs e = Some e' -> e' = e.
Proof.
  intros Hc. revert i. induction bufs as [|b bufs IH]; intros i;
    cbn [bindVertexBuffers]; [by intros [= <-]|].
  unfold _setVertexBuffer. destruct (decide _).
  - cbn [mbind option_bind]. apply IH.
  - by rewrite onRenderPass_closed.
Qed.

Lemma setBindGroup_closed (index : Z) (g : nat) (prog : GpuProgram.t)
    (r r' : Renderer) :
  renderPassEncoder (encoder r) = None ->
  setBindGroup index g prog r = Some r' ->
  renderPassEncoder (encoder r') = None.
Proof.
  intros Hc. unfold setBindGroup.
  destruct (bindGroups r !! g) as [bg|]; [|done]. cbn [mbind option_bind].
  destruct (_ && _); [by intros [= <-]|].
  unfold onEitherPass. encoder_fields. rewrite Hc.
  destruct (computePassEncoder (encoder r)); [|done].
  cbn [mbind option_bind]. by intros [= <-].
Qed.

Lemma setShaderBindGroups_closed (prog : GpuProgram.t) (gs : list (Z * nat))
    (r r' : Renderer) :
  renderPassEncoder (encoder r) = None ->
  _setShaderBindGroups prog gs r = Some r' ->
  renderPassEncoder (encoder r') = None.
Proof.
  revert r. induction gs as [|[i g] gs IH]; intros r Hc;
    cbn [_setShaderBindGroups]; [by intros [= <-]|].
  destruct (setBindGroup i g prog r) as [r1|] eqn:H1; [|done].
  cbn [mbind option_bind]. apply IH. by eapply setBindGroup_closed.
Qed.

(** X27.  [draw] needs an open render pass: without one it throws on
    its first call to the pass encoder.  This is the case after
    [finishRenderPass], after [endCurrentPass] and on a new encoder. *)
Theorem draw_without_render_pass_throws (o : DrawOptions) (r : Renderer) :
  (renderPassEncoder (encoder r) = None -> draw o r = None)
  /\ draw o (withEncoder (finishRenderPass (encoder r)) r) = None
  /\ draw o (withEncoder (endCurrentPass (encoder r)) r) = None
  /\ draw o (withEncoder create r) = None.
Proof.
  assert (H : forall r0, renderPassEncoder (encoder r0) = None -> draw o r0 = None).
  { intros r0 Hc.
    unfold draw, setPipelineFromGeometryProgramAndState, setGeometry.
    destruct (PipelineSystem.getPipeline (geometry o) (gpuProgram (shader o)) (state o)
                (topology o) (pipeline r0)) as [p ps1].
    unfold setPipeline. destruct (decide _); [|by rewrite onRenderPass_closed].
    cbn [mbind option_bind pipeline encoder bindGroups].
    destruct (PipelineSystem.getBufferNamesToBind (geometry o) (gpuProgram (shader o)) ps1)
      as [names ps2].
    destruct (bindVertexBuffers 0 (buffersOf (geometry o) names) (encoder r0))
      as [e2|] eqn:H2; [|done].
    apply bindVertexBuffers_closed in H2 as ->; [|done].
    cbn [mbind option_bind].
    destruct (match Geometry.indexBuffer (geometry o) with
              | Some b => _setIndexBuffer b (encoder r0)
              | None => Some (encoder r0)
              end) as [e3|] eqn:H3; [|done].
    assert (e3 = encoder r0) as ->.
    { destruct (Geometry.indexBuffer (geometry o)) as [b|]; [|by injection H3].
      unfold _setIndexBuffer in H3. destruct (decide _); [by injection H3|].
      by rewrite onRenderPass_closed in H3. }
    cbn [mbind option_bind].
    destruct (_setShaderBindGroups _ _ _) as [r3|] eqn:H4; [|done].
    cbn [mbind option_bind].
    apply setShaderBindGroups_closed in H4; [|done].
    by rewrite onRenderPass_closed. }
  split; [apply H|]. split; [|split].
  - apply H. unfold finishRenderPass. cbn [withEncoder encoder].
    by destruct (renderPassEncoder (encoder r)) eqn:E.
  - by apply H.
  - by apply H.
Qed.













(** After the sample draw, a change notification of resource 1 advances the
    revision of the uniforms group, and binding the group at index 0 again
    records nothing. *)
Lemma resource_change_does_not_rebind_witness :
  exists r1 bg,
    draw Sample.options Sample.renderer = Some r1
    /\ bindGroups r1 !! 0%nat = Some bg
    /\ BindGroup._updateID (BindGroup.onResourceChange 1 Sample.resources bg)
       = BindGroup._updateID bg + 1
    /\ setBindGroup 0 0 Sample.program
         (withBindGroup 0 (BindGroup.onResourceChange 1 Sample.resources bg) r1)
       = Some (withBindGroup 0 (BindGroup.onResourceChange 1 Sample.resources bg) r1).
Proof.
  set (r1 := default Sample.renderer (draw Sample.options Sample.renderer)).
  assert (Hbg : exists bg, bindGroups r1 !! 0%nat = Some bg
                           /\ BindGroup._lastLayout bg = 3).
  { eexists. split; by vm_compute. }
  destruct Hbg as (bg & Hbg & Hl).
  destruct (resource_change_does_not_rebind 0 0%nat Sample.program r1 bg 1%nat
              Sample.resources Hbg) as (H1 & H2).
  { split; [by vm_compute|]. exists bg. split; [exact Hbg|exact Hl]. }
  exists r1, bg. split; [by vm_compute|]. split; [exact Hbg|].
  split; [exact H1|exact H2].
Defined.


End GpuEncoderPasses.
